(** * webtty: the framed bridge between a PTY slave and its master

    A shallow embedding of [webtty/webtty.go] (package [webtty] of gotty):
    the frame dispatch of [handleMasterReadEvent], the output framing of
    [handleSlaveReadEvent], the two read pumps of [Run] and the keystroke
    audit of [audit] / [filterASCII], with the properties the
    specification states about them.  The definitions come first, the
    properties after them. *)

From Stdlib Require Import ZArith NArith List Strings.Byte String Ascii Lia.
From Stdlib Require Import Floats.SpecFloat.
From stdpp Require Import base option list gmap strings.

Open Scope Z_scope.

(** * Bytes

    A Go [byte] is [Byte.byte]; the source compares bytes with decimal
    literals ([s == 13]), which [byte_is] mirrors. *)

Definition Z_of_byte (b : byte) : Z := Z.of_N (Byte.to_N b).

Definition byte_of_Z (z : Z) : byte :=
  match Byte.of_N (Z.to_N (z mod 256)) with
  | Some b => b
  | None => x00
  end.

(** [b == n] for a byte [b] and an untyped constant [n]. *)
Definition byte_is (b : byte) (n : Z) : bool := Z_of_byte b =? n.

#[global] Instance byte_eq_dec : EqDecision byte := Byte.byte_eq_dec.

(** * [encoding/base64]: the standard encoding with padding

    [base64.StdEncoding.EncodeToString], following the library's
    [Encode]: three source bytes are packed into a 24-bit value and cut
    into four 6-bit indices of the alphabet; a remainder of one or two
    bytes is padded with [=]. *)

Module base64.

Definition encodeStd : list byte :=
  list_byte_of_string
    "ABCDEFGHIJKLMNOPQRSTUVWXYZabcdefghijklmnopqrstuvwxyz0123456789+/".

Definition StdPadding : byte := "="%byte.

(** [enc.encode[i]] *)
Definition encode_at (i : Z) : byte :=
  nth (Z.to_nat i) encodeStd StdPadding.

Definition pack3 (a b c : byte) : Z :=
  Z.lor (Z.lor (Z.shiftl (Z_of_byte a) 16) (Z.shiftl (Z_of_byte b) 8))
        (Z_of_byte c).

Definition sextet (val : Z) (shift : Z) : Z :=
  Z.land (Z.shiftr val shift) 63.

Fixpoint EncodeToString (src : list byte) : list byte :=
  match src with
  | [] => []
  | [a] =>
      let val := Z.shiftl (Z_of_byte a) 16 in
      [encode_at (sextet val 18); encode_at (sextet val 12);
       StdPadding; StdPadding]
  | [a; b] =>
      let val := Z.lor (Z.shiftl (Z_of_byte a) 16) (Z.shiftl (Z_of_byte b) 8) in
      [encode_at (sextet val 18); encode_at (sextet val 12);
       encode_at (sextet val 6); StdPadding]
  | a :: b :: c :: rest =>
      let val := pack3 a b c in
      encode_at (sextet val 18) :: encode_at (sextet val 12) ::
      encode_at (sextet val 6) :: encode_at (sextet val 0) ::
      EncodeToString rest
  end.

(** The inverse table ([enc.decodeMap]): the index of a character in
    the alphabet. *)
Fixpoint index_of (c : byte) (l : list byte) (i : Z) : option Z :=
  match l with
  | [] => None
  | x :: l' => if Byte.eqb c x then Some i else index_of c l' (i + 1)
  end.

Definition decode_at (c : byte) : option Z := index_of c encodeStd 0.

(** Decoding of padded input, group by group. *)
Fixpoint DecodeString (s : list byte) : option (list byte) :=
  match s with
  | [] => Some []
  | c1 :: c2 :: c3 :: c4 :: rest =>
      match decode_at c1, decode_at c2 with
      | Some v1, Some v2 =>
          if Byte.eqb c3 StdPadding then
            if Byte.eqb c4 StdPadding then
              match rest with
              | [] => Some [byte_of_Z (Z.shiftr (Z.lor (Z.shiftl v1 18) (Z.shiftl v2 12)) 16)]
              | _ => None
              end
            else None
          else
            match decode_at c3 with
            | Some v3 =>
                if Byte.eqb c4 StdPadding then
                  match rest with
                  | [] =>
                      let val := Z.lor (Z.lor (Z.shiftl v1 18) (Z.shiftl v2 12))
                                       (Z.shiftl v3 6) in
                      Some [byte_of_Z (Z.shiftr val 16); byte_of_Z (Z.shiftr val 8)]
                  | _ => None
                  end
                else
                  match decode_at c4, DecodeString rest with
                  | Some v4, Some out =>
                      let val := Z.lor (Z.lor (Z.lor (Z.shiftl v1 18) (Z.shiftl v2 12))
                                              (Z.shiftl v3 6)) v4 in
                      Some (byte_of_Z (Z.shiftr val 16) :: byte_of_Z (Z.shiftr val 8)
                            :: byte_of_Z val :: out)
                  | _, _ => None
                  end
            | None => None
            end
      | _, _ => None
      end
  | _ => None
  end.

End base64.


(** The alphabet read back: index [i] decodes to itself and is not the
    padding character. *)
Definition alphabet_ok (i : nat) : bool :=
  match base64.decode_at (base64.encode_at (Z.of_nat i)) with
  | Some v =>
      (v =? Z.of_nat i)
      && negb (Byte.eqb (base64.encode_at (Z.of_nat i)) base64.StdPadding)
  | None => false
  end.

(** A character of base64 text: of the alphabet, or the padding. *)
Definition base64_char (c : byte) : Prop :=
  c = base64.StdPadding \/ exists v, 0 <= v < 64 /\ c = base64.encode_at v.

(** * Go values used by the package *)

(** [len(x)] *)
Definition len {A : Type} (l : list A) : Z := Z.of_nat (length l).

(** [msg[i] == n].  An index out of range panics in Go; every use in
    the source is guarded by a test of [len(msg)], and the lookup of
    an absent index is [false] here. *)
Definition at_is (msg : list byte) (i : Z) (n : Z) : bool :=
  match msg !! Z.to_nat i with
  | Some b => byte_is b n
  | None => false
  end.

(** [string(b)] for a byte slice [b], and [[]byte(s)]. *)
Definition string_of_bytes (b : list byte) : string := string_of_list_byte b.
Definition bytes_of_string (s : string) : list byte := list_byte_of_string s.

(** [string(a)] for one byte [a]: the UTF-8 encoding of the code
    point [a], two bytes from 128 on. *)
Definition string_of_rune (a : byte) : string :=
  let v := Z_of_byte a in
  if v <? 128 then string_of_list_byte [a]
  else string_of_list_byte
         [byte_of_Z (Z.lor 192 (Z.shiftr v 6)); byte_of_Z (Z.lor 128 (Z.land v 63))].

(** [strings.Replace(s, old, new, -1)] for a non-empty [old]: the
    non-overlapping occurrences of [old], found from the left, are
    replaced.  [skip] counts the bytes of a match still to pass over. *)
Fixpoint replace_from (old new : string) (skip : nat) (s : string) : string :=
  match s with
  | EmptyString => EmptyString
  | String c s' =>
      match skip with
      | S k => replace_from old new k s'
      | O =>
          if String.prefix old s
          then (new ++ replace_from old new (String.length old - 1) s')%string
          else String c (replace_from old new 0 s')
      end
  end.

Definition strings_Replace (s old new : string) : string := replace_from old new 0 s.

(** [old] occurs somewhere in [s]. *)
Fixpoint occurs (old s : string) : bool :=
  match s with
  | EmptyString => false
  | String _ s' => String.prefix old s || occurs old s'
  end.

(** ** Errors

    [errors.New], [errors.Errorf] with its one [%c] argument and
    [errors.Wrapf] of [github.com/pkg/errors]; [Foreign] is an error
    value made outside the package (by an endpoint or by the JSON
    decoder), known by its text. *)
Inductive error : Type :=
| errors_New (msg : string)
| errors_Errorf (format : string) (arg : byte)
| errors_Wrapf (cause : error) (msg : string)
| Foreign (text : string).

(** ** The logger

    A call of logrus: its level, the fields given to [WithFields] and
    the arguments of [Debug] / [Info].  [time.Now()] is kept as the
    token [VTime]: the clock is not part of the model. *)
Inductive Level : Type := DebugLevel | InfoLevel.

Inductive Value : Type :=
| VTime
| VString (s : string)
| VByte (b : byte).

Record Entry : Type := mkEntry {
  level : Level;
  fields : list (string * Value);
  args : list Value
}.

(** What a session does to the world outside it, in order. *)
Inductive Event : Type :=
| MasterWrite (data : list byte)
| SlaveWrite (data : list byte)
| SlaveResize (columns rows : Z)
| Log (e : Entry).

Definition is_MasterWrite (e : Event) : option (list byte) :=
  match e with MasterWrite d => Some d | _ => None end.
Definition is_SlaveWrite (e : Event) : option (list byte) :=
  match e with SlaveWrite d => Some d | _ => None end.
Definition is_SlaveResize (e : Event) : option (Z * Z) :=
  match e with SlaveResize c r => Some (c, r) | _ => None end.
Definition is_Log (e : Event) : option Entry :=
  match e with Log x => Some x | _ => None end.
Definition is_Info (e : Event) : option Entry :=
  match e with
  | Log x => match level x with InfoLevel => Some x | DebugLevel => None end
  | _ => None
  end.

Definition master_writes (tr : list Event) : list (list byte) := omap is_MasterWrite tr.
Definition slave_writes (tr : list Event) : list (list byte) := omap is_SlaveWrite tr.
Definition resizes (tr : list Event) : list (Z * Z) := omap is_SlaveResize tr.
Definition log_lines (tr : list Event) : list Entry := omap is_Log tr.
(** The audit records: the entries logged at level info. *)
Definition audit_records (tr : list Event) : list Entry := omap is_Info tr.

(** ** The endpoints *)

(** Modelled from the spec: the interface [Master], whose declaration
    is in a file of the package that is not under [src/]; the spec
    gives it [read(buffer) -> (n, error)] and [write(bytes) -> (n, error)].
    An endpoint is a state, a call returns the next state with its
    result: for a read the [n] bytes put into the buffer and the error.
    The byte count that [Write] returns is discarded by every caller
    and is left out. *)
Class Master (M : Type) : Type := {
  Master_Read : M -> Z -> M * (list byte * option error);
  Master_Write : M -> list byte -> M * option error
}.

(** Modelled from the spec: the interface [Slave], declared beside
    [Master]; the spec gives it [read], [write] and
    [resize(columns, rows)].  The caller drops what [ResizeTerminal]
    returns. *)
Class Slave (S : Type) : Type := {
  Slave_Read : S -> Z -> S * (list byte * option error);
  Slave_Write : S -> list byte -> S * option error;
  Slave_ResizeTerminal : S -> Z -> Z -> S
}.

(** ** The session *)

Record WebTTY (M S : Type) : Type := mkWebTTY {
  masterConn : M;
  slave : S;
  windowTitle : list byte;
  permitWrite : bool;
  columns : Z;
  rows : Z;
  reconnect : Z;
  masterPrefs : option (list byte);
  bufferSize : Z;
  auditBuffer : list byte;
  auditUser : string;
  waitForAutocomplete : bool
}.

Arguments mkWebTTY {M S}.
Arguments masterConn {M S}.
Arguments slave {M S}.
Arguments windowTitle {M S}.
Arguments permitWrite {M S}.
Arguments columns {M S}.
Arguments rows {M S}.
Arguments reconnect {M S}.
Arguments masterPrefs {M S}.
Arguments bufferSize {M S}.
Arguments auditBuffer {M S}.
Arguments auditUser {M S}.
Arguments waitForAutocomplete {M S}.

(** A session together with the effects it has had so far. *)
Record State (M S : Type) : Type := mkState {
  wt : WebTTY M S;
  trace : list Event
}.

Arguments mkState {M S}.
Arguments wt {M S}.
Arguments trace {M S}.

Section Session.
Context {M S : Type}.

Definition set_masterConn (m : M) (w : WebTTY M S) : WebTTY M S :=
  mkWebTTY m (slave w) (windowTitle w) (permitWrite w) (columns w) (rows w)
    (reconnect w) (masterPrefs w) (bufferSize w) (auditBuffer w) (auditUser w)
    (waitForAutocomplete w).

Definition set_slave (s : S) (w : WebTTY M S) : WebTTY M S :=
  mkWebTTY (masterConn w) s (windowTitle w) (permitWrite w) (columns w) (rows w)
    (reconnect w) (masterPrefs w) (bufferSize w) (auditBuffer w) (auditUser w)
    (waitForAutocomplete w).

Definition set_auditBuffer (b : list byte) (w : WebTTY M S) : WebTTY M S :=
  mkWebTTY (masterConn w) (slave w) (windowTitle w) (permitWrite w) (columns w)
    (rows w) (reconnect w) (masterPrefs w) (bufferSize w) b (auditUser w)
    (waitForAutocomplete w).

Definition set_waitForAutocomplete (f : bool) (w : WebTTY M S) : WebTTY M S :=
  mkWebTTY (masterConn w) (slave w) (windowTitle w) (permitWrite w) (columns w)
    (rows w) (reconnect w) (masterPrefs w) (bufferSize w) (auditBuffer w)
    (auditUser w) f.

Definition update (f : WebTTY M S -> WebTTY M S) (st : State M S) : State M S :=
  mkState (f (wt st)) (trace st).

Definition emit (e : Event) (st : State M S) : State M S :=
  mkState (wt st) (trace st ++ [e]).

Definition log_Debug (a : list Value) : State M S -> State M S :=
  emit (Log (mkEntry DebugLevel [] a)).

Definition log_WithFields_Debug (f : list (string * Value)) (a : list Value)
  : State M S -> State M S :=
  emit (Log (mkEntry DebugLevel f a)).

Definition log_WithFields_Info (f : list (string * Value)) (a : list Value)
  : State M S -> State M S :=
  emit (Log (mkEntry InfoLevel f a)).

End Session.

(** * The control-character table and the debug rendering *)

Definition asciiControlChars : gmap Z string :=
  list_to_map
    [(0, "NUL"); (1, "SOH"); (2, "STX"); (3, "ETX"); (4, "EOT"); (5, "ENQ");
     (6, "ACK"); (7, "BEL"); (8, "BS"); (9, "HT"); (10, "LF"); (11, "VT");
     (12, "FF"); (13, "CR"); (14, "SO"); (15, "SI"); (16, "DLE"); (17, "DC1");
     (18, "DC2"); (19, "DC3"); (20, "DC4"); (21, "NAK"); (22, "SYN"); (23, "ETB");
     (24, "CAN"); (25, "EM"); (26, "SUB"); (27, "ESC"); (28, "FS"); (29, "GS");
     (30, "RS"); (31, "US"); (127, "DEL")]%string.

(** [asciiControlChars[int(a)]]: an absent key reads as the empty string. *)
Definition control_name (a : byte) : string :=
  default ""%string (asciiControlChars !! Z_of_byte a).

Definition asciiToString (msg : list byte) : string :=
  fold_left
    (fun s a =>
       let as_ := control_name a in
       if negb (String.eqb as_ "")
       then (s ++ "*" ++ as_ ++ "*")%string
       else (s ++ string_of_rune a)%string)
    msg ""%string.

(** * The audit of keystrokes and output *)

(** The prompt removed from an audit record. *)
Definition prompt : string := "sh-4.3#".

Definition filterASCII (action : string) (msg : list byte) : bool :=
  if (1 <? len msg) && at_is msg 0 13 && at_is msg 1 10
     && at_is msg (len msg - 1) 32 && at_is msg (len msg - 2) 35
  then false
  else if (1 <? len msg) && at_is msg 0 115 && at_is msg 1 104
          && at_is msg (len msg - 1) 32 && at_is msg (len msg - 2) 35
  then false
  else if (len msg =? 2) && at_is msg 0 13 && at_is msg 1 10
  then false
  else if String.eqb action "send" && (len msg =? 1) && at_is msg 0 13
  then false
  else true.

(** How one turn of a [for] body ends: [continue] (or its end), or
    [return] from the function. *)
Inductive Flow : Type := Continue | Return.

Section Audit.
Context {M S : Type}.

Definition audit_fields (st : State M S) : list (string * Value) :=
  [("time", VTime); ("user", VString (auditUser (wt st)))]%string.

(** The body of [for i, s := range msg] in the branch of the received
    keystrokes; [n] is [len(msg)]. *)
Definition recive_byte (n i : Z) (s : byte) (st : State M S) : State M S * Flow :=
  if byte_is s 9 then
    (update (set_waitForAutocomplete true) st, Continue)
  else if byte_is s 8 then
    (update (set_auditBuffer
               (take (Z.to_nat (len (auditBuffer (wt st)))) (auditBuffer (wt st)))) st,
     Continue)
  else if byte_is s 13 then
    if (0 <? len (auditBuffer (wt st))) && (i =? n - 1) then
      let output :=
        strings_Replace (string_of_bytes (auditBuffer (wt st))) prompt "" in
      (update (set_auditBuffer [])
         (log_WithFields_Info (audit_fields st)
            [VString "msg="; VString output] st),
       Continue)
    else if i =? 0 then
      (log_Debug [VString "---- 开头返回换行，跳过"] st, Return)
    else
      (st, Continue)
  else
    (update (set_auditBuffer (auditBuffer (wt st) ++ [s]))
       (log_Debug [VString "---- 单个ASCII返回: "; VByte s] st),
     Continue).

(** The loop over the bytes of [msg] from index [i] on. *)
Fixpoint recive_range (n i : Z) (rest : list byte) (st : State M S) : State M S :=
  match rest with
  | [] => st
  | s :: rest' =>
      match recive_byte n i s st with
      | (st', Continue) => recive_range n (i + 1) rest' st'
      | (st', Return) => st'
      end
  end.

Definition audit (action : string) (msg : list byte) (st : State M S) : State M S :=
  if negb (filterASCII action msg) then st
  else if String.eqb action "send" then
    let st :=
      if waitForAutocomplete (wt st) then
        update (set_auditBuffer (auditBuffer (wt st) ++ msg))
          (update (set_waitForAutocomplete false) st)
      else st in
    if (1 <? len msg) && negb (at_is msg 0 35) then
      log_WithFields_Debug (audit_fields st)
        [VString "ASCII返回:"; VString (asciiToString msg)] st
    else st
  else if String.eqb action "recive" then
    if 0 <? len msg then
      let st :=
        log_Debug [VTime; VString (auditUser (wt st)); VString "--- ASCII返回:";
                   VString (asciiToString msg)] st in
      recive_range (len msg) 0 msg st
    else st
  else st.

End Audit.

(** A keystroke with no meaning of its own to the audit: not TAB, not
    Backspace, not CR. *)
Definition plain (b : byte) : bool :=
  negb (byte_is b 9) && negb (byte_is b 8) && negb (byte_is b 13).

(** ** What the audit may change

    [st'] differs from [st] at most in the two audit fields of the
    session and by log lines added to the trace. *)
Definition audit_only {M S : Type} (st st' : State M S) : Prop :=
  set_auditBuffer (auditBuffer (wt st))
    (set_waitForAutocomplete (waitForAutocomplete (wt st)) (wt st')) = wt st
  /\ exists entries : list Entry, trace st' = trace st ++ map Log entries.

(** The chunks that [filterASCII] keeps from the audit. *)
Inductive noise (action : string) (msg : list byte) : Prop :=
| noise_prompt_echo :
    take 2 msg = [x0d; x0a] ->
    drop (length msg - 2) msg = [x23; x20] ->
    noise action msg
| noise_partial_prompt :
    take 2 msg = [x73; x68] ->
    drop (length msg - 2) msg = [x23; x20] ->
    noise action msg
| noise_crlf :
    msg = [x0d; x0a] ->
    noise action msg
| noise_cr_send :
    action = "send"%string ->
    msg = [x0d] ->
    noise action msg.

(** The audit record for the buffer of [st]: the info entry with the
    session's user and the buffer's text without the prompt. *)
Definition audit_record {M S : Type} (st : State M S) : Entry :=
  mkEntry InfoLevel (audit_fields st)
    [VString "msg=";
     VString (strings_Replace (string_of_bytes (auditBuffer (wt st))) prompt "")].

(** * Numbers of a resize request

    [argResizeTerminal] holds two [float64]; a [float64] is a binary64
    datum of [SpecFloat]. *)

Definition float64 : Type := spec_float.

Record argResizeTerminal : Type := mkArgResizeTerminal {
  Columns : float64;
  Rows : float64
}.

(** The integer a finite float truncates to (its fraction dropped,
    towards zero). *)
Definition float64_trunc (f : float64) : option Z :=
  match f with
  | S754_zero _ => Some 0
  | S754_finite sign m e =>
      let magnitude :=
        if 0 <=? e then Z.pos m * 2 ^ e else Z.pos m / 2 ^ (- e) in
      Some (if sign then - magnitude else magnitude)
  | S754_infinity _ => None
  | S754_nan => None
  end.

Section Conversion.
(** The width of [int] (32 or 64), and the result of [int(f)] where
    the truncated value is not an [int]: Go leaves it to the
    implementation. *)
Variable intSize : Z.
Variable int_unrepresentable : float64 -> Z.

(** [int(f)] *)
Definition int_of_float64 (f : float64) : Z :=
  match float64_trunc f with
  | Some z =>
      if (- 2 ^ (intSize - 1) <=? z) && (z <? 2 ^ (intSize - 1)) then z
      else int_unrepresentable f
  | None => int_unrepresentable f
  end.

(** The size asked of the slave for one axis: the fixed value, or the
    request's number converted to [int] where none is fixed. *)
Definition effective_size (fixed : Z) (asked : float64) : Z :=
  if fixed =? 0 then int_of_float64 asked else fixed.

End Conversion.

(** * The bridge *)

(** How a pump stands after some turns of its loop: still reading, or
    returned with an error (the loop has no other exit). *)
Inductive Outcome : Type :=
| Running
| Exited (err : error).

Section Bridge.
Context {M S : Type} `{Master M} `{Slave S}.

(** The message types, declared in a file of the package that is not
    under [src/]: one byte each, fixed by the protocol.  The [switch] of
    [handleMasterReadEvent] has a case for each of [Input], [Ping] and
    [ResizeTerminal], and Go admits no two equal constants as cases: the
    three are distinct, which the properties below assume where they
    need it. *)
Variables Input Ping ResizeTerminal : byte.
Variables Output Pong : byte.

(** [ErrSlaveClosed] and [ErrMasterClosed], declared beside them. *)
Variables ErrSlaveClosed ErrMasterClosed : error.

(** [json.Unmarshal(data, &args)] for a zero [args]: an error, or the
    decoded [args]. *)
Variable json_Unmarshal : list byte -> error + argResizeTerminal.

Variable intSize : Z.
Variable int_unrepresentable : float64 -> Z.

Definition masterWrite (data : list byte) (st : State M S) : State M S * option error :=
  let '(m, err) := Master_Write (masterConn (wt st)) data in
  let st := emit (MasterWrite data) (update (set_masterConn m) st) in
  match err with
  | Some err => (st, Some (errors_Wrapf err "failed to write to master"))
  | None => (st, None)
  end.

Definition slave_Write (data : list byte) (st : State M S) : State M S * option error :=
  let '(s, err) := Slave_Write (slave (wt st)) data in
  (emit (SlaveWrite data) (update (set_slave s) st), err).

Definition slave_ResizeTerminal (columns rows : Z) (st : State M S) : State M S :=
  emit (SlaveResize columns rows)
    (update (set_slave (Slave_ResizeTerminal (slave (wt st)) columns rows)) st).

Definition handleSlaveReadEvent (data : list byte) (st : State M S)
  : State M S * option error :=
  let st := audit "send" data st in
  let safeMessage := base64.EncodeToString data in
  match masterWrite (Output :: safeMessage) st with
  | (st, Some err) => (st, Some (errors_Wrapf err "failed to send message to master"))
  | (st, None) => (st, None)
  end.

(** The [switch data[0]] of [handleMasterReadEvent], reached after the
    audit of the payload; [data] is the whole frame, [t :: payload]. *)
Definition dispatch (t : byte) (payload : list byte) (st : State M S)
  : State M S * option error :=
  let data := t :: payload in
  if Byte.eqb t Input then
    if negb (permitWrite (wt st)) then (st, None)
    else if len data <=? 1 then (st, None)
    else
      match slave_Write payload st with
      | (st, Some err) =>
          (st, Some (errors_Wrapf err "failed to write received data to slave"))
      | (st, None) => (st, None)
      end
  else if Byte.eqb t Ping then
    match masterWrite [Pong] st with
    | (st, Some err) =>
        (st, Some (errors_Wrapf err "failed to return Pong message to master"))
    | (st, None) => (st, None)
    end
  else if Byte.eqb t ResizeTerminal then
    if negb (columns (wt st) =? 0) && negb (rows (wt st) =? 0) then (st, None)
    else if len data <=? 1 then
      (st, Some (errors_New
                   "received malformed remote command for terminal resize: empty payload"))
    else
      match json_Unmarshal payload with
      | inl err =>
          (st, Some (errors_Wrapf err "received malformed data for terminal resize"))
      | inr args =>
          let rows_ := rows (wt st) in
          let rows_ := if rows_ =? 0 then int_of_float64 intSize int_unrepresentable (Rows args) else rows_ in
          let columns_ := columns (wt st) in
          let columns_ := if columns_ =? 0 then int_of_float64 intSize int_unrepresentable (Columns args) else columns_ in
          (slave_ResizeTerminal columns_ rows_ st, None)
      end
  else
    (st, Some (errors_Errorf "unknown message type `%c`" t)).

Definition handleMasterReadEvent (data : list byte) (st : State M S)
  : State M S * option error :=
  match data with
  | [] => (st, Some (errors_New "unexpected zero length read from master"))
  | t :: payload => dispatch t payload (audit "recive" payload st)
  end.

(** The two loops that [Run] starts, [fuel] turns of each. *)
Fixpoint slave_pump (fuel : nat) (st : State M S) : State M S * Outcome :=
  match fuel with
  | O => (st, Running)
  | Datatypes.S fuel =>
      let '(s, (data, err)) := Slave_Read (slave (wt st)) (bufferSize (wt st)) in
      let st := update (set_slave s) st in
      match err with
      | Some _ => (st, Exited ErrSlaveClosed)
      | None =>
          match handleSlaveReadEvent data st with
          | (st, Some err) => (st, Exited err)
          | (st, None) => slave_pump fuel st
          end
      end
  end.

Fixpoint master_pump (fuel : nat) (st : State M S) : State M S * Outcome :=
  match fuel with
  | O => (st, Running)
  | Datatypes.S fuel =>
      let '(m, (data, err)) := Master_Read (masterConn (wt st)) (bufferSize (wt st)) in
      let st := update (set_masterConn m) st in
      match err with
      | Some _ => (st, Exited ErrMasterClosed)
      | None =>
          match handleMasterReadEvent data st with
          | (st, Some err) => (st, Exited err)
          | (st, None) => master_pump fuel st
          end
      end
  end.

End Bridge.

(** ** Turns of the pumps

    One turn of a loop that reads, handles and goes on: the state
    after it, if the read and the handler both succeed. *)
Section Turns.
Context {M S : Type} `{Master M} `{Slave S}.
Variables Input Ping ResizeTerminal : byte.
Variables Output Pong : byte.
Variable json_Unmarshal : list byte -> error + argResizeTerminal.
Variable intSize : Z.
Variable int_unrepresentable : float64 -> Z.

Definition slave_turn (st : State M S) : option (State M S) :=
  let '(s, (data, err)) := Slave_Read (slave (wt st)) (bufferSize (wt st)) in
  match err with
  | Some _ => None
  | None =>
      match handleSlaveReadEvent Output data (update (set_slave s) st) with
      | (st', None) => Some st'
      | (_, Some _) => None
      end
  end.

Definition master_turn (st : State M S) : option (State M S) :=
  let '(m, (data, err)) := Master_Read (masterConn (wt st)) (bufferSize (wt st)) in
  match err with
  | Some _ => None
  | None =>
      match handleMasterReadEvent Input Ping ResizeTerminal Pong json_Unmarshal
              intSize int_unrepresentable data (update (set_masterConn m) st) with
      | (st', None) => Some st'
      | (_, Some _) => None
      end
  end.

(** [k] turns in a row. *)
Fixpoint turns (turn : State M S -> option (State M S)) (k : nat) (st : State M S)
  : option (State M S) :=
  match k with
  | O => Some st
  | Datatypes.S k =>
      match turn st with
      | Some st' => turns turn k st'
      | None => None
      end
  end.

End Turns.

(** * A concrete session, for running the model

    Endpoints that play a script, the values gotty gives to the message
    types and to the two errors, the conversion of a 64-bit platform,
    and a decoder of the resize request as the browser client writes
    it. *)

Module Scripted.

(** The results of the reads to come and of the writes to come.  A
    read past the script fails with [EOF]; a write past it succeeds. *)
Record Endpoint : Type := mkEndpoint {
  reads : list (list byte * option error);
  writes : list (option error)
}.

Definition EOF : error := Foreign "EOF".

Definition read (e : Endpoint) (size : Z) : Endpoint * (list byte * option error) :=
  match reads e with
  | [] => (e, ([], Some EOF))
  | r :: rest => (mkEndpoint rest (writes e), r)
  end.

Definition write (e : Endpoint) (data : list byte) : Endpoint * option error :=
  match writes e with
  | [] => (e, None)
  | r :: rest => (mkEndpoint (reads e) rest, r)
  end.

#[global] Instance master : Master Endpoint :=
  {| Master_Read := read; Master_Write := write |}.

#[global] Instance slave_ : Slave Endpoint :=
  {| Slave_Read := read; Slave_Write := write;
     Slave_ResizeTerminal := fun e _ _ => e |}.

Definition quiet : Endpoint := mkEndpoint [] [].

Definition Input : byte := "1".
Definition Ping : byte := "2".
Definition ResizeTerminal : byte := "3".
Definition Output : byte := "1".
Definition Pong : byte := "2".

Definition ErrSlaveClosed : error := errors_New "slave closed".
Definition ErrMasterClosed : error := errors_New "master closed".

Definition intSize : Z := 64.
Definition int_unrepresentable (f : float64) : Z := - 2 ^ 63.

(** The [float64] of an integer literal. *)
Definition float64_of_Z (z : Z) : float64 := binary_normalize 53 1024 z 0 false.

Definition strip_prefix (p s : list byte) : option (list byte) :=
  if decide (take (length p) s = p) then Some (drop (length p) s) else None.

(** The decimal digits at the head of [s], read as a number. *)
Fixpoint digits (s : list byte) (acc : option Z) : option Z * list byte :=
  match s with
  | [] => (acc, [])
  | c :: s' =>
      let v := Z_of_byte c in
      if (48 <=? v) && (v <=? 57)
      then digits s' (Some (default 0 acc * 10 + (v - 48)))
      else (acc, s)
  end.

Definition quote : byte := x22.

Definition key (name : string) : list byte :=
  [quote] ++ bytes_of_string name ++ [quote] ++ bytes_of_string ":".

(** Decodes [{"columns":<digits>,"rows":<digits>}] and refuses every
    other text. *)
Definition json_Unmarshal (data : list byte) : error + argResizeTerminal :=
  let refuse := inl (Foreign "json: cannot decode the resize request") in
  match strip_prefix (bytes_of_string "{" ++ key "columns") data with
  | Some s1 =>
      match digits s1 None with
      | (Some c, s2) =>
          match strip_prefix (bytes_of_string "," ++ key "rows") s2 with
          | Some s3 =>
              match digits s3 None with
              | (Some r, s4) =>
                  if decide (s4 = bytes_of_string "}")
                  then inr (mkArgResizeTerminal (float64_of_Z c) (float64_of_Z r))
                  else refuse
              | _ => refuse
              end
          | None => refuse
          end
      | _ => refuse
      end
  | None => refuse
  end.

(** A new session: [New] with the options that set the write
    permission and the fixed size. *)
Definition session (permit : bool) (fixedColumns fixedRows : Z)
    (m s : Endpoint) : State Endpoint Endpoint :=
  mkState
    (mkWebTTY m s [] permit fixedColumns fixedRows 0 None 1024 [] "root" false)
    [].

Definition resize_request (c r : string) : list byte :=
  bytes_of_string "{" ++ key "columns" ++ bytes_of_string c
  ++ bytes_of_string "," ++ key "rows" ++ bytes_of_string r ++ bytes_of_string "}".

Definition handleMaster :=
  handleMasterReadEvent (M := Endpoint) (S := Endpoint)
    Input Ping ResizeTerminal Pong json_Unmarshal intSize int_unrepresentable.

Definition handleSlave :=
  handleSlaveReadEvent (M := Endpoint) (S := Endpoint) Output.

Definition masterPump :=
  master_pump (M := Endpoint) (S := Endpoint)
    Input Ping ResizeTerminal Pong ErrMasterClosed json_Unmarshal intSize
    int_unrepresentable.

Definition slavePump :=
  slave_pump (M := Endpoint) (S := Endpoint) Output ErrSlaveClosed.

(** A session whose audit buffer already holds [buf]. *)
Definition typed (buf : string) : State Endpoint Endpoint :=
  update (set_auditBuffer (bytes_of_string buf)) (session true 0 0 quiet quiet).

End Scripted.

(** * The rest of the package: the handshake, the constructor, and the
    vocabulary of their properties *)

From Stdlib Require DecimalString DecimalZ DecimalPos.

(** [json.Marshal] of an [int]: its decimal digits, after a sign when
    it is negative. *)
Definition json_Marshal_int (z : Z) : list byte :=
  bytes_of_string (DecimalString.NilZero.string_of_int (Z.to_int z)).

(** The number that decimal digits denote. *)
Definition decimal_value (b : list byte) : option Z :=
  option_map Z.of_int (DecimalString.NilZero.int_of_string (string_of_bytes b)).

Section Handshake.
Context {M S : Type} `{Master M}.

(** The types of the three frames of the handshake, declared with the
    other message types. *)
Variables SetWindowTitle SetReconnect SetPreferences : byte.

Definition sendInitializeMessage (st : State M S) : State M S * option error :=
  match masterWrite (SetWindowTitle :: windowTitle (wt st)) st with
  | (st, Some err) => (st, Some (errors_Wrapf err "failed to send window title"))
  | (st, None) =>
      let after_reconnect :=
        if 0 <? reconnect (wt st) then
          let reconnect_ := json_Marshal_int (reconnect (wt st)) in
          match masterWrite (SetReconnect :: reconnect_) st with
          | (st, Some err) => (st, Some (errors_Wrapf err "failed to set reconnect"))
          | (st, None) => (st, None)
          end
        else (st, None) in
      match after_reconnect with
      | (st, Some err) => (st, Some err)
      | (st, None) =>
          match masterPrefs (wt st) with
          | Some prefs =>
              match masterWrite (SetPreferences :: prefs) st with
              | (st, Some err) =>
                  (st, Some (errors_Wrapf err "failed to set preferences"))
              | (st, None) => (st, None)
              end
          | None => (st, None)
          end
      end
  end.

(** The frames of a complete handshake, in the order they are sent. *)
Definition handshake_frames (w : WebTTY M S) : list (list byte) :=
  [SetWindowTitle :: windowTitle w]
  ++ (if 0 <? reconnect w then [SetReconnect :: json_Marshal_int (reconnect w)] else [])
  ++ match masterPrefs w with
     | Some prefs => [SetPreferences :: prefs]
     | None => []
     end.

End Handshake.

Section Construction.
Context {M S : Type}.

(** Modelled from the spec: the type [Option], declared in a file of
    the package that is not under [src/]; the spec calls the options a
    pure functional configuration, applied in order.  An option is
    called on the session for what it does to it. *)
Definition Option : Type := WebTTY M S -> WebTTY M S.

Definition New (masterConn_ : M) (slave_ : S) (options : list Option)
  : WebTTY M S * option error :=
  let wt_ := mkWebTTY masterConn_ slave_ [] false 0 0 0 None 1024 [] "" false in
  (fold_left (fun w option_ => option_ w) options wt_, None).

(** The session's settings: every field but the two endpoints and the
    two audit fields. *)
Definition same_settings (w w' : WebTTY M S) : Prop :=
  windowTitle w' = windowTitle w /\ permitWrite w' = permitWrite w
  /\ columns w' = columns w /\ rows w' = rows w
  /\ reconnect w' = reconnect w /\ masterPrefs w' = masterPrefs w
  /\ bufferSize w' = bufferSize w /\ auditUser w' = auditUser w.

End Construction.

(** ** Vocabulary of the audit *)

(** The chunk holds a TAB. *)
Definition has_TAB (msg : list byte) : bool := existsb (fun b => byte_is b 9) msg.

(** The last byte of the chunk is CR. *)
Definition last_is_CR (msg : list byte) : bool :=
  match last msg with
  | Some b => byte_is b 13
  | None => false
  end.

(** The first byte of the chunk is CR. *)
Definition first_is_CR (msg : list byte) : bool := at_is msg 0 13.

(** The record that the audit writes for the text [text] of a command
    of the user of [st]. *)
Definition record_of {M S : Type} (st : State M S) (text : list byte) : Entry :=
  mkEntry InfoLevel (audit_fields st)
    [VString "msg="; VString (strings_Replace (string_of_bytes text) prompt "")].

(** ** Vocabulary of the rendering *)

(** A byte of the control-character table: below 32, or 127. *)
Definition is_control (b : byte) : bool :=
  (Z_of_byte b <? 32) || (Z_of_byte b =? 127).

(** A printable ASCII byte. *)
Definition is_printable (b : byte) : bool :=
  (32 <=? Z_of_byte b) && (Z_of_byte b <? 127).

(** What [asciiToString] adds for one byte. *)
Definition render (a : byte) : string :=
  if negb (String.eqb (control_name a) "")
  then ("*" ++ control_name a ++ "*")%string
  else string_of_rune a.

(** Every byte value. *)
Definition all_bytes : list byte := map (fun n => byte_of_Z (Z.of_nat n)) (seq 0 256).

(** ** The errors of the pumps *)

(** What the slave pump can return. *)
Inductive slave_pump_error (ErrSlaveClosed : error) : error -> Prop :=
| is_slave_closed : slave_pump_error ErrSlaveClosed ErrSlaveClosed
| is_output_not_sent (cause : error) :
    slave_pump_error ErrSlaveClosed
      (errors_Wrapf (errors_Wrapf cause "failed to write to master")
         "failed to send message to master").

(** What the handler of a master frame, and so the master pump, can
    return. *)
Inductive master_frame_error : error -> Prop :=
| is_zero_length :
    master_frame_error (errors_New "unexpected zero length read from master")
| is_input_not_written (cause : error) :
    master_frame_error (errors_Wrapf cause "failed to write received data to slave")
| is_pong_not_sent (cause : error) :
    master_frame_error
      (errors_Wrapf (errors_Wrapf cause "failed to write to master")
         "failed to return Pong message to master")
| is_resize_empty :
    master_frame_error
      (errors_New "received malformed remote command for terminal resize: empty payload")
| is_resize_malformed (cause : error) :
    master_frame_error (errors_Wrapf cause "received malformed data for terminal resize")
| is_unknown_type (t : byte) :
    master_frame_error (errors_Errorf "unknown message type `%c`" t).

Inductive master_pump_error (ErrMasterClosed : error) : error -> Prop :=
| is_master_closed : master_pump_error ErrMasterClosed ErrMasterClosed
| is_frame_refused (err : error) :
    master_frame_error err -> master_pump_error ErrMasterClosed err.

(** ** What the slave hands out *)


(** ** More of the concrete session *)

Module Greeting.
Import Scripted.

Definition SetWindowTitle : byte := "3".
Definition SetPreferences : byte := "4".
Definition SetReconnect : byte := "5".

(** A session with a window title, a reconnect interval and, or not,
    preferences. *)
Definition titled (title : string) (interval : Z) (prefs : option string)
    (m : Endpoint) : State Endpoint Endpoint :=
  mkState
    (mkWebTTY m quiet (bytes_of_string title) false 0 0 interval
       (option_map bytes_of_string prefs) 1024 [] "root" false)
    [].

Definition greet :=
  sendInitializeMessage (M := Endpoint) (S := Endpoint)
    SetWindowTitle SetReconnect SetPreferences.

End Greeting.

(** * Facts about bytes *)

Lemma Z_of_byte_range (b : byte) : 0 <= Z_of_byte b < 256.
Proof.
  unfold Z_of_byte. pose proof (Byte.to_N_bounded b) as H. lia.
Qed.

Lemma byte_of_Z_of_byte (b : byte) : byte_of_Z (Z_of_byte b) = b.
Proof.
  unfold byte_of_Z. pose proof (Z_of_byte_range b) as H.
  rewrite Z.mod_small by exact H. unfold Z_of_byte.
  rewrite N2Z.id, Byte.of_to_N. reflexivity.
Qed.

Lemma Z_of_byte_of_Z (z : Z) : 0 <= z < 256 -> Z_of_byte (byte_of_Z z) = z.
Proof.
  intros H. unfold byte_of_Z, Z_of_byte. rewrite Z.mod_small by exact H.
  destruct (Byte.of_N (Z.to_N z)) as [b|] eqn:E.
  - apply Byte.to_of_N in E. rewrite E. lia.
  - pose proof (Byte.to_of_N_option_map (Z.to_N z)) as Hm.
    rewrite E in Hm. simpl in Hm.
    destruct (N.leb_spec (Z.to_N z) 255); [discriminate | lia].
Qed.

Lemma byte_of_Z_eq (z : Z) (b : byte) : z mod 256 = Z_of_byte b -> byte_of_Z z = b.
Proof.
  intros H. rewrite <- (byte_of_Z_of_byte b), <- H.
  unfold byte_of_Z. rewrite Z.mod_mod by lia. reflexivity.
Qed.

Lemma byte_is_iff (b : byte) (n : Z) : byte_is b n = true <-> Z_of_byte b = n.
Proof. unfold byte_is. apply Z.eqb_eq. Qed.

Lemma byte_is_of_Z (n : Z) : 0 <= n < 256 -> byte_is (byte_of_Z n) n = true.
Proof. intros H. apply byte_is_iff, Z_of_byte_of_Z, H. Qed.

(** RFC 4648 test vectors. *)
Example base64_foobar :
  base64.EncodeToString (list_byte_of_string "foobar") = list_byte_of_string "Zm9vYmFy".
Proof. reflexivity. Qed.

Example base64_fo :
  base64.EncodeToString (list_byte_of_string "fo") = list_byte_of_string "Zm8=".
Proof. reflexivity. Qed.

Example base64_f :
  base64.EncodeToString (list_byte_of_string "f") = list_byte_of_string "Zg==".
Proof. reflexivity. Qed.

Example base64_decode_fooba :
  base64.DecodeString (list_byte_of_string "Zm9vYmE=") = Some (list_byte_of_string "fooba").
Proof. reflexivity. Qed.

(** ** Decoding undoes encoding *)

Section Base64Facts.
Import base64.

(** Bitwise or of two values with no common bit is their sum. *)
Lemma lor_disjoint_add (x y k : Z) :
  0 <= k -> 0 <= y < 2 ^ k -> x mod 2 ^ k = 0 -> Z.lor x y = x + y.
Proof.
  intros Hk Hy Hx.
  assert (Hland : Z.land x y = 0).
  { apply Z.bits_inj'. intros n Hn.
    rewrite Z.land_spec, Z.bits_0.
    destruct (Z.lt_ge_cases n k) as [Hlt | Hge].
    - assert (Hq : x = x / 2 ^ k * 2 ^ k).
      { pose proof (Z.div_mod x (2 ^ k)) as D. rewrite Hx in D. lia. }
      rewrite Hq, Z.mul_pow2_bits_low by lia. reflexivity.
    - rewrite <- (Z.mod_small y (2 ^ k)) by lia.
      rewrite Z.mod_pow2_bits_high by lia. apply andb_false_r. }
  pose proof (Z.add_lor_land x y) as H. rewrite Hland in H. lia.
Qed.

Ltac shifts_to_arith :=
  rewrite ?Z.shiftl_mul_pow2, ?Z.shiftr_div_pow2 by lia;
  change (2 ^ 18) with 262144; change (2 ^ 16) with 65536;
  change (2 ^ 12) with 4096; change (2 ^ 8) with 256;
  change (2 ^ 6) with 64; change (2 ^ 0) with 1.

Ltac euclid := Z.to_euclidean_division_equations; lia.

Lemma pack3_arith (a b c : byte) :
  pack3 a b c = Z_of_byte a * 65536 + Z_of_byte b * 256 + Z_of_byte c.
Proof.
  pose proof (Z_of_byte_range a). pose proof (Z_of_byte_range b).
  pose proof (Z_of_byte_range c).
  unfold pack3. shifts_to_arith.
  rewrite (lor_disjoint_add (Z_of_byte a * 65536) _ 16) by (try change (2 ^ 16) with 65536; euclid).
  rewrite (lor_disjoint_add _ (Z_of_byte c) 8) by (try change (2 ^ 8) with 256; euclid).
  reflexivity.
Qed.

Lemma sextet_arith (val shift : Z) :
  0 <= shift -> sextet val shift = val / 2 ^ shift mod 64.
Proof.
  intros H. unfold sextet. rewrite Z.shiftr_div_pow2 by exact H.
  change 63 with (Z.ones 6). rewrite Z.land_ones by lia. reflexivity.
Qed.

Lemma sextet_range (val shift : Z) : 0 <= shift -> 0 <= sextet val shift < 64.
Proof. intros H. rewrite sextet_arith by exact H. apply Z.mod_pos_bound. lia. Qed.

(** The alphabet has 64 distinct characters, none of them the padding. *)
Lemma alphabet_ok_all : forallb alphabet_ok (seq 0 64) = true.
Proof. vm_compute. reflexivity. Qed.

Lemma alphabet_at (v : Z) :
  0 <= v < 64 ->
  decode_at (encode_at v) = Some v /\ Byte.eqb (encode_at v) StdPadding = false.
Proof.
  intros Hv. pose proof alphabet_ok_all as H.
  rewrite forallb_forall in H. specialize (H (Z.to_nat v)).
  assert (Hin : In (Z.to_nat v) (seq 0 64)) by (apply in_seq; lia).
  apply H in Hin. unfold alphabet_ok in Hin.
  rewrite Z2Nat.id in Hin by lia.
  destruct (decode_at (encode_at v)) as [w|]; [| discriminate].
  apply andb_prop in Hin as [Hw Hp]. apply Z.eqb_eq in Hw. subst w.
  split; [reflexivity |]. destruct (Byte.eqb _ _); [discriminate | reflexivity].
Qed.

Lemma decode_encode_at (v : Z) : 0 <= v < 64 -> decode_at (encode_at v) = Some v.
Proof. intros H. apply alphabet_at, H. Qed.

Lemma encode_at_not_padding (v : Z) :
  0 <= v < 64 -> Byte.eqb (encode_at v) StdPadding = false.
Proof. intros H. apply alphabet_at, H. Qed.

Lemma padding_is_padding : Byte.eqb StdPadding StdPadding = true.
Proof. reflexivity. Qed.

(** Reassembling the four sextets of a 24-bit value. *)
Lemma unpack_full (a b c : byte) :
  let val := pack3 a b c in
  let val' := Z.lor (Z.lor (Z.lor (Z.shiftl (sextet val 18) 18) (Z.shiftl (sextet val 12) 12))
                           (Z.shiftl (sextet val 6) 6)) (sextet val 0) in
  byte_of_Z (Z.shiftr val' 16) = a /\ byte_of_Z (Z.shiftr val' 8) = b /\ byte_of_Z val' = c.
Proof.
  intros val val'. subst val'.
  pose proof (Z_of_byte_range a) as Ha. pose proof (Z_of_byte_range b) as Hb.
  pose proof (Z_of_byte_range c) as Hc.
  assert (Hval : val = Z_of_byte a * 65536 + Z_of_byte b * 256 + Z_of_byte c)
    by apply pack3_arith.
  rewrite !sextet_arith by lia. shifts_to_arith.
  rewrite (lor_disjoint_add _ (val / 4096 mod 64 * 4096) 18)
    by (try change (2 ^ 18) with 262144; euclid).
  rewrite (lor_disjoint_add _ (val / 64 mod 64 * 64) 12)
    by (try change (2 ^ 12) with 4096; euclid).
  rewrite (lor_disjoint_add _ (val / 1 mod 64) 6)
    by (try change (2 ^ 6) with 64; euclid).
  set (val' := _ + _ + _ + _).
  assert (Hv' : val' = val) by (subst val'; euclid).
  rewrite Hv', Hval.
  repeat split; apply byte_of_Z_eq; euclid.
Qed.

Lemma unpack_two (a b : byte) :
  let val := Z.lor (Z.shiftl (Z_of_byte a) 16) (Z.shiftl (Z_of_byte b) 8) in
  let val' := Z.lor (Z.lor (Z.shiftl (sextet val 18) 18) (Z.shiftl (sextet val 12) 12))
                    (Z.shiftl (sextet val 6) 6) in
  byte_of_Z (Z.shiftr val' 16) = a /\ byte_of_Z (Z.shiftr val' 8) = b.
Proof.
  intros val val'. subst val'.
  pose proof (Z_of_byte_range a) as Ha. pose proof (Z_of_byte_range b) as Hb.
  assert (Hval : val = Z_of_byte a * 65536 + Z_of_byte b * 256).
  { subst val. shifts_to_arith.
    rewrite (lor_disjoint_add _ _ 16) by (try change (2 ^ 16) with 65536; euclid).
    reflexivity. }
  rewrite !sextet_arith by lia. shifts_to_arith.
  rewrite (lor_disjoint_add _ (val / 4096 mod 64 * 4096) 18)
    by (try change (2 ^ 18) with 262144; euclid).
  rewrite (lor_disjoint_add _ (val / 64 mod 64 * 64) 12)
    by (try change (2 ^ 12) with 4096; euclid).
  rewrite Hval. split; apply byte_of_Z_eq; euclid.
Qed.

Lemma unpack_one (a : byte) :
  let val := Z.shiftl (Z_of_byte a) 16 in
  let val' := Z.lor (Z.shiftl (sextet val 18) 18) (Z.shiftl (sextet val 12) 12) in
  byte_of_Z (Z.shiftr val' 16) = a.
Proof.
  intros val val'. subst val'.
  pose proof (Z_of_byte_range a) as Ha.
  assert (Hval : val = Z_of_byte a * 65536) by (subst val; shifts_to_arith; reflexivity).
  rewrite !sextet_arith by lia. shifts_to_arith.
  rewrite (lor_disjoint_add _ (val / 4096 mod 64 * 4096) 18)
    by (try change (2 ^ 18) with 262144; euclid).
  rewrite Hval. apply byte_of_Z_eq; euclid.
Qed.

Lemma DecodeString_group (c1 c2 c3 c4 : byte) (rest : list byte) (v1 v2 v3 v4 : Z) :
  decode_at c1 = Some v1 -> decode_at c2 = Some v2 ->
  decode_at c3 = Some v3 -> decode_at c4 = Some v4 ->
  Byte.eqb c3 StdPadding = false -> Byte.eqb c4 StdPadding = false ->
  DecodeString (c1 :: c2 :: c3 :: c4 :: rest) =
  match DecodeString rest with
  | Some out =>
      let val := Z.lor (Z.lor (Z.lor (Z.shiftl v1 18) (Z.shiftl v2 12))
                              (Z.shiftl v3 6)) v4 in
      Some (byte_of_Z (Z.shiftr val 16) :: byte_of_Z (Z.shiftr val 8)
            :: byte_of_Z val :: out)
  | None => None
  end.
Proof.
  intros H1 H2 H3 H4 P3 P4. cbn [DecodeString].
  rewrite H1, H2, H3, H4, P3, P4. reflexivity.
Qed.

(** [DecodeString] is a left inverse of [EncodeToString]: the text
    produced for [src] is valid base64 and denotes [src]. *)
Lemma DecodeString_EncodeToString_upto (n : nat) :
  forall src : list byte, (length src <= n)%nat ->
  DecodeString (EncodeToString src) = Some src.
Proof.
  induction n as [| n IH]; intros src Hlen.
  - destruct src; [reflexivity | simpl in Hlen; lia].
  - destruct src as [| a [| b [| c rest]]].
    + reflexivity.
    + cbn [EncodeToString DecodeString].
      rewrite !decode_encode_at by (apply sextet_range; lia).
      rewrite padding_is_padding. rewrite (unpack_one a). reflexivity.
    + cbn [EncodeToString DecodeString].
      rewrite !decode_encode_at by (apply sextet_range; lia).
      rewrite encode_at_not_padding by (apply sextet_range; lia).
      rewrite padding_is_padding.
      destruct (unpack_two a b) as [-> ->]. reflexivity.
    + cbn [EncodeToString].
      rewrite (DecodeString_group _ _ _ _ _ (sextet (pack3 a b c) 18)
                 (sextet (pack3 a b c) 12) (sextet (pack3 a b c) 6)
                 (sextet (pack3 a b c) 0))
        by (first [apply decode_encode_at | apply encode_at_not_padding];
            apply sextet_range; lia).
      rewrite IH by (simpl in Hlen; lia). cbv zeta.
      destruct (unpack_full a b c) as (-> & -> & ->). reflexivity.
Qed.

Theorem DecodeString_EncodeToString (src : list byte) :
  DecodeString (EncodeToString src) = Some src.
Proof. apply (DecodeString_EncodeToString_upto (length src)). lia. Qed.


Lemma EncodeToString_chars_upto (n : nat) :
  forall src : list byte, (length src <= n)%nat ->
  Forall base64_char (EncodeToString src).
Proof.
  assert (Hs : forall val sh, 0 <= sh -> base64_char (encode_at (sextet val sh))).
  { intros val sh Hsh. right. exists (sextet val sh). split; [apply sextet_range, Hsh | reflexivity]. }
  assert (Hp : base64_char StdPadding) by (left; reflexivity).
  induction n as [| n IH]; intros src Hlen.
  - destruct src; [constructor | simpl in Hlen; lia].
  - destruct src as [| a [| b [| c rest]]]; cbn [EncodeToString];
      repeat (constructor; [first [apply Hp | apply Hs; lia] |]);
      try solve [constructor].
    apply IH. simpl in Hlen. lia.
Qed.

Lemma EncodeToString_chars (src : list byte) :
  Forall base64_char (EncodeToString src).
Proof. apply (EncodeToString_chars_upto (length src)). lia. Qed.

End Base64Facts.

Example asciiToString_ls_cr :
  asciiToString (bytes_of_string "ls" ++ [x0d]) = "ls*CR*"%string.
Proof. vm_compute. reflexivity. Qed.

Example strings_Replace_prompt :
  strings_Replace "sh-4.3# ls sh-4.3#-l" prompt "" = " ls -l"%string.
Proof. reflexivity. Qed.

Example strings_Replace_leftmost :
  strings_Replace "sh-4sh-4.3#.3#" prompt "" = "sh-4.3#"%string.
Proof. reflexivity. Qed.


(** * Facts about the audit *)

Section AuditFacts.
Context {M S : Type}.
Implicit Types st : State M S.

Lemma audit_only_refl st : audit_only st st.
Proof.
  split; [destruct st as [[] ?]; reflexivity |].
  exists []. simpl. rewrite app_nil_r. reflexivity.
Qed.

Lemma audit_only_trans st1 st2 st3 :
  audit_only st1 st2 -> audit_only st2 st3 -> audit_only st1 st3.
Proof.
  intros [H12 [l12 T12]] [H23 [l23 T23]]. split.
  - rewrite <- H12 at 3. rewrite <- H23.
    destruct st1 as [[] ?], st2 as [[] ?], st3 as [[] ?]. reflexivity.
  - exists (l12 ++ l23). rewrite T23, T12, map_app, app_assoc. reflexivity.
Qed.

Lemma audit_only_buffer st b : audit_only st (update (set_auditBuffer b) st).
Proof.
  split; [destruct st as [[] ?]; reflexivity |].
  exists []. simpl. rewrite app_nil_r. reflexivity.
Qed.

Lemma audit_only_wait st f : audit_only st (update (set_waitForAutocomplete f) st).
Proof.
  split; [destruct st as [[] ?]; reflexivity |].
  exists []. simpl. rewrite app_nil_r. reflexivity.
Qed.

Lemma audit_only_log st e : audit_only st (emit (Log e) st).
Proof.
  split; [destruct st as [[] ?]; reflexivity |].
  exists [e]. reflexivity.
Qed.

Lemma recive_byte_audit_only n i s st :
  audit_only st (fst (recive_byte n i s st)).
Proof.
  unfold recive_byte, log_Debug, log_WithFields_Info.
  repeat (match goal with |- context [if ?c then _ else _] => destruct c end);
    simpl;
    first [ apply audit_only_refl | apply audit_only_wait | apply audit_only_buffer
          | apply audit_only_log
          | eapply audit_only_trans; [apply audit_only_log | apply audit_only_buffer] ].
Qed.

Lemma recive_range_audit_only n rest :
  forall i st, audit_only st (recive_range n i rest st).
Proof.
  induction rest as [| s rest IH]; intros i st; simpl.
  - apply audit_only_refl.
  - pose proof (recive_byte_audit_only n i s st) as Hs.
    destruct (recive_byte n i s st) as [st' []]; simpl in Hs.
    + eapply audit_only_trans; [exact Hs | apply IH].
    + exact Hs.
Qed.

Lemma audit_audit_only action msg st : audit_only st (audit action msg st).
Proof.
  unfold audit, log_Debug, log_WithFields_Debug.
  destruct (filterASCII action msg); simpl; [| apply audit_only_refl].
  destruct (String.eqb action "send").
  - set (st1 := if waitForAutocomplete (wt st) then _ else st).
    assert (H1 : audit_only st st1).
    { subst st1. destruct (waitForAutocomplete (wt st)); [| apply audit_only_refl].
      eapply audit_only_trans; [apply audit_only_wait | apply audit_only_buffer]. }
    destruct (_ && _); [| exact H1].
    eapply audit_only_trans; [exact H1 | apply audit_only_log].
  - destruct (String.eqb action "recive"); [| apply audit_only_refl].
    destruct (0 <? len msg); [| apply audit_only_refl].
    eapply audit_only_trans; [apply audit_only_log | apply recive_range_audit_only].
Qed.

(** What [audit_only] keeps. *)
Lemma audit_only_session st st' :
  audit_only st st' ->
  masterConn (wt st') = masterConn (wt st) /\ slave (wt st') = slave (wt st)
  /\ permitWrite (wt st') = permitWrite (wt st)
  /\ columns (wt st') = columns (wt st) /\ rows (wt st') = rows (wt st)
  /\ bufferSize (wt st') = bufferSize (wt st)
  /\ auditUser (wt st') = auditUser (wt st).
Proof.
  intros [H _]. rewrite <- H. destruct st' as [[] ?]. simpl. repeat split.
Qed.

Lemma omap_Log_nil {A : Type} (f : Event -> option A) (entries : list Entry) :
  (forall e, f (Log e) = None) -> omap f (map Log entries) = [].
Proof.
  intros Hf. induction entries as [| e l IH]; simpl; [reflexivity |].
  rewrite Hf. exact IH.
Qed.

Lemma audit_only_calls st st' :
  audit_only st st' ->
  master_writes (trace st') = master_writes (trace st)
  /\ slave_writes (trace st') = slave_writes (trace st)
  /\ resizes (trace st') = resizes (trace st).
Proof.
  intros [_ [l T]]. unfold master_writes, slave_writes, resizes.
  rewrite T, !omap_app, !omap_Log_nil, !app_nil_r by reflexivity.
  repeat split.
Qed.

End AuditFacts.

(** * The noise filter *)

Lemma at_is_lookup (msg : list byte) (i n : Z) (b : byte) :
  msg !! Z.to_nat i = Some b -> at_is msg i n = byte_is b n.
Proof. intros H. unfold at_is. rewrite H. reflexivity. Qed.

Lemma at_is_true (msg : list byte) (i n : Z) :
  at_is msg i n = true ->
  exists b, msg !! Z.to_nat i = Some b /\ Z_of_byte b = n.
Proof.
  unfold at_is. destruct (msg !! Z.to_nat i) as [b |]; [| discriminate].
  intros H. exists b. split; [reflexivity | apply byte_is_iff, H].
Qed.

Lemma byte_of_value (b : byte) (n : Z) : Z_of_byte b = n -> b = byte_of_Z n.
Proof. intros <-. symmetry. apply byte_of_Z_of_byte. Qed.

(** The last two bytes of a chunk, by index. *)
Lemma last_two_lookup (msg : list byte) (c d : byte) :
  drop (length msg - 2) msg = [c; d] ->
  (2 <= length msg)%nat
  /\ msg !! Z.to_nat (len msg - 2) = Some c
  /\ msg !! Z.to_nat (len msg - 1) = Some d.
Proof.
  intros H.
  assert (Hlen : (2 <= length msg)%nat).
  { apply (f_equal length) in H. rewrite length_drop in H. simpl in H. lia. }
  split; [exact Hlen |].
  unfold len.
  replace (Z.to_nat (Z.of_nat (length msg) - 2)) with (length msg - 2 + 0)%nat by lia.
  replace (Z.to_nat (Z.of_nat (length msg) - 1)) with (length msg - 2 + 1)%nat by lia.
  rewrite <- !lookup_drop, H. split; reflexivity.
Qed.

Lemma last_two_drop (msg : list byte) (c d : byte) :
  (2 <= length msg)%nat ->
  msg !! Z.to_nat (len msg - 2) = Some c ->
  msg !! Z.to_nat (len msg - 1) = Some d ->
  drop (length msg - 2) msg = [c; d].
Proof.
  intros Hlen Hc Hd. unfold len in Hc, Hd.
  replace (Z.to_nat (Z.of_nat (length msg) - 2)) with (length msg - 2 + 0)%nat in Hc by lia.
  replace (Z.to_nat (Z.of_nat (length msg) - 1)) with (length msg - 2 + 1)%nat in Hd by lia.
  rewrite <- lookup_drop in Hc, Hd.
  assert (Hl : length (drop (length msg - 2) msg) = 2%nat) by (rewrite length_drop; lia).
  destruct (drop (length msg - 2) msg) as [| x [| y [| z l]]]; try discriminate.
  simpl in Hc, Hd. congruence.
Qed.

Lemma first_two_lookup (msg : list byte) (a b : byte) :
  take 2 msg = [a; b] <-> msg !! Z.to_nat 0 = Some a /\ msg !! Z.to_nat 1 = Some b.
Proof.
  destruct msg as [| x [| y l]]; simpl; split;
    try (intros [? ?]; discriminate); try discriminate.
  - intros H. inversion H. split; reflexivity.
  - intros [Hx Hy]. inversion Hx. inversion Hy. reflexivity.
Qed.

Lemma len_gt_1 (msg : list byte) : (1 <? len msg) = true <-> (2 <= length msg)%nat.
Proof. unfold len. rewrite Z.ltb_lt. lia. Qed.

(** [filterASCII] refuses exactly the noise. *)
Lemma filterASCII_false_iff (action : string) (msg : list byte) :
  filterASCII action msg = false <-> noise action msg.
Proof.
  split.
  - unfold filterASCII. intros H.
    repeat match type of H with
    | (if ?c then _ else _) = _ => destruct c eqn:?
    end; try discriminate.
    + repeat match goal with
      | E : _ && _ = true |- _ => apply andb_prop in E as [? ?]
      end.
      repeat match goal with
      | E : at_is _ _ _ = true |- _ =>
          apply at_is_true in E as (? & ? & ->%byte_of_value)
      end.
      apply noise_prompt_echo.
      * apply first_two_lookup. split; assumption.
      * apply last_two_drop; [apply len_gt_1 |..]; assumption.
    + repeat match goal with
      | E : _ && _ = true |- _ => apply andb_prop in E as [? ?]
      end.
      repeat match goal with
      | E : at_is _ _ _ = true |- _ =>
          apply at_is_true in E as (? & ? & ->%byte_of_value)
      end.
      apply noise_partial_prompt.
      * apply first_two_lookup. split; assumption.
      * apply last_two_drop; [apply len_gt_1 |..]; assumption.
    + repeat match goal with
      | E : _ && _ = true |- _ => apply andb_prop in E as [? ?]
      end.
      repeat match goal with
      | E : at_is _ _ _ = true |- _ =>
          apply at_is_true in E as (? & ? & ->%byte_of_value)
      end.
      apply noise_crlf.
      match goal with E : (len msg =? 2) = true |- _ => apply Z.eqb_eq in E; unfold len in E end.
      destruct msg as [| x [| y [| z l]]]; try (simpl in *; lia).
      repeat match goal with
      | E : _ !! _ = Some _ |- _ => vm_compute in E; injection E as ->
      end.
      reflexivity.
    + repeat match goal with
      | E : _ && _ = true |- _ => apply andb_prop in E as [? ?]
      end.
      repeat match goal with
      | E : at_is _ _ _ = true |- _ =>
          apply at_is_true in E as (? & ? & ->%byte_of_value)
      end.
      apply noise_cr_send.
      * apply String.eqb_eq. assumption.
      * match goal with E : (len msg =? 1) = true |- _ => apply Z.eqb_eq in E; unfold len in E end.
        destruct msg as [| x [| y l]]; try (simpl in *; lia).
        repeat match goal with
        | E : _ !! _ = Some _ |- _ => vm_compute in E; injection E as ->
        end.
        reflexivity.
  - intros [H2 Hl | H2 Hl | -> | -> ->]; try reflexivity.
    + apply last_two_lookup in Hl as (Hlen & Hc & Hd).
      apply first_two_lookup in H2 as [Ha Hb].
      unfold filterASCII.
      rewrite (proj2 (len_gt_1 msg) Hlen).
      repeat erewrite at_is_lookup by eassumption.
      reflexivity.
    + apply last_two_lookup in Hl as (Hlen & Hc & Hd).
      apply first_two_lookup in H2 as [Ha Hb].
      unfold filterASCII.
      rewrite (proj2 (len_gt_1 msg) Hlen).
      repeat erewrite at_is_lookup by eassumption.
      reflexivity.
Qed.

Section NoiseFilter.
Context {M S : Type}.

(** C6: for every direction, a chunk that matches one of the four noise
    patterns (CR LF ... # SPACE; s h ... # SPACE; exactly CR LF; a single
    CR on the send direction) is refused by [filterASCII], and [audit]
    returns the state it was given: the audit buffer, the autocomplete
    flag and the trace (so no audit record and no log line) are
    unchanged. *)
Theorem audit_noise_is_noop (action : string) (msg : list byte) (st : State M S) :
  noise action msg ->
  filterASCII action msg = false
  /\ audit action msg st = st
  /\ auditBuffer (wt (audit action msg st)) = auditBuffer (wt st)
  /\ waitForAutocomplete (wt (audit action msg st)) = waitForAutocomplete (wt st)
  /\ log_lines (trace (audit action msg st)) = log_lines (trace st).
Proof.
  intros Hn. apply filterASCII_false_iff in Hn.
  assert (Ha : audit action msg st = st) by (unfold audit; rewrite Hn; reflexivity).
  rewrite Ha. repeat split. exact Hn.
Qed.

End NoiseFilter.

(** * [strings.Replace] *)

Lemma replace_from_skip (old new p s : string) :
  replace_from old new (String.length p) (p ++ s) = replace_from old new 0 s.
Proof.
  induction p as [| c p IH]; simpl; [reflexivity | exact IH].
Qed.

Lemma prefix_append (p s : string) : String.prefix p (p ++ s) = true.
Proof.
  induction p as [| c p IH]; simpl; [destruct s; reflexivity |].
  destruct (ascii_dec c c); [exact IH | congruence].
Qed.

(** An occurrence at the head is replaced, and the scan goes on behind it. *)
Lemma strings_Replace_match (old new s : string) :
  old <> ""%string ->
  strings_Replace (old ++ s) old new = (new ++ strings_Replace s old new)%string.
Proof.
  intros Hne. unfold strings_Replace.
  destruct old as [| c old']; [contradiction |].
  change (String c old' ++ s)%string with (String c (old' ++ s)).
  cbn [replace_from].
  change (String c (old' ++ s)) with (String c old' ++ s)%string.
  rewrite prefix_append.
  cbn [String.length]. rewrite Nat.sub_1_r. cbn [Nat.pred].
  rewrite replace_from_skip. reflexivity.
Qed.

(** A byte at which no occurrence starts is kept. *)
Lemma strings_Replace_keep (old new : string) (c : ascii) (s : string) :
  String.prefix old (String c s) = false ->
  strings_Replace (String c s) old new = String c (strings_Replace s old new).
Proof. intros H. unfold strings_Replace. cbn [replace_from]. rewrite H. reflexivity. Qed.

(** A text without an occurrence of [old] is returned as it is. *)
Lemma strings_Replace_absent (old new s : string) :
  occurs old s = false -> strings_Replace s old new = s.
Proof.
  induction s as [| c s IH]; intros H; [reflexivity |].
  cbn [occurs] in H. apply orb_false_elim in H as [Hp Ho].
  rewrite strings_Replace_keep by exact Hp. f_equal. apply IH, Ho.
Qed.

(** * The received keystrokes *)

Section Keystrokes.
Context {M S : Type}.
Implicit Types st : State M S.

Lemma len_pos_iff {A : Type} (l : list A) : (0 <? len l) = true <-> l <> [].
Proof.
  unfold len. rewrite Z.ltb_lt. destruct l; simpl; split; intros; try lia; congruence.
Qed.

Lemma audit_records_emit_debug st (a : list Value) :
  audit_records (trace (log_Debug a st)) = audit_records (trace st).
Proof.
  unfold log_Debug, emit, audit_records. simpl.
  rewrite omap_app. simpl. apply app_nil_r.
Qed.

(** A CR that is the last byte, with a buffer that is not empty:
    the record is written and the buffer emptied. *)
Lemma recive_byte_CR_last n st :
  auditBuffer (wt st) <> [] ->
  recive_byte n (n - 1) x0d st =
  (update (set_auditBuffer []) (emit (Log (audit_record st)) st), Continue).
Proof.
  intros Hbuf. unfold recive_byte.
  change (byte_is x0d 9) with false. change (byte_is x0d 8) with false.
  change (byte_is x0d 13) with true. cbv iota.
  rewrite (proj2 (len_pos_iff _) Hbuf), Z.eqb_refl. reflexivity.
Qed.

Lemma recive_byte_CR_other n i st :
  ~ (i = n - 1 /\ auditBuffer (wt st) <> []) ->
  recive_byte n i x0d st =
  if i =? 0 then (log_Debug [VString "---- 开头返回换行，跳过"] st, Return)
  else (st, Continue).
Proof.
  intros Hnot. unfold recive_byte.
  change (byte_is x0d 9) with false. change (byte_is x0d 8) with false.
  change (byte_is x0d 13) with true. cbv iota.
  destruct (0 <? len (auditBuffer (wt st))) eqn:Hb; [| reflexivity].
  destruct (Z.eqb_spec i (n - 1)) as [Hi |]; [| reflexivity].
  exfalso. apply Hnot. split; [exact Hi | apply len_pos_iff, Hb].
Qed.

(** A chunk that starts with CR, unless it is a lone CR that meets a
    buffer with content: refused by the filter, or the loop returns at
    its first byte. *)
Lemma audit_recive_CR_first (rest : list byte) st :
  rest <> [] \/ auditBuffer (wt st) = [] ->
  audit "recive" (x0d :: rest) st = st
  \/ audit "recive" (x0d :: rest) st =
     log_Debug [VString "---- 开头返回换行，跳过"]
       (log_Debug [VTime; VString (auditUser (wt st)); VString "--- ASCII返回:";
                   VString (asciiToString (x0d :: rest))] st).
Proof.
  intros H. unfold audit.
  destruct (filterASCII "recive" (x0d :: rest)); [right | left; reflexivity].
  cbn [negb]. change (String.eqb "recive" "send") with false.
  change (String.eqb "recive" "recive") with true. cbv iota.
  assert (Hlen : (0 <? len (x0d :: rest)) = true) by (apply len_pos_iff; discriminate).
  rewrite Hlen. cbn [recive_range].
  rewrite recive_byte_CR_other; [reflexivity |].
  intros [Hl Hbuf]. simpl in Hbuf.
  destruct H as [Hrest | Hnil]; [| contradiction].
  unfold len in Hl. destruct rest; [contradiction | simpl in Hl; lia].
Qed.

End Keystrokes.

(** ** A whole line in one chunk *)

Section Line.
Context {M S : Type}.
Implicit Types st : State M S.

Lemma recive_byte_plain n i (b : byte) st :
  plain b = true ->
  recive_byte n i b st =
  (update (set_auditBuffer (auditBuffer (wt st) ++ [b]))
     (log_Debug [VString "---- 单个ASCII返回: "; VByte b] st), Continue).
Proof.
  unfold plain. rewrite !andb_true_iff, !negb_true_iff. intros [[H9 H8] H13].
  unfold recive_byte. rewrite H9, H8, H13. reflexivity.
Qed.

(** Plain bytes are appended to the buffer one by one. *)
Lemma recive_range_plain n (pre rest : list byte) :
  forall i st,
  forallb plain pre = true ->
  exists st1,
    recive_range n i (pre ++ rest) st = recive_range n (i + len pre) rest st1
    /\ auditBuffer (wt st1) = auditBuffer (wt st) ++ pre
    /\ waitForAutocomplete (wt st1) = waitForAutocomplete (wt st)
    /\ audit_fields st1 = audit_fields st
    /\ audit_records (trace st1) = audit_records (trace st).
Proof.
  induction pre as [| b pre IH]; intros i st Hp.
  - exists st. unfold len. simpl. rewrite Z.add_0_r, app_nil_r. repeat split.
  - cbn [forallb] in Hp. apply andb_prop in Hp as [Hb Hpre].
    cbn [app recive_range]. rewrite (recive_byte_plain n i b st Hb).
    destruct (IH (i + 1) (update (set_auditBuffer (auditBuffer (wt st) ++ [b]))
                            (log_Debug [VString "---- 单个ASCII返回: "; VByte b] st)) Hpre)
      as (st1 & Hrun & Hbuf & Hwait & Hf & Hrec).
    exists st1. split.
    + rewrite Hrun. f_equal. unfold len. cbn [length]. lia.
    + split; [rewrite Hbuf; cbn [update wt auditBuffer set_auditBuffer];
              rewrite <- app_assoc; reflexivity |].
      split; [exact Hwait |]. split; [exact Hf |].
      rewrite Hrec. unfold audit_records, log_Debug, emit, update. cbn [trace].
      rewrite omap_app. simpl. apply app_nil_r.
Qed.

Lemma last_drop_two (msg : list byte) (c d : byte) :
  drop (length msg - 2) msg = [c; d] -> last msg = Some d.
Proof.
  intros H. rewrite <- (take_drop (length msg - 2) msg), H.
  rewrite last_app. reflexivity.
Qed.

(** A chunk that ends with CR is never noise to the received side. *)
Lemma filterASCII_recive_ends_CR (pre : list byte) :
  filterASCII "recive" (pre ++ [x0d]) = true.
Proof.
  destruct (filterASCII "recive" (pre ++ [x0d])) eqn:E; [reflexivity |].
  apply filterASCII_false_iff in E.
  assert (Hlast : last (pre ++ [x0d]) = Some x0d) by (rewrite last_app; reflexivity).
  destruct E as [_ Hd | _ Hd | He | Hs _].
  - apply last_drop_two in Hd. rewrite Hlast in Hd. discriminate.
  - apply last_drop_two in Hd. rewrite Hlast in Hd. discriminate.
  - rewrite He in Hlast. discriminate.
  - discriminate.
Qed.

(** Plain keystrokes closed by CR, in one chunk: one record, with what
    the buffer held and what the chunk brought, and an empty buffer. *)
Lemma audit_line_recorded (pre : list byte) st :
  forallb plain pre = true ->
  auditBuffer (wt st) ++ pre <> [] ->
  let st' := audit "recive" (pre ++ [x0d]) st in
  auditBuffer (wt st') = []
  /\ waitForAutocomplete (wt st') = waitForAutocomplete (wt st)
  /\ audit_records (trace st')
     = audit_records (trace st)
       ++ [mkEntry InfoLevel (audit_fields st)
             [VString "msg=";
              VString (strings_Replace
                         (string_of_bytes (auditBuffer (wt st) ++ pre)) prompt "")]].
Proof.
  intros Hp Hne st'. subst st'. unfold audit.
  rewrite filterASCII_recive_ends_CR. cbn [negb].
  change (String.eqb "recive" "send") with false.
  change (String.eqb "recive" "recive") with true. cbv iota.
  assert (Hlen : (0 <? len (pre ++ [x0d])) = true).
  { apply len_pos_iff. destruct pre; discriminate. }
  rewrite Hlen.
  set (st0 := log_Debug _ st).
  destruct (recive_range_plain (len (pre ++ [x0d])) pre [x0d] 0 st0 Hp)
    as (st1 & Hrun & Hbuf & Hwait & Hf & Hrec).
  rewrite Hrun. cbn [recive_range].
  replace (0 + len pre) with (len (pre ++ [x0d]) - 1)
    by (unfold len; rewrite length_app; simpl; lia).
  assert (Hb1 : auditBuffer (wt st1) <> []) by (rewrite Hbuf; exact Hne).
  rewrite (recive_byte_CR_last _ st1 Hb1).
  cbn [update emit wt trace auditBuffer waitForAutocomplete set_auditBuffer].
  split; [reflexivity |]. split; [exact Hwait |].
  unfold audit_records in *. rewrite omap_app, Hrec.
  subst st0. unfold log_Debug, emit. cbn [trace]. rewrite omap_app.
  simpl. rewrite app_nil_r. unfold audit_record. rewrite Hf, Hbuf. reflexivity.
Qed.

End Line.

Section Backspace.
Context {M S : Type}.
Implicit Types st : State M S.

Lemma recive_byte_BS n i st : recive_byte n i x08 st = (st, Continue).
Proof.
  unfold recive_byte.
  change (byte_is x08 9) with false. change (byte_is x08 8) with true. cbv iota.
  unfold len. rewrite Nat2Z.id, firstn_all.
  destruct st as [[] ?]. reflexivity.
Qed.

Lemma recive_range_BS_run n k :
  forall i st, recive_range n i (replicate k x08) st = st.
Proof.
  induction k as [| k IH]; intros i st; [reflexivity |].
  cbn [replicate recive_range]. rewrite recive_byte_BS. apply IH.
Qed.

(** C7: a Backspace byte (0x08) met by the loop over a received chunk,
    at any index of any chunk and with any buffer, leaves the state as
    it is: the byte is not appended to [auditBuffer] and no buffered byte
    is removed; the loop goes on with the next byte.  A chunk made of
    Backspace bytes only leaves the buffer as it found it. *)
Theorem backspace_keeps_buffer (n i : Z) (st : State M S) :
  recive_byte n i x08 st = (st, Continue)
  /\ auditBuffer (wt (fst (recive_byte n i x08 st))) = auditBuffer (wt st)
  /\ (forall rest,
        recive_range n i (x08 :: rest) st = recive_range n (i + 1) rest st)
  /\ (forall k,
        auditBuffer (wt (audit "recive" (replicate k x08) st)) = auditBuffer (wt st)).
Proof.
  split; [apply recive_byte_BS |].
  split; [rewrite recive_byte_BS; reflexivity |].
  split.
  - intros rest. cbn [recive_range]. rewrite recive_byte_BS. reflexivity.
  - intros k. unfold audit.
    destruct (filterASCII "recive" (replicate k x08)); [| reflexivity].
    cbn [negb]. change (String.eqb "recive" "send") with false.
    change (String.eqb "recive" "recive") with true. cbv iota.
    destruct (0 <? len (replicate k x08)); [| reflexivity].
    rewrite recive_range_BS_run. reflexivity.
Qed.

End Backspace.

(** * The bridge *)

Lemma Byte_eqb_refl (b : byte) : Byte.eqb b b = true.
Proof. apply Byte.byte_dec_lb. reflexivity. Qed.

Lemma Byte_eqb_neq (a b : byte) : a <> b -> Byte.eqb a b = false.
Proof.
  intros Hne. destruct (Byte.eqb a b) eqn:E; [| reflexivity].
  apply Byte.byte_dec_bl in E. contradiction.
Qed.

Lemma len_cons_le_1 {A : Type} (x : A) (l : list A) :
  (len (x :: l) <=? 1) = true <-> l = [].
Proof.
  unfold len. rewrite Z.leb_le. destruct l; simpl; split; intros; try lia; congruence.
Qed.

Lemma app_one_neq {A : Type} (l : list A) (x : A) : l ++ [x] <> l.
Proof.
  intros E. apply (f_equal length) in E. rewrite length_app in E. simpl in E. lia.
Qed.

Section BridgeFacts.
Context {M S : Type} `{Master M} `{Slave S}.
Variables Input Ping ResizeTerminal : byte.
Variables Output Pong : byte.
Variables ErrSlaveClosed ErrMasterClosed : error.
Variable json_Unmarshal : list byte -> error + argResizeTerminal.
Variable intSize : Z.
Variable int_unrepresentable : float64 -> Z.
Implicit Types st : State M S.

(** ** Input frames *)

Lemma dispatch_Input (payload : list byte) st :
  dispatch Input Ping ResizeTerminal Pong json_Unmarshal intSize
    int_unrepresentable Input payload st =
  if permitWrite (wt st) then
    match payload with
    | [] => (st, None)
    | _ :: _ =>
        (emit (SlaveWrite payload)
           (update (set_slave (fst (Slave_Write (slave (wt st)) payload))) st),
         option_map (fun e => errors_Wrapf e "failed to write received data to slave")
           (snd (Slave_Write (slave (wt st)) payload)))
    end
  else (st, None).
Proof.
  unfold dispatch. rewrite Byte_eqb_refl.
  destruct (permitWrite (wt st)); [| reflexivity]. cbn [negb].
  destruct payload as [| b payload]; [reflexivity |].
  destruct (len (Input :: b :: payload) <=? 1) eqn:E.
  { apply len_cons_le_1 in E. discriminate. }
  unfold slave_Write.
  destruct (Slave_Write (slave (wt st)) (b :: payload)) as [s [e |]]; reflexivity.
Qed.

(** C1: a master frame of type Input, [Input :: payload].  After the
    audit of the payload, the payload is written to the slave, once,
    when [permitWrite] is true and the payload is not empty, and the
    handler returns the write's error, wrapped, if it has one.  In every
    other case nothing is written to the slave and no error is returned:
    the state is the one the audit left.  So the payload is written to
    the slave if and only if [permitWrite] is true and the payload is not
    empty. *)
Theorem Input_forwarded_iff_permitted (payload : list byte) (st : State M S) :
  let st1 := audit "recive" payload st in
  let r :=
    handleMasterReadEvent Input Ping ResizeTerminal Pong json_Unmarshal intSize
      int_unrepresentable (Input :: payload) st in
  (permitWrite (wt st) = true /\ payload <> [] ->
     fst r = emit (SlaveWrite payload)
               (update (set_slave (fst (Slave_Write (slave (wt st)) payload))) st1)
     /\ trace (fst r) = trace st1 ++ [SlaveWrite payload]
     /\ slave_writes (trace (fst r)) = slave_writes (trace st) ++ [payload]
     /\ snd r = option_map
                  (fun e => errors_Wrapf e "failed to write received data to slave")
                  (snd (Slave_Write (slave (wt st)) payload)))
  /\ (~ (permitWrite (wt st) = true /\ payload <> []) ->
      fst r = st1 /\ snd r = None
      /\ slave_writes (trace (fst r)) = slave_writes (trace st))
  /\ (slave_writes (trace (fst r)) = slave_writes (trace st) ++ [payload]
      <-> permitWrite (wt st) = true /\ payload <> []).
Proof.
  intros st1 r.
  pose proof (audit_audit_only "recive" payload st) as Ha. fold st1 in Ha.
  destruct (audit_only_session _ _ Ha) as (_ & Hslave & Hperm & _).
  destruct (audit_only_calls _ _ Ha) as (_ & Hsw & _).
  assert (Hr : r = dispatch Input Ping ResizeTerminal Pong json_Unmarshal intSize
                     int_unrepresentable Input payload st1) by reflexivity.
  rewrite dispatch_Input, Hperm, Hslave in Hr.
  assert (Hyes : permitWrite (wt st) = true /\ payload <> [] ->
            fst r = emit (SlaveWrite payload)
                      (update (set_slave (fst (Slave_Write (slave (wt st)) payload))) st1)
            /\ trace (fst r) = trace st1 ++ [SlaveWrite payload]
            /\ slave_writes (trace (fst r)) = slave_writes (trace st) ++ [payload]
            /\ snd r = option_map
                  (fun e => errors_Wrapf e "failed to write received data to slave")
                  (snd (Slave_Write (slave (wt st)) payload))).
  { intros [Hp Hne]. rewrite Hp in Hr.
    destruct payload as [| b payload]; [contradiction |].
    rewrite Hr. cbn [fst snd]. repeat split.
    unfold slave_writes in *. cbn [emit trace update].
    rewrite omap_app, Hsw. reflexivity. }
  assert (Hno : ~ (permitWrite (wt st) = true /\ payload <> []) ->
            fst r = st1 /\ snd r = None
            /\ slave_writes (trace (fst r)) = slave_writes (trace st)).
  { intros Hnot.
    assert (E : r = (st1, None)).
    { rewrite Hr. destruct (permitWrite (wt st)); [| reflexivity].
      destruct payload; [reflexivity |]. exfalso. apply Hnot. split; congruence. }
    rewrite E. cbn [fst snd]. repeat split. exact Hsw. }
  split; [exact Hyes |]. split; [exact Hno |].
  split.
  - intros Hw.
    destruct (permitWrite (wt st)) eqn:Hp.
    + split; [reflexivity |]. intros ->.
      destruct Hno as (_ & _ & Hsame); [intros [_ Hc]; apply Hc; reflexivity |].
      rewrite Hsame in Hw. symmetry in Hw. exact (app_one_neq _ _ Hw).
    + destruct Hno as (_ & _ & Hsame); [intros [Hc _]; discriminate |].
      rewrite Hsame in Hw. symmetry in Hw. destruct (app_one_neq _ _ Hw).
  - intros Hc. apply Hyes, Hc.
Qed.

(** ** Writes to the master *)

Lemma masterWrite_eq (data : list byte) st :
  masterWrite data st =
  (emit (MasterWrite data)
     (update (set_masterConn (fst (Master_Write (masterConn (wt st)) data))) st),
   option_map (fun e => errors_Wrapf e "failed to write to master")
     (snd (Master_Write (masterConn (wt st)) data))).
Proof.
  unfold masterWrite.
  destruct (Master_Write (masterConn (wt st)) data) as [m [e |]]; reflexivity.
Qed.

(** C2: for every byte sequence [data] read from the slave, the handler
    audits it and then writes one frame to the master: the Output type
    byte followed by the standard base64 encoding of [data].  It is the
    only master write of the handler, whether the write succeeds or not;
    the text after the type byte is base64 (alphabet and padding only)
    and decodes to [data]; nothing is written to the slave.  The
    handler's error is the write's error, wrapped twice. *)
Theorem Output_frame_is_base64 (data : list byte) (st : State M S) :
  let st1 := audit "send" data st in
  let frame := Output :: base64.EncodeToString data in
  let r := handleSlaveReadEvent Output data st in
  trace (fst r) = trace st1 ++ [MasterWrite frame]
  /\ master_writes (trace (fst r)) = master_writes (trace st) ++ [frame]
  /\ slave_writes (trace (fst r)) = slave_writes (trace st)
  /\ base64.DecodeString (base64.EncodeToString data) = Some data
  /\ Forall base64_char (base64.EncodeToString data)
  /\ snd r =
     option_map
       (fun e => errors_Wrapf (errors_Wrapf e "failed to write to master")
                   "failed to send message to master")
       (snd (Master_Write (masterConn (wt st)) frame)).
Proof.
  intros st1 frame r.
  pose proof (audit_audit_only "send" data st) as Ha. fold st1 in Ha.
  destruct (audit_only_session _ _ Ha) as (Hm & _).
  destruct (audit_only_calls _ _ Ha) as (Hmw & Hsw & _).
  assert (Hr : r =
    (emit (MasterWrite frame)
       (update (set_masterConn (fst (Master_Write (masterConn (wt st)) frame))) st1),
     option_map
       (fun e => errors_Wrapf (errors_Wrapf e "failed to write to master")
                   "failed to send message to master")
       (snd (Master_Write (masterConn (wt st)) frame)))).
  { subst r. unfold handleSlaveReadEvent. fold st1. fold frame.
    rewrite masterWrite_eq, Hm.
    destruct (snd (Master_Write (masterConn (wt st)) frame)); reflexivity. }
  rewrite Hr. cbn [fst snd emit update trace].
  unfold master_writes, slave_writes in *. rewrite !omap_app, Hmw, Hsw.
  cbn [omap is_MasterWrite is_SlaveWrite]. rewrite app_nil_r.
  repeat split.
  - apply DecodeString_EncodeToString.
  - apply EncodeToString_chars.
Qed.

(** ** Ping frames *)

Lemma dispatch_Ping (payload : list byte) st :
  Ping <> Input ->
  dispatch Input Ping ResizeTerminal Pong json_Unmarshal intSize
    int_unrepresentable Ping payload st =
  (emit (MasterWrite [Pong])
     (update (set_masterConn (fst (Master_Write (masterConn (wt st)) [Pong]))) st),
   option_map
     (fun e => errors_Wrapf (errors_Wrapf e "failed to write to master")
                 "failed to return Pong message to master")
     (snd (Master_Write (masterConn (wt st)) [Pong]))).
Proof.
  intros Hne. unfold dispatch.
  rewrite (Byte_eqb_neq _ _ Hne), Byte_eqb_refl, masterWrite_eq.
  destruct (snd (Master_Write (masterConn (wt st)) [Pong])); reflexivity.
Qed.

(** The master pump returns the error of its handler. *)
Lemma master_pump_handler_error (fuel : nat) st (m : M) (data : list byte)
    (st' : State M S) (err : error) :
  Master_Read (masterConn (wt st)) (bufferSize (wt st)) = (m, (data, None)) ->
  handleMasterReadEvent Input Ping ResizeTerminal Pong json_Unmarshal intSize
    int_unrepresentable data (update (set_masterConn m) st) = (st', Some err) ->
  master_pump Input Ping ResizeTerminal Pong ErrMasterClosed json_Unmarshal intSize
    int_unrepresentable (Datatypes.S fuel) st = (st', Exited err).
Proof.
  intros Hread Hh. cbn [master_pump]. rewrite Hread, Hh. reflexivity.
Qed.

(** C8: a master frame of type Ping.  After the audit of what follows
    the type byte, the handler writes one frame to the master, the
    single byte Pong, and does nothing else: nothing is written to the
    slave, no resize is asked, no line is logged, and the session is the
    one the audit left but for the master endpoint, which has taken the
    write.  For the Ping frame of the protocol, which carries no
    payload, the audit does nothing either.  A failure of the write is
    returned, wrapped, and ends the master pump with that error. *)
Theorem Ping_answered_by_one_Pong (payload : list byte) (st : State M S) :
  Ping <> Input ->
  let st1 := audit "recive" payload st in
  let r :=
    handleMasterReadEvent Input Ping ResizeTerminal Pong json_Unmarshal intSize
      int_unrepresentable (Ping :: payload) st in
  let w := Master_Write (masterConn (wt st)) [Pong] in
  trace (fst r) = trace st1 ++ [MasterWrite [Pong]]
  /\ master_writes (trace (fst r)) = master_writes (trace st) ++ [[Pong]]
  /\ slave_writes (trace (fst r)) = slave_writes (trace st)
  /\ resizes (trace (fst r)) = resizes (trace st)
  /\ wt (fst r) = set_masterConn (fst w) (wt st1)
  /\ (payload = [] -> st1 = st)
  /\ snd r =
     option_map
       (fun e => errors_Wrapf (errors_Wrapf e "failed to write to master")
                   "failed to return Pong message to master")
       (snd w)
  /\ (forall (e : error) (fuel : nat) (st0 : State M S) (m : M),
        snd w = Some e ->
        Master_Read (masterConn (wt st0)) (bufferSize (wt st0))
          = (m, (Ping :: payload, None)) ->
        st = update (set_masterConn m) st0 ->
        snd (master_pump Input Ping ResizeTerminal Pong ErrMasterClosed json_Unmarshal
               intSize int_unrepresentable (Datatypes.S fuel) st0)
        = Exited (errors_Wrapf (errors_Wrapf e "failed to write to master")
                    "failed to return Pong message to master")).
Proof.
  intros Hne st1 r w.
  pose proof (audit_audit_only "recive" payload st) as Ha. fold st1 in Ha.
  destruct (audit_only_session _ _ Ha) as (Hm & _).
  destruct (audit_only_calls _ _ Ha) as (Hmw & Hsw & Hrs).
  assert (Hr : r =
    (emit (MasterWrite [Pong]) (update (set_masterConn (fst w)) st1),
     option_map
       (fun e => errors_Wrapf (errors_Wrapf e "failed to write to master")
                   "failed to return Pong message to master")
       (snd w))).
  { subst r w. unfold handleMasterReadEvent. fold st1.
    rewrite (dispatch_Ping payload st1 Hne), Hm. reflexivity. }
  rewrite Hr. cbn [fst snd emit update trace wt].
  unfold master_writes, slave_writes, resizes in *.
  rewrite !omap_app, Hmw, Hsw, Hrs.
  cbn [omap is_MasterWrite is_SlaveWrite is_SlaveResize]. rewrite !app_nil_r.
  repeat split.
  - intros ->. reflexivity.
  - intros e fuel st0 m He Hread Hst.
    erewrite master_pump_handler_error; [reflexivity | exact Hread |].
    rewrite <- Hst. fold r. rewrite Hr, He. reflexivity.
Qed.

(** ** ResizeTerminal frames *)

(** The size asked of the slave: per axis the fixed value, or the
    request's number converted to [int] where none is fixed. *)
Lemma dispatch_ResizeTerminal (payload : list byte) st :
  ResizeTerminal <> Input -> ResizeTerminal <> Ping ->
  dispatch Input Ping ResizeTerminal Pong json_Unmarshal intSize
    int_unrepresentable ResizeTerminal payload st =
  if negb (columns (wt st) =? 0) && negb (rows (wt st) =? 0) then (st, None)
  else
    match payload with
    | [] =>
        (st, Some (errors_New
                     "received malformed remote command for terminal resize: empty payload"))
    | _ :: _ =>
        match json_Unmarshal payload with
        | inl err =>
            (st, Some (errors_Wrapf err "received malformed data for terminal resize"))
        | inr args =>
            (slave_ResizeTerminal
               (effective_size intSize int_unrepresentable (columns (wt st)) (Columns args))
               (effective_size intSize int_unrepresentable (rows (wt st)) (Rows args))
               st, None)
        end
    end.
Proof.
  intros HneI HneP. unfold dispatch.
  rewrite (Byte_eqb_neq _ _ HneI), (Byte_eqb_neq _ _ HneP), Byte_eqb_refl.
  destruct (negb (columns (wt st) =? 0) && negb (rows (wt st) =? 0)); [reflexivity |].
  destruct payload as [| b payload]; [reflexivity |].
  destruct (len (ResizeTerminal :: b :: payload) <=? 1) eqn:E.
  { apply len_cons_le_1 in E. discriminate. }
  reflexivity.
Qed.

Lemma both_fixed_iff (c r : Z) :
  negb (c =? 0) && negb (r =? 0) = true <-> c <> 0 /\ r <> 0.
Proof.
  rewrite andb_true_iff, !negb_true_iff, !Z.eqb_neq. reflexivity.
Qed.

(** C3, as the code has it: a ResizeTerminal frame whose payload is
    empty or is refused by the JSON decoder never reaches the slave's
    resize, and leaves the state as the audit left it.  While a
    dimension is not fixed ([columns] or [rows] is zero) the handler
    returns a protocol error (for the empty payload the error made with
    [errors.New], for refused JSON the decoder's error wrapped), and
    that error ends the master pump.  With both dimensions fixed the
    frame is accepted unread: no error is returned. *)
Theorem malformed_resize_rejected_unless_fixed (payload : list byte) (st : State M S) :
  ResizeTerminal <> Input -> ResizeTerminal <> Ping ->
  payload = [] \/ (exists e, json_Unmarshal payload = inl e) ->
  let st1 := audit "recive" payload st in
  let r :=
    handleMasterReadEvent Input Ping ResizeTerminal Pong json_Unmarshal intSize
      int_unrepresentable (ResizeTerminal :: payload) st in
  fst r = st1
  /\ resizes (trace (fst r)) = resizes (trace st)
  /\ (columns (wt st) = 0 \/ rows (wt st) = 0 ->
      (exists err, snd r = Some err)
      /\ (payload = [] ->
          snd r = Some (errors_New
                    "received malformed remote command for terminal resize: empty payload"))
      /\ (forall e, payload <> [] -> json_Unmarshal payload = inl e ->
          snd r = Some (errors_Wrapf e "received malformed data for terminal resize"))
      /\ (forall (fuel : nat) (st0 : State M S) (m : M),
            Master_Read (masterConn (wt st0)) (bufferSize (wt st0))
              = (m, (ResizeTerminal :: payload, None)) ->
            st = update (set_masterConn m) st0 ->
            exists err,
              master_pump Input Ping ResizeTerminal Pong ErrMasterClosed json_Unmarshal
                intSize int_unrepresentable (Datatypes.S fuel) st0 = (st1, Exited err)))
  /\ (columns (wt st) <> 0 /\ rows (wt st) <> 0 -> snd r = None).
Proof.
  intros HneI HneP Hbad st1 r.
  pose proof (audit_audit_only "recive" payload st) as Ha. fold st1 in Ha.
  destruct (audit_only_session _ _ Ha) as (_ & _ & _ & Hc & Hr & _).
  destruct (audit_only_calls _ _ Ha) as (_ & _ & Hrs).
  assert (E : r =
    if negb (columns (wt st) =? 0) && negb (rows (wt st) =? 0) then (st1, None)
    else match payload with
         | [] => (st1, Some (errors_New
                   "received malformed remote command for terminal resize: empty payload"))
         | _ :: _ =>
             match json_Unmarshal payload with
             | inl err => (st1, Some (errors_Wrapf err
                                        "received malformed data for terminal resize"))
             | inr args =>
                 (slave_ResizeTerminal
                    (effective_size intSize int_unrepresentable (columns (wt st)) (Columns args))
                    (effective_size intSize int_unrepresentable (rows (wt st)) (Rows args))
                    st1, None)
             end
         end).
  { subst r. unfold handleMasterReadEvent. fold st1.
    rewrite (dispatch_ResizeTerminal payload st1 HneI HneP), Hc, Hr. reflexivity. }
  assert (Hfst : fst r = st1).
  { rewrite E. destruct (negb _ && negb _); [reflexivity |].
    destruct payload as [| b payload]; [reflexivity |].
    destruct Hbad as [? | [e He]]; [discriminate |]. rewrite He. reflexivity. }
  split; [exact Hfst |]. split; [rewrite Hfst; exact Hrs |].
  assert (Hopen : columns (wt st) = 0 \/ rows (wt st) = 0 ->
            negb (columns (wt st) =? 0) && negb (rows (wt st) =? 0) = false).
  { intros Hz. destruct (negb _ && negb _) eqn:Eb; [| reflexivity].
    apply both_fixed_iff in Eb. lia. }
  assert (Hempty : columns (wt st) = 0 \/ rows (wt st) = 0 -> payload = [] ->
            snd r = Some (errors_New
                    "received malformed remote command for terminal resize: empty payload")).
  { intros Hz ->. rewrite E, (Hopen Hz). reflexivity. }
  assert (Hjson : columns (wt st) = 0 \/ rows (wt st) = 0 ->
            forall e, payload <> [] -> json_Unmarshal payload = inl e ->
            snd r = Some (errors_Wrapf e "received malformed data for terminal resize")).
  { intros Hz e Hne He. rewrite E, (Hopen Hz).
    destruct payload; [contradiction |]. rewrite He. reflexivity. }
  assert (Herr : columns (wt st) = 0 \/ rows (wt st) = 0 -> exists err, snd r = Some err).
  { intros Hz. destruct Hbad as [Hnil | [e He]].
    - eexists. apply Hempty; [exact Hz | exact Hnil].
    - destruct (decide (payload = [])) as [Hnil | Hcons].
      + eexists. apply Hempty; [exact Hz | exact Hnil].
      + eexists. apply (Hjson Hz e); [exact Hcons | exact He]. }
  split.
  - intros Hz. split; [exact (Herr Hz) |]. split; [exact (Hempty Hz) |].
    split; [exact (Hjson Hz) |].
    intros fuel st0 m Hread Hst. destruct (Herr Hz) as [err Herr'].
    exists err. eapply master_pump_handler_error; [exact Hread |].
    rewrite <- Hst. fold r. rewrite (surjective_pairing r), Hfst, Herr'. reflexivity.
  - intros Hfix. apply both_fixed_iff in Hfix. rewrite E, Hfix. reflexivity.
Qed.

(** C4: a well-formed ResizeTerminal frame (its payload is not empty
    and the JSON decoder accepts it as [args]) never yields an error.
    With both dimensions fixed (neither is zero) the slave's resize is
    not called.  Otherwise it is called exactly once, after the audit,
    with, per axis, the fixed value where it is not zero and else the
    request's number converted to [int]; that conversion is the
    truncation of the number whenever the truncated value is an [int]. *)
Theorem well_formed_resize_applied_once (payload : list byte)
    (args : argResizeTerminal) (st : State M S) :
  ResizeTerminal <> Input -> ResizeTerminal <> Ping ->
  payload <> [] -> json_Unmarshal payload = inr args ->
  let st1 := audit "recive" payload st in
  let r :=
    handleMasterReadEvent Input Ping ResizeTerminal Pong json_Unmarshal intSize
      int_unrepresentable (ResizeTerminal :: payload) st in
  let c := effective_size intSize int_unrepresentable (columns (wt st)) (Columns args) in
  let r_ := effective_size intSize int_unrepresentable (rows (wt st)) (Rows args) in
  snd r = None
  /\ (columns (wt st) <> 0 /\ rows (wt st) <> 0 ->
      fst r = st1 /\ resizes (trace (fst r)) = resizes (trace st))
  /\ (~ (columns (wt st) <> 0 /\ rows (wt st) <> 0) ->
      fst r = slave_ResizeTerminal c r_ st1
      /\ trace (fst r) = trace st1 ++ [SlaveResize c r_]
      /\ resizes (trace (fst r)) = resizes (trace st) ++ [(c, r_)])
  /\ (columns (wt st) <> 0 -> c = columns (wt st))
  /\ (rows (wt st) <> 0 -> r_ = rows (wt st))
  /\ (columns (wt st) = 0 -> c = int_of_float64 intSize int_unrepresentable (Columns args))
  /\ (rows (wt st) = 0 -> r_ = int_of_float64 intSize int_unrepresentable (Rows args))
  /\ (forall (f : float64) (z : Z),
        float64_trunc f = Some z ->
        - 2 ^ (intSize - 1) <= z < 2 ^ (intSize - 1) ->
        int_of_float64 intSize int_unrepresentable f = z).
Proof.
  intros HneI HneP Hne Hjson st1 r c r_.
  pose proof (audit_audit_only "recive" payload st) as Ha. fold st1 in Ha.
  destruct (audit_only_session _ _ Ha) as (_ & _ & _ & Hc & Hr & _).
  destruct (audit_only_calls _ _ Ha) as (_ & _ & Hrs).
  assert (E : r =
    if negb (columns (wt st) =? 0) && negb (rows (wt st) =? 0) then (st1, None)
    else (slave_ResizeTerminal c r_ st1, None)).
  { subst r c r_. unfold handleMasterReadEvent. fold st1.
    rewrite (dispatch_ResizeTerminal payload st1 HneI HneP), Hc, Hr.
    destruct (negb (columns (wt st) =? 0) && negb (rows (wt st) =? 0)); [reflexivity |].
    destruct payload; [contradiction |]. rewrite Hjson. reflexivity. }
  split; [rewrite E; destruct (negb _ && negb _); reflexivity |].
  split.
  { intros Hfix. apply both_fixed_iff in Hfix. rewrite E, Hfix. split; [reflexivity | exact Hrs]. }
  split.
  { intros Hnot.
    assert (Eb : negb (columns (wt st) =? 0) && negb (rows (wt st) =? 0) = false).
    { destruct (negb _ && negb _) eqn:Eb; [| reflexivity].
      apply both_fixed_iff in Eb. contradiction. }
    rewrite E, Eb. cbn [fst]. split; [reflexivity |]. split; [reflexivity |].
    unfold resizes in *. cbn [slave_ResizeTerminal emit update trace].
    rewrite omap_app, Hrs. reflexivity. }
  subst c r_. unfold effective_size.
  split; [intros Hz; apply Z.eqb_neq in Hz; rewrite Hz; reflexivity |].
  split; [intros Hz; apply Z.eqb_neq in Hz; rewrite Hz; reflexivity |].
  split; [intros ->; reflexivity |].
  split; [intros ->; reflexivity |].
  intros f z Hf Hz. unfold int_of_float64. rewrite Hf.
  destruct (Z.leb_spec (- 2 ^ (intSize - 1)) z); [| lia].
  destruct (Z.ltb_spec z (2 ^ (intSize - 1))); [reflexivity | lia].
Qed.

(** ** The audit comes before the dispatch *)

Lemma log_lines_app (a b : list Event) : log_lines (a ++ b) = log_lines a ++ log_lines b.
Proof. apply omap_app. Qed.

(** The dispatch leaves the audit fields alone and logs nothing; what
    it does is added behind what the trace already holds. *)
Lemma dispatch_keeps_audit (t : byte) (payload : list byte) st :
  let r := dispatch Input Ping ResizeTerminal Pong json_Unmarshal intSize
             int_unrepresentable t payload st in
  auditBuffer (wt (fst r)) = auditBuffer (wt st)
  /\ waitForAutocomplete (wt (fst r)) = waitForAutocomplete (wt st)
  /\ exists evs, trace (fst r) = trace st ++ evs /\ log_lines evs = [].
Proof.
  assert (Hsame : forall (s : State M S) (o : option error),
            s = st ->
            auditBuffer (wt (fst (s, o))) = auditBuffer (wt st)
            /\ waitForAutocomplete (wt (fst (s, o))) = waitForAutocomplete (wt st)
            /\ exists evs, trace (fst (s, o)) = trace st ++ evs /\ log_lines evs = []).
  { intros s o ->. repeat split. exists []. split; [symmetry; apply app_nil_r | reflexivity]. }
  assert (Hone : forall (f : WebTTY M S -> WebTTY M S) (ev : Event) (o : option error),
            auditBuffer (f (wt st)) = auditBuffer (wt st) ->
            waitForAutocomplete (f (wt st)) = waitForAutocomplete (wt st) ->
            is_Log ev = None ->
            auditBuffer (wt (fst (emit ev (update f st), o))) = auditBuffer (wt st)
            /\ waitForAutocomplete (wt (fst (emit ev (update f st), o)))
               = waitForAutocomplete (wt st)
            /\ exists evs, trace (fst (emit ev (update f st), o)) = trace st ++ evs
                           /\ log_lines evs = []).
  { intros f ev o Hb Hw Hev. cbn [fst emit update wt trace].
    split; [exact Hb |]. split; [exact Hw |].
    exists [ev]. split; [reflexivity |]. unfold log_lines. simpl. rewrite Hev. reflexivity. }
  cbv zeta. unfold dispatch.
  destruct (Byte.eqb t Input).
  { destruct (negb (permitWrite (wt st))); [apply Hsame; reflexivity |].
    destruct (len (t :: payload) <=? 1); [apply Hsame; reflexivity |].
    unfold slave_Write.
    destruct (Slave_Write (slave (wt st)) payload) as [s [e |]]; apply Hone; reflexivity. }
  destruct (Byte.eqb t Ping).
  { rewrite masterWrite_eq.
    destruct (snd (Master_Write (masterConn (wt st)) [Pong])); apply Hone; reflexivity. }
  destruct (Byte.eqb t ResizeTerminal); [| apply Hsame; reflexivity].
  destruct (negb (columns (wt st) =? 0) && negb (rows (wt st) =? 0));
    [apply Hsame; reflexivity |].
  destruct (len (t :: payload) <=? 1); [apply Hsame; reflexivity |].
  destruct (json_Unmarshal payload) as [e | args]; [apply Hsame; reflexivity |].
  unfold slave_ResizeTerminal. apply Hone; reflexivity.
Qed.

Lemma dispatch_unknown (t : byte) (payload : list byte) st :
  t <> Input -> t <> Ping -> t <> ResizeTerminal ->
  dispatch Input Ping ResizeTerminal Pong json_Unmarshal intSize
    int_unrepresentable t payload st =
  (st, Some (errors_Errorf "unknown message type `%c`" t)).
Proof.
  intros H1 H2 H3. unfold dispatch.
  rewrite (Byte_eqb_neq _ _ H1), (Byte_eqb_neq _ _ H2), (Byte_eqb_neq _ _ H3).
  reflexivity.
Qed.

Lemma audit_recive_plain (b : byte) st :
  byte_is b 9 = false -> byte_is b 8 = false -> byte_is b 13 = false ->
  auditBuffer (wt (audit "recive" [b] st)) = auditBuffer (wt st) ++ [b].
Proof.
  intros H9 H8 H13. unfold audit.
  change (filterASCII "recive" [b]) with true. cbn [negb].
  change (String.eqb "recive" "send") with false.
  change (String.eqb "recive" "recive") with true. cbv iota.
  change (0 <? len [b]) with true. cbv iota.
  cbn [recive_range]. unfold recive_byte. rewrite H9, H8, H13. reflexivity.
Qed.

Lemma audit_recive_TAB st : waitForAutocomplete (wt (audit "recive" [x09] st)) = true.
Proof. reflexivity. Qed.

(** C10: for every frame [t :: payload] read from the master, the
    audit runs on the payload first and the type is dispatched in the
    state it leaves.  Whatever the type, the handler ends with the audit
    buffer, the autocomplete flag and the log lines that the audit
    produced, and the trace of the audit comes first.  So a Ping frame is
    answered, an unknown type is refused with the error naming it, and
    an Input frame is dropped when [permitWrite] is false, all in the
    state the audit of their payload left; and that audit does change
    the state: a plain byte is appended to the buffer, a TAB sets the
    flag. *)
Theorem payload_audited_before_dispatch (t : byte) (payload : list byte)
    (st : State M S) :
  let st1 := audit "recive" payload st in
  let r :=
    handleMasterReadEvent Input Ping ResizeTerminal Pong json_Unmarshal intSize
      int_unrepresentable (t :: payload) st in
  auditBuffer (wt (fst r)) = auditBuffer (wt st1)
  /\ waitForAutocomplete (wt (fst r)) = waitForAutocomplete (wt st1)
  /\ log_lines (trace (fst r)) = log_lines (trace st1)
  /\ (exists evs, trace (fst r) = trace st1 ++ evs)
  /\ (t = Ping -> Ping <> Input ->
      trace (fst r) = trace st1 ++ [MasterWrite [Pong]])
  /\ (t <> Input -> t <> Ping -> t <> ResizeTerminal ->
      fst r = st1 /\ snd r = Some (errors_Errorf "unknown message type `%c`" t))
  /\ (t = Input -> permitWrite (wt st) = false -> fst r = st1 /\ snd r = None)
  /\ (forall b : byte,
        byte_is b 9 = false -> byte_is b 8 = false -> byte_is b 13 = false ->
        auditBuffer (wt (audit "recive" [b] st)) = auditBuffer (wt st) ++ [b])
  /\ waitForAutocomplete (wt (audit "recive" [x09] st)) = true.
Proof.
  intros st1 r.
  assert (Hr : r = dispatch Input Ping ResizeTerminal Pong json_Unmarshal intSize
                     int_unrepresentable t payload st1) by reflexivity.
  destruct (dispatch_keeps_audit t payload st1) as (Hb & Hw & evs & Ht & Hl).
  rewrite <- Hr in Hb, Hw, Ht.
  split; [exact Hb |]. split; [exact Hw |].
  split; [rewrite Ht, log_lines_app, Hl; apply app_nil_r |].
  split; [exists evs; exact Ht |].
  split.
  { intros HtP Hne. rewrite Hr, HtP, (dispatch_Ping payload st1 Hne). reflexivity. }
  split.
  { intros H1 H2 H3. rewrite Hr, (dispatch_unknown t payload st1 H1 H2 H3).
    split; reflexivity. }
  split.
  { intros HtI Hp.
    pose proof (audit_audit_only "recive" payload st) as Ha. fold st1 in Ha.
    destruct (audit_only_session _ _ Ha) as (_ & _ & Hperm & _).
    rewrite Hr, HtI, dispatch_Input, Hperm, Hp. split; reflexivity. }
  split; [intros b; apply audit_recive_plain | apply audit_recive_TAB].
Qed.

(** ** The pumps *)

Lemma slave_pump_turn (fuel : nat) st (st' : State M S) :
  slave_turn Output st = Some st' ->
  slave_pump Output ErrSlaveClosed (Datatypes.S fuel) st
  = slave_pump Output ErrSlaveClosed fuel st'.
Proof.
  unfold slave_turn. cbn [slave_pump].
  destruct (Slave_Read (slave (wt st)) (bufferSize (wt st))) as [s [data [e |]]];
    [discriminate |].
  destruct (handleSlaveReadEvent Output data (update (set_slave s) st)) as [st2 [e |]];
    [discriminate |].
  intros [= ->]. reflexivity.
Qed.

Lemma slave_pump_turns (k fuel : nat) :
  forall st (st' : State M S),
  turns (slave_turn Output) k st = Some st' ->
  slave_pump Output ErrSlaveClosed (k + fuel) st
  = slave_pump Output ErrSlaveClosed fuel st'.
Proof.
  induction k as [| k IH]; intros st st' Ht.
  - injection Ht as ->. reflexivity.
  - cbn [turns] in Ht. destruct (slave_turn Output st) as [st2 |] eqn:E; [| discriminate].
    change (Datatypes.S k + fuel)%nat with (Datatypes.S (k + fuel)).
    rewrite (slave_pump_turn _ _ _ E). apply IH, Ht.
Qed.

Lemma master_pump_turn (fuel : nat) st (st' : State M S) :
  master_turn Input Ping ResizeTerminal Pong json_Unmarshal intSize
    int_unrepresentable st = Some st' ->
  master_pump Input Ping ResizeTerminal Pong ErrMasterClosed json_Unmarshal intSize
    int_unrepresentable (Datatypes.S fuel) st
  = master_pump Input Ping ResizeTerminal Pong ErrMasterClosed json_Unmarshal intSize
      int_unrepresentable fuel st'.
Proof.
  unfold master_turn. cbn [master_pump].
  destruct (Master_Read (masterConn (wt st)) (bufferSize (wt st))) as [m [data [e |]]];
    [discriminate |].
  destruct (handleMasterReadEvent Input Ping ResizeTerminal Pong json_Unmarshal intSize
              int_unrepresentable data (update (set_masterConn m) st)) as [st2 [e |]];
    [discriminate |].
  intros [= ->]. reflexivity.
Qed.

Lemma master_pump_turns (k fuel : nat) :
  forall st (st' : State M S),
  turns (master_turn Input Ping ResizeTerminal Pong json_Unmarshal intSize
           int_unrepresentable) k st = Some st' ->
  master_pump Input Ping ResizeTerminal Pong ErrMasterClosed json_Unmarshal intSize
    int_unrepresentable (k + fuel) st
  = master_pump Input Ping ResizeTerminal Pong ErrMasterClosed json_Unmarshal intSize
      int_unrepresentable fuel st'.
Proof.
  induction k as [| k IH]; intros st st' Ht.
  - injection Ht as ->. reflexivity.
  - cbn [turns] in Ht.
    destruct (master_turn Input Ping ResizeTerminal Pong json_Unmarshal intSize
                int_unrepresentable st) as [st2 |] eqn:E; [| discriminate].
    change (Datatypes.S k + fuel)%nat with (Datatypes.S (k + fuel)).
    rewrite (master_pump_turn _ _ _ E). apply IH, Ht.
Qed.

(** C9: a read that fails ends its pump.  When, after [k] turns of the
    slave pump, the read from the slave returns an error [e], the pump
    returns [ErrSlaveClosed], whatever [e] is and whatever was read with
    it; when the read from the master returns an error, the master pump
    returns [ErrMasterClosed].  Neither value holds [e]; the handler is
    not run on that read. *)
Theorem read_error_closes_pump (k fuel : nat) (st stk : State M S) :
  (forall (s : S) (data : list byte) (e : error),
     turns (slave_turn Output) k st = Some stk ->
     Slave_Read (slave (wt stk)) (bufferSize (wt stk)) = (s, (data, Some e)) ->
     slave_pump Output ErrSlaveClosed (k + Datatypes.S fuel) st
     = (update (set_slave s) stk, Exited ErrSlaveClosed))
  /\ (forall (m : M) (data : list byte) (e : error),
        turns (master_turn Input Ping ResizeTerminal Pong json_Unmarshal intSize
                 int_unrepresentable) k st = Some stk ->
        Master_Read (masterConn (wt stk)) (bufferSize (wt stk)) = (m, (data, Some e)) ->
        master_pump Input Ping ResizeTerminal Pong ErrMasterClosed json_Unmarshal
          intSize int_unrepresentable (k + Datatypes.S fuel) st
        = (update (set_masterConn m) stk, Exited ErrMasterClosed)).
Proof.
  split.
  - intros s data e Ht Hread.
    rewrite (slave_pump_turns k (Datatypes.S fuel) st stk Ht).
    cbn [slave_pump]. rewrite Hread. reflexivity.
  - intros m data e Ht Hread.
    rewrite (master_pump_turns k (Datatypes.S fuel) st stk Ht).
    cbn [master_pump]. rewrite Hread. reflexivity.
Qed.

End BridgeFacts.

(** * More about the audit: a received chunk in closed form *)

Lemma last_is_CR_cons (b : byte) (rest : list byte) :
  rest <> [] -> last_is_CR (b :: rest) = last_is_CR rest.
Proof.
  intros Hne. unfold last_is_CR. destruct rest as [| c rest]; [contradiction |].
  rewrite last_cons_cons. reflexivity.
Qed.

Lemma last_is_CR_cons_other (b : byte) (rest : list byte) :
  byte_is b 13 = false -> last_is_CR (b :: rest) = last_is_CR rest.
Proof.
  intros Hb. destruct rest as [| c rest].
  - unfold last_is_CR. simpl. exact Hb.
  - apply last_is_CR_cons. discriminate.
Qed.

Lemma len_cons {A : Type} (x : A) (l : list A) : len (x :: l) = 1 + len l.
Proof. unfold len. cbn [length]. lia. Qed.

Lemma len_nonneg {A : Type} (l : list A) : 0 <= len l.
Proof. unfold len. lia. Qed.

Lemma byte_is_excl (b : byte) (n m : Z) :
  n <> m -> byte_is b n = true -> byte_is b m = false.
Proof.
  intros Hne Hn. apply byte_is_iff in Hn.
  unfold byte_is. apply Z.eqb_neq. lia.
Qed.

Section ReceivedChunk.
Context {M S : Type}.
Implicit Types st : State M S.

Lemma recive_byte_is_TAB n i (b : byte) st :
  byte_is b 9 = true ->
  recive_byte n i b st = (update (set_waitForAutocomplete true) st, Continue).
Proof. intros Hb. unfold recive_byte. rewrite Hb. reflexivity. Qed.

Lemma recive_byte_is_BS n i (b : byte) st :
  byte_is b 8 = true -> recive_byte n i b st = (st, Continue).
Proof.
  intros Hb. apply byte_is_iff, byte_of_value in Hb. subst b. apply recive_byte_BS.
Qed.

(** The state at the end of the loop over [rest], entered at index [i]
    of a chunk of [n] bytes; at index 0 the chunk does not start with
    CR. *)
Lemma recive_range_summary n (rest : list byte) :
  forall i st,
  0 <= i -> i + len rest = n -> (i = 0 -> first_is_CR rest = false) ->
  let st' := recive_range n i rest st in
  let text := auditBuffer (wt st) ++ List.filter plain rest in
  waitForAutocomplete (wt st') = waitForAutocomplete (wt st) || has_TAB rest
  /\ audit_fields st' = audit_fields st
  /\ (last_is_CR rest = true /\ text <> [] ->
      auditBuffer (wt st') = []
      /\ audit_records (trace st') = audit_records (trace st) ++ [record_of st text])
  /\ (~ (last_is_CR rest = true /\ text <> []) ->
      auditBuffer (wt st') = text
      /\ audit_records (trace st') = audit_records (trace st)).
Proof.
  induction rest as [| b rest IH]; intros i st Hi Hn Hfirst; cbv zeta.
  - cbn [recive_range has_TAB existsb List.filter]. rewrite orb_false_r, app_nil_r.
    split; [reflexivity |]. split; [reflexivity |].
    split; [intros [Hc _]; discriminate Hc | intros _; split; reflexivity].
  - rewrite len_cons in Hn. cbn [recive_range].
    destruct (byte_is b 9) eqn:H9.
    { (* TAB *)
      rewrite (recive_byte_is_TAB n i b st H9).
      assert (H13 : byte_is b 13 = false) by (apply (byte_is_excl b 9 13); [lia | exact H9]).
      assert (Hpl : plain b = false) by (unfold plain; rewrite H9; reflexivity).
      destruct (IH (i + 1) (update (set_waitForAutocomplete true) st))
        as (Hw & Hf & Hyes & Hno); [lia | lia | lia |].
      cbn [has_TAB existsb List.filter]. rewrite H9, Hpl, (last_is_CR_cons_other b rest H13).
      split; [rewrite Hw; cbn; rewrite orb_true_r; reflexivity |].
      split; [rewrite Hf; reflexivity |].
      split; [exact Hyes | exact Hno]. }
    destruct (byte_is b 8) eqn:H8.
    { (* Backspace *)
      rewrite (recive_byte_is_BS n i b st H8).
      assert (H13 : byte_is b 13 = false) by (apply (byte_is_excl b 8 13); [lia | exact H8]).
      assert (Hpl : plain b = false) by (unfold plain; rewrite H9, H8; reflexivity).
      destruct (IH (i + 1) st) as (Hw & Hf & Hyes & Hno); [lia | lia | lia |].
      cbn [has_TAB existsb List.filter]. rewrite H9, Hpl, (last_is_CR_cons_other b rest H13).
      split; [exact Hw |]. split; [exact Hf |]. split; [exact Hyes | exact Hno]. }
    destruct (byte_is b 13) eqn:H13.
    { (* CR, not at index 0 *)
      assert (Hb : b = x0d) by (apply byte_is_iff, byte_of_value in H13; exact H13).
      subst b.
      assert (Hi0 : i <> 0).
      { intros ->. specialize (Hfirst eq_refl). discriminate Hfirst. }
      cbn [has_TAB existsb List.filter]. change (byte_is x0d 9) with false.
      change (plain x0d) with false. cbn [orb].
      destruct rest as [| c rest].
      - (* the last byte *)
        unfold len in Hn. cbn [length] in Hn.
        replace i with (n - 1) in * by lia.
        cbn [List.filter]. rewrite app_nil_r.
        change (last_is_CR [x0d]) with true.
        destruct (auditBuffer (wt st)) as [| x buf] eqn:Hbuf.
        + rewrite recive_byte_CR_other by (rewrite Hbuf; intros [_ Hc]; apply Hc; reflexivity).
          destruct (Z.eqb_spec (n - 1) 0); [contradiction |].
          cbn [recive_range]. rewrite Hbuf, orb_false_r.
          split; [reflexivity |]. split; [reflexivity |].
          split; [intros [_ Hc]; contradiction | intros _; split; reflexivity].
        + rewrite recive_byte_CR_last by (rewrite Hbuf; discriminate).
          cbn [recive_range update emit wt trace auditBuffer waitForAutocomplete
               set_auditBuffer].
          rewrite orb_false_r.
          split; [reflexivity |]. split; [reflexivity |].
          split.
          * intros _. split; [reflexivity |].
            unfold audit_records. rewrite omap_app.
            unfold audit_record, record_of. rewrite Hbuf. reflexivity.
          * intros Hc. exfalso. apply Hc. split; [reflexivity | discriminate].
      - (* a CR inside the chunk *)
        rewrite recive_byte_CR_other
          by (intros [Hc _]; rewrite !len_cons in Hn; pose proof (len_nonneg rest); lia).
        destruct (Z.eqb_spec i 0); [contradiction |].
        destruct (IH (i + 1) st) as (Hw & Hf & Hyes & Hno); [lia | lia | lia |].
        rewrite (last_is_CR_cons x0d (c :: rest)) by discriminate.
        split; [exact Hw |]. split; [exact Hf |]. split; [exact Hyes | exact Hno]. }
    (* a plain byte *)
    assert (Hpl : plain b = true) by (unfold plain; rewrite H9, H8, H13; reflexivity).
    rewrite (recive_byte_plain n i b st Hpl).
    set (st1 := update (set_auditBuffer (auditBuffer (wt st) ++ [b]))
                  (log_Debug [VString "---- 单个ASCII返回: "; VByte b] st)).
    destruct (IH (i + 1) st1) as (Hw & Hf & Hyes & Hno); [lia | lia | lia |].
    assert (Hrec1 : audit_records (trace st1) = audit_records (trace st)).
    { subst st1. cbn [update trace]. apply audit_records_emit_debug. }
    assert (Htext : auditBuffer (wt st1) ++ List.filter plain rest
                    = auditBuffer (wt st) ++ List.filter plain (b :: rest)).
    { subst st1. cbn [update wt auditBuffer set_auditBuffer List.filter].
      rewrite Hpl, <- app_assoc. reflexivity. }
    cbn [has_TAB existsb]. rewrite H9, (last_is_CR_cons_other b rest H13). cbn [orb].
    rewrite Htext, Hrec1 in Hyes, Hno.
    split; [exact Hw |]. split; [rewrite Hf; reflexivity |].
    split; [| exact Hno].
    intros Hc. destruct (Hyes Hc) as [Hb' Hr']. split; [exact Hb' |].
    rewrite Hr'. reflexivity.
Qed.

End ReceivedChunk.

Section ReceivedChunkFacts.
Context {M S : Type}.
Implicit Types st : State M S.

Lemma first_is_CR_true (msg : list byte) :
  first_is_CR msg = true -> exists rest, msg = x0d :: rest.
Proof.
  unfold first_is_CR. intros H. apply at_is_true in H as (b & Hb & Hv).
  destruct msg as [| c rest]; [discriminate |].
  injection Hb as ->. apply byte_of_value in Hv. subst b. exists rest. reflexivity.
Qed.

(** X1: a received chunk that the filter lets through and that does not
    start with CR, in closed form.  With [text] the buffer followed by
    the chunk's plain bytes (TAB, Backspace and CR taken out): the flag
    is set if it was or if the chunk holds a TAB; if the chunk ends with
    CR and [text] is not empty, one record is written for [text] and the
    buffer is emptied; otherwise no record is written and the buffer is
    [text].  So a CR inside the chunk is passed over, and so is a
    closing CR that finds nothing to record. *)
Theorem received_chunk_closed_form (msg : list byte) (st : State M S) :
  filterASCII "recive" msg = true ->
  first_is_CR msg = false ->
  let st' := audit "recive" msg st in
  let text := auditBuffer (wt st) ++ List.filter plain msg in
  waitForAutocomplete (wt st') = waitForAutocomplete (wt st) || has_TAB msg
  /\ (last_is_CR msg = true /\ text <> [] ->
      auditBuffer (wt st') = []
      /\ audit_records (trace st') = audit_records (trace st) ++ [record_of st text])
  /\ (~ (last_is_CR msg = true /\ text <> []) ->
      auditBuffer (wt st') = text
      /\ audit_records (trace st') = audit_records (trace st)).
Proof.
  intros Hfilter Hfirst. cbv zeta. unfold audit. rewrite Hfilter. cbn [negb].
  change (String.eqb "recive" "send") with false.
  change (String.eqb "recive" "recive") with true. cbv iota.
  destruct (0 <? len msg) eqn:Hlen.
  - set (st0 := log_Debug _ st).
    destruct (recive_range_summary (len msg) msg 0 st0) as (Hw & _ & Hyes & Hno);
      [lia | lia | intros _; exact Hfirst |].
    assert (Hrec0 : audit_records (trace st0) = audit_records (trace st))
      by apply audit_records_emit_debug.
    rewrite Hrec0 in Hyes, Hno.
    split; [exact Hw |]. split; [exact Hyes | exact Hno].
  - assert (Hnil : msg = []).
    { destruct msg; [reflexivity |]. rewrite len_cons in Hlen.
      pose proof (len_nonneg msg). apply Z.ltb_ge in Hlen. lia. }
    subst msg. cbn [has_TAB existsb List.filter]. rewrite orb_false_r, app_nil_r.
    split; [reflexivity |].
    split; [intros [Hc _]; discriminate Hc | intros _; split; reflexivity].
Qed.

(** What a received chunk can do, case by case: nothing to the buffer,
    the flag and the records; or it is the lone CR that closes the
    buffer's line; or it is a chunk of the closed form. *)
Lemma audit_recive_cases (msg : list byte) st :
  let st' := audit "recive" msg st in
  (auditBuffer (wt st') = auditBuffer (wt st)
   /\ waitForAutocomplete (wt st') = waitForAutocomplete (wt st)
   /\ audit_records (trace st') = audit_records (trace st))
  \/ (msg = [x0d] /\ auditBuffer (wt st) <> []
      /\ auditBuffer (wt st') = []
      /\ waitForAutocomplete (wt st') = waitForAutocomplete (wt st)
      /\ audit_records (trace st')
         = audit_records (trace st) ++ [record_of st (auditBuffer (wt st))])
  \/ (filterASCII "recive" msg = true /\ first_is_CR msg = false).
Proof.
  cbv zeta.
  destruct (filterASCII "recive" msg) eqn:Hfilter.
  2: { left. unfold audit. rewrite Hfilter. repeat split. }
  destruct (first_is_CR msg) eqn:Hfirst; [| right; right; split; reflexivity].
  apply first_is_CR_true in Hfirst as [rest ->].
  assert (Hkeep : rest <> [] \/ auditBuffer (wt st) = [] ->
            auditBuffer (wt (audit "recive" (x0d :: rest) st)) = auditBuffer (wt st)
            /\ waitForAutocomplete (wt (audit "recive" (x0d :: rest) st))
               = waitForAutocomplete (wt st)
            /\ audit_records (trace (audit "recive" (x0d :: rest) st))
               = audit_records (trace st)).
  { intros Hc. destruct (audit_recive_CR_first rest st Hc) as [-> | ->];
      rewrite ?audit_records_emit_debug; repeat split. }
  destruct rest as [| c rest]; [| left; apply Hkeep; left; discriminate].
  destruct (decide (auditBuffer (wt st) = [])) as [Hbuf | Hbuf].
  { left. apply Hkeep. right. exact Hbuf. }
  right. left.
  assert (Hne : auditBuffer (wt st) ++ [] <> []) by (rewrite app_nil_r; exact Hbuf).
  destruct (audit_line_recorded [] st eq_refl Hne) as (Hb & Hw & Hr).
  cbn [app] in Hb, Hw, Hr. rewrite app_nil_r in Hr.
  split; [reflexivity |]. split; [exact Hbuf |].
  split; [exact Hb |]. split; [exact Hw | exact Hr].
Qed.

Lemma Forall_plain_filter (msg : list byte) :
  Forall (fun b => plain b = true) (List.filter plain msg).
Proof.
  apply List.Forall_forall. intros b Hb. apply List.filter_In in Hb. apply Hb.
Qed.

Lemma length_filter_le (msg : list byte) :
  (length (List.filter plain msg) <= length msg)%nat.
Proof.
  induction msg as [| b msg IH]; cbn [List.filter length]; [lia |].
  destruct (plain b); cbn [length]; lia.
Qed.

(** X2: a received chunk, whatever it holds, adds at most one audit
    record; when it adds one, its last byte is CR and the buffer is
    empty afterwards. *)
Theorem one_record_per_received_chunk (msg : list byte) (st : State M S) :
  let st' := audit "recive" msg st in
  exists added : list Entry,
    audit_records (trace st') = audit_records (trace st) ++ added
    /\ (length added <= 1)%nat
    /\ (added <> [] -> last_is_CR msg = true /\ auditBuffer (wt st') = []).
Proof.
  cbv zeta.
  destruct (audit_recive_cases msg st) as [(_ & _ & Hr) | [(-> & _ & Hb & _ & Hr) | [Hf H1]]].
  - exists []. rewrite Hr, app_nil_r. split; [reflexivity |].
    split; [simpl; lia | intros Hc; contradiction].
  - eexists. split; [exact Hr |]. split; [simpl; lia |].
    intros _. split; [reflexivity | exact Hb].
  - destruct (received_chunk_closed_form msg st Hf H1) as (_ & Hyes & Hno).
    destruct (last_is_CR msg) eqn:Hl.
    + destruct (auditBuffer (wt st) ++ List.filter plain msg) as [| x text] eqn:Ht.
      * destruct Hno as [_ Hr]; [intros [_ Hc]; apply Hc; reflexivity |].
        exists []. rewrite Hr, app_nil_r. split; [reflexivity |].
        split; [simpl; lia | intros Hc; contradiction].
      * destruct Hyes as [Hb Hr]; [split; [reflexivity | discriminate] |].
        eexists. split; [exact Hr |]. split; [simpl; lia |].
        intros _. split; [reflexivity | exact Hb].
    + destruct Hno as [_ Hr]; [intros [Hc _]; discriminate Hc |].
      exists []. rewrite Hr, app_nil_r. split; [reflexivity |].
      split; [simpl; lia | intros Hc; contradiction].
Qed.

(** The buffer after a received chunk: as it was, empty, or with the
    chunk's plain bytes behind it. *)
Lemma audit_recive_buffer (msg : list byte) st :
  let buf' := auditBuffer (wt (audit "recive" msg st)) in
  buf' = auditBuffer (wt st) \/ buf' = []
  \/ buf' = auditBuffer (wt st) ++ List.filter plain msg.
Proof.
  cbv zeta.
  destruct (audit_recive_cases msg st) as [(Hb & _) | [(_ & _ & Hb & _) | [Hf H1]]].
  - left. exact Hb.
  - right. left. exact Hb.
  - destruct (received_chunk_closed_form msg st Hf H1) as (_ & Hyes & Hno).
    destruct (last_is_CR msg) eqn:Hl.
    + destruct (auditBuffer (wt st) ++ List.filter plain msg) as [| x text] eqn:Ht.
      * destruct Hno as [Hb _]; [intros [_ Hc]; apply Hc; reflexivity |].
        right. left. exact Hb.
      * destruct Hyes as [Hb _]; [split; [reflexivity | discriminate] |].
        right. left. exact Hb.
    + destruct Hno as [Hb _]; [intros [Hc _]; discriminate Hc |].
      right. right. exact Hb.
Qed.

(** X3: the keystrokes never bring a TAB, a Backspace or a CR into the
    buffer: if the buffer holds none of them, it holds none after a
    received chunk. *)
Theorem received_buffer_stays_plain (msg : list byte) (st : State M S) :
  Forall (fun b => plain b = true) (auditBuffer (wt st)) ->
  Forall (fun b => plain b = true) (auditBuffer (wt (audit "recive" msg st))).
Proof.
  intros Hbuf.
  destruct (audit_recive_buffer msg st) as [-> | [-> | ->]].
  - exact Hbuf.
  - constructor.
  - apply Forall_app. split; [exact Hbuf | apply Forall_plain_filter].
Qed.

(** X4: in either direction the buffer grows by at most the length of
    the chunk. *)
Theorem audit_buffer_growth (action : string) (msg : list byte) (st : State M S) :
  (length (auditBuffer (wt (audit action msg st)))
   <= length (auditBuffer (wt st)) + length msg)%nat.
Proof.
  destruct (String.eqb action "recive") eqn:Hr.
  - apply String.eqb_eq in Hr. subst action.
    destruct (audit_recive_buffer msg st) as [-> | [-> | ->]].
    + lia.
    + simpl. lia.
    + rewrite length_app. pose proof (length_filter_le msg). lia.
  - unfold audit. rewrite Hr.
    destruct (filterASCII action msg); cbn [negb]; [| lia].
    destruct (String.eqb action "send"); [| lia].
    assert (Hlog : forall (a : list (string * Value)) (v : list Value) (s : State M S),
              auditBuffer (wt (log_WithFields_Debug a v s)) = auditBuffer (wt s))
      by reflexivity.
    destruct (waitForAutocomplete (wt st));
      destruct (_ && _); rewrite ?Hlog;
      cbn [update wt auditBuffer set_auditBuffer set_waitForAutocomplete];
      rewrite ?length_app; lia.
Qed.

(** X5: the flag goes one way in each direction.  A received chunk
    never clears it, and sets it when it holds a TAB (and is neither
    noise nor started by CR); a chunk of output never sets it. *)
Theorem autocomplete_flag_flow (msg : list byte) (st : State M S) :
  (waitForAutocomplete (wt st) = true ->
   waitForAutocomplete (wt (audit "recive" msg st)) = true)
  /\ (filterASCII "recive" msg = true -> first_is_CR msg = false ->
      has_TAB msg = true ->
      waitForAutocomplete (wt (audit "recive" msg st)) = true)
  /\ (waitForAutocomplete (wt (audit "send" msg st)) = true ->
      waitForAutocomplete (wt st) = true).
Proof.
  split; [| split].
  - intros Hw.
    destruct (audit_recive_cases msg st) as [(_ & H & _) | [(_ & _ & _ & H & _) | [Hf H1]]].
    + rewrite H. exact Hw.
    + rewrite H. exact Hw.
    + destruct (received_chunk_closed_form msg st Hf H1) as (H & _).
      rewrite H, Hw. reflexivity.
  - intros Hf H1 Ht.
    destruct (received_chunk_closed_form msg st Hf H1) as (H & _).
    rewrite H, Ht. apply orb_true_r.
  - unfold audit.
    destruct (filterASCII "send" msg); cbn [negb]; [| intros Hw; exact Hw].
    change (String.eqb "send" "send") with true. cbv iota.
    destruct (waitForAutocomplete (wt st)) eqn:E; [reflexivity |].
    destruct (_ && _); unfold log_WithFields_Debug, emit; cbn [wt];
      rewrite E; intros Hw; exact Hw.
Qed.

End ReceivedChunkFacts.

(** * More about the audit: the output direction and the filter *)

Section OutputChunk.
Context {M S : Type}.
Implicit Types st : State M S.

(** The audit of a chunk of output that is not noise: the flag, if
    set, is taken with the chunk; then the chunk is or is not rendered
    in a debug line. *)
Lemma audit_send_eq (msg : list byte) st :
  filterASCII "send" msg = true ->
  let st1 :=
    if waitForAutocomplete (wt st) then
      update (set_auditBuffer (auditBuffer (wt st) ++ msg))
        (update (set_waitForAutocomplete false) st)
    else st in
  audit "send" msg st =
  if (1 <? len msg) && negb (at_is msg 0 35) then
    emit (Log (mkEntry DebugLevel (audit_fields st)
                 [VString "ASCII返回:"; VString (asciiToString msg)])) st1
  else st1.
Proof.
  intros Hf. cbv zeta. unfold audit. rewrite Hf. cbn [negb].
  change (String.eqb "send" "send") with true. cbv iota.
  destruct (waitForAutocomplete (wt st)); reflexivity.
Qed.

(** X6: a chunk of output never adds an audit record.  It adds at most
    one line to the log, at debug level, and nothing else to the trace;
    and while the flag is clear it leaves the session as it is. *)
Theorem output_chunk_writes_no_record (msg : list byte) (st : State M S) :
  let st' := audit "send" msg st in
  audit_records (trace st') = audit_records (trace st)
  /\ (exists lines : list Entry,
        trace st' = trace st ++ map Log lines
        /\ (length lines <= 1)%nat
        /\ Forall (fun e => level e = DebugLevel) lines)
  /\ (waitForAutocomplete (wt st) = false -> wt st' = wt st).
Proof.
  cbv zeta.
  destruct (filterASCII "send" msg) eqn:Hf.
  2: { assert (E : audit "send" msg st = st) by (unfold audit; rewrite Hf; reflexivity).
       rewrite E. split; [reflexivity |]. split; [| reflexivity].
       exists []. simpl. rewrite app_nil_r. split; [reflexivity |].
       split; [lia | constructor]. }
  rewrite (audit_send_eq msg st Hf).
  set (st1 := if waitForAutocomplete (wt st) then _ else st).
  assert (Ht1 : trace st1 = trace st)
    by (subst st1; destruct (waitForAutocomplete (wt st)); reflexivity).
  assert (Hw1 : waitForAutocomplete (wt st) = false -> wt st1 = wt st)
    by (subst st1; intros ->; reflexivity).
  destruct ((1 <? len msg) && negb (at_is msg 0 35)).
  - cbn [emit trace wt]. rewrite Ht1. split; [| split; [| exact Hw1]].
    + unfold audit_records. rewrite omap_app. simpl. apply app_nil_r.
    + eexists [_]. split; [reflexivity |]. split; [simpl; lia |].
      constructor; [reflexivity | constructor].
  - rewrite Ht1. split; [reflexivity |]. split; [| exact Hw1].
    exists []. simpl. rewrite app_nil_r. split; [reflexivity |].
    split; [lia | constructor].
Qed.

(** X7: what follows a TAB.  With the flag set, a chunk of output that
    is not noise is appended whole to the buffer and clears the flag; a
    chunk that is noise changes nothing, and the flag stays set for the
    chunk after it. *)
Theorem autocomplete_captured (msg : list byte) (st : State M S) :
  waitForAutocomplete (wt st) = true ->
  let st' := audit "send" msg st in
  (filterASCII "send" msg = true ->
   auditBuffer (wt st') = auditBuffer (wt st) ++ msg
   /\ waitForAutocomplete (wt st') = false)
  /\ (filterASCII "send" msg = false ->
      st' = st /\ waitForAutocomplete (wt st') = true).
Proof.
  intros Hw. cbv zeta. split.
  - intros Hf. rewrite (audit_send_eq msg st Hf), Hw.
    destruct (_ && _); split; reflexivity.
  - intros Hf.
    assert (E : audit "send" msg st = st) by (unfold audit; rewrite Hf; reflexivity).
    rewrite E. split; [reflexivity | exact Hw].
Qed.

End OutputChunk.

Lemma single_CR (msg : list byte) :
  (len msg =? 1) && at_is msg 0 13 = true -> msg = [x0d].
Proof.
  intros H. apply andb_prop in H as [Hl Hc]. apply Z.eqb_eq in Hl.
  apply at_is_true in Hc as (b & Hb & Hv). apply byte_of_value in Hv. subst b.
  destruct msg as [| c [| d msg]]; unfold len in Hl; simpl in Hl; try lia.
  injection Hb as ->. reflexivity.
Qed.

(** X8: the filter looks at the direction for one chunk only, the
    single CR: every other chunk is noise in both directions or in
    none. *)
Theorem filterASCII_direction (a b : string) (msg : list byte) :
  msg <> [x0d] -> filterASCII a msg = filterASCII b msg.
Proof.
  intros Hne. unfold filterASCII.
  destruct ((1 <? len msg) && at_is msg 0 13 && at_is msg 1 10
            && at_is msg (len msg - 1) 32 && at_is msg (len msg - 2) 35);
    [reflexivity |].
  destruct ((1 <? len msg) && at_is msg 0 115 && at_is msg 1 104
            && at_is msg (len msg - 1) 32 && at_is msg (len msg - 2) 35);
    [reflexivity |].
  destruct ((len msg =? 2) && at_is msg 0 13 && at_is msg 1 10); [reflexivity |].
  assert (Hno : (len msg =? 1) && at_is msg 0 13 = false).
  { destruct ((len msg =? 1) && at_is msg 0 13) eqn:E; [| reflexivity].
    apply single_CR in E. contradiction. }
  rewrite <- !andb_assoc, Hno, !andb_false_r. reflexivity.
Qed.

(** * The debug rendering *)

Lemma string_app_assoc (a b c : string) :
  ((a ++ b) ++ c = a ++ (b ++ c))%string.
Proof.
  induction a as [| x a IH]; [reflexivity | exact (f_equal (String x) IH)].
Qed.

Lemma string_app_nil_r (a : string) : (a ++ "")%string = a.
Proof.
  induction a as [| x a IH]; [reflexivity | exact (f_equal (String x) IH)].
Qed.

Lemma string_length_app (a b : string) :
  String.length (a ++ b) = (String.length a + String.length b)%nat.
Proof.
  induction a as [| x a IH]; [reflexivity | exact (f_equal Datatypes.S IH)].
Qed.

(** The loop of [asciiToString] from any text so far. *)
Lemma asciiToString_from (msg : list byte) :
  forall acc : string,
  fold_left
    (fun s a =>
       let as_ := control_name a in
       if negb (String.eqb as_ "")
       then (s ++ "*" ++ as_ ++ "*")%string
       else (s ++ string_of_rune a)%string)
    msg acc
  = (acc ++ asciiToString msg)%string.
Proof.
  unfold asciiToString.
  set (f := fun (s : string) (a : byte) =>
              let as_ := control_name a in
              if negb (String.eqb as_ "")
              then (s ++ "*" ++ as_ ++ "*")%string
              else (s ++ string_of_rune a)%string).
  assert (Hf : forall s a, f s a = (s ++ f ""%string a)%string).
  { intros s a. subst f. cbv beta zeta.
    destruct (negb (String.eqb (control_name a) "")); reflexivity. }
  induction msg as [| a msg IH]; intros acc; cbn [fold_left].
  - symmetry. apply string_app_nil_r.
  - rewrite (IH (f acc a)), (IH (f ""%string a)), (Hf acc a).
    apply string_app_assoc.
Qed.

Lemma asciiToString_cons (a : byte) (msg : list byte) :
  asciiToString (a :: msg) = (render a ++ asciiToString msg)%string.
Proof.
  unfold asciiToString at 1. cbn [fold_left]. rewrite asciiToString_from.
  unfold render. cbv zeta.
  destruct (negb (String.eqb (control_name a) "")); reflexivity.
Qed.

Lemma byte_in_all_bytes (b : byte) : In b all_bytes.
Proof.
  unfold all_bytes. apply in_map_iff. exists (Z.to_nat (Z_of_byte b)).
  pose proof (Z_of_byte_range b) as Hr.
  split; [rewrite Z2Nat.id by lia; apply byte_of_Z_of_byte | apply in_seq; lia].
Qed.

(** A property checked on every byte value holds of every byte. *)
Lemma for_all_bytes (P : byte -> bool) :
  forallb P all_bytes = true -> forall b, P b = true.
Proof.
  intros H b. rewrite forallb_forall in H. apply H, byte_in_all_bytes.
Qed.

(** X9: the rendering is made byte by byte: the rendering of two
    chunks put together is their renderings put together, and a single
    byte renders as its mnemonic between stars if the table has one and
    else as the text [string(a)]. *)
Theorem asciiToString_app (a b : list byte) :
  asciiToString (a ++ b) = (asciiToString a ++ asciiToString b)%string
  /\ (forall c : byte, asciiToString [c] = render c)
  /\ asciiToString [] = ""%string.
Proof.
  split; [| split; [| reflexivity]].
  - induction a as [| x a IH]; [reflexivity |].
    cbn [app]. rewrite !asciiToString_cons, IH, string_app_assoc. reflexivity.
  - intros c. rewrite asciiToString_cons. apply string_app_nil_r.
Qed.

Lemma render_printable_all :
  forallb (fun b => implb (is_printable b)
                      (String.eqb (render b) (string_of_bytes [b]))) all_bytes = true.
Proof. vm_compute. reflexivity. Qed.

(** X10: printable ASCII is rendered as it is: a chunk of bytes from 32
    to 126 comes out as the same text. *)
Theorem asciiToString_printable (msg : list byte) :
  forallb is_printable msg = true -> asciiToString msg = string_of_bytes msg.
Proof.
  induction msg as [| b msg IH]; intros H; [reflexivity |].
  cbn [forallb] in H. apply andb_prop in H as [Hb Hmsg].
  rewrite asciiToString_cons, (IH Hmsg).
  pose proof (for_all_bytes _ render_printable_all b) as Hr. cbv beta in Hr.
  rewrite Hb in Hr. cbn [implb] in Hr. apply String.eqb_eq in Hr.
  rewrite Hr. reflexivity.
Qed.

Lemma control_table_all :
  forallb (fun a =>
             Bool.eqb (negb (String.eqb (control_name a) "")) (is_control a)
             && forallb (fun b =>
                           implb (is_control a
                                  && String.eqb (control_name a) (control_name b))
                             (Byte.eqb a b)) all_bytes) all_bytes = true.
Proof. vm_compute. reflexivity. Qed.

(** X11: the table names the bytes below 32 and the byte 127, and no
    other; no two of them share a name, so a mnemonic in a log line
    stands for one byte. *)
Theorem control_names_distinct (a b : byte) :
  (control_name a <> ""%string <-> is_control a = true)
  /\ (is_control a = true -> control_name a = control_name b -> a = b)
  /\ (is_control a = true -> render a = ("*" ++ control_name a ++ "*")%string).
Proof.
  pose proof (for_all_bytes _ control_table_all a) as H. cbv beta in H.
  apply andb_prop in H as [Hdom Hinj].
  apply Bool.eqb_prop in Hdom.
  assert (Hname : control_name a <> ""%string <-> is_control a = true).
  { rewrite <- Hdom, negb_true_iff. split.
    - intros Hne. destruct (String.eqb_spec (control_name a) ""); [contradiction | reflexivity].
    - intros He Hc. rewrite Hc in He. discriminate He. }
  split; [exact Hname |]. split.
  - intros Hc Heq.
    rewrite forallb_forall in Hinj. specialize (Hinj b (byte_in_all_bytes b)).
    rewrite Hc, Heq, String.eqb_refl in Hinj. cbn [andb implb] in Hinj.
    apply Byte.byte_dec_bl, Hinj.
  - intros Hc. unfold render. rewrite Hdom, Hc. reflexivity.
Qed.

Lemma render_ambiguous_all :
  forallb (fun c =>
             implb (is_control c)
               (String.eqb (asciiToString [c])
                  (asciiToString (bytes_of_string ("*" ++ control_name c ++ "*")))
                && negb (Nat.eqb (length (bytes_of_string ("*" ++ control_name c ++ "*"))) 1)))
    all_bytes = true.
Proof. vm_compute. reflexivity. Qed.

(** X12: the rendering cannot be read back.  For every control byte,
    the byte alone and the text of its mnemonic between stars are two
    chunks with one rendering: a star in the output is not escaped. *)
Theorem asciiToString_ambiguous (c : byte) :
  is_control c = true ->
  let spelled := bytes_of_string ("*" ++ control_name c ++ "*") in
  asciiToString [c] = asciiToString spelled /\ [c] <> spelled.
Proof.
  intros Hc. cbv zeta.
  pose proof (for_all_bytes _ render_ambiguous_all c) as H. cbv beta in H.
  rewrite Hc in H. cbn [implb] in H. apply andb_prop in H as [He Hl].
  apply String.eqb_eq in He. split; [exact He |].
  intros Heq. rewrite <- Heq in Hl. discriminate Hl.
Qed.

Lemma render_size_all :
  forallb (fun b => (1 <=? String.length (render b))%nat
                    && (String.length (render b) <=? 5)%nat) all_bytes = true.
Proof. vm_compute. reflexivity. Qed.

(** X13: a rendering is at least as long as its chunk and at most five
    times as long: no byte is dropped, and the longest addition is a
    three-letter mnemonic between stars. *)
Theorem asciiToString_length (msg : list byte) :
  (length msg <= String.length (asciiToString msg) <= 5 * length msg)%nat.
Proof.
  induction msg as [| b msg IH]; [simpl; lia |].
  rewrite asciiToString_cons, string_length_app. cbn [length].
  pose proof (for_all_bytes _ render_size_all b) as H. cbv beta in H.
  apply andb_prop in H as [H1 H5].
  apply Nat.leb_le in H1. apply Nat.leb_le in H5. lia.
Qed.

(** * More about the bridge: what a handler and a pump can do *)

Section Settings.
Context {M S : Type}.
Implicit Types w : WebTTY M S.

Lemma same_settings_refl w : same_settings w w.
Proof. repeat split. Qed.

Lemma same_settings_trans w1 w2 w3 :
  same_settings w1 w2 -> same_settings w2 w3 -> same_settings w1 w3.
Proof.
  unfold same_settings.
  intros (A1 & A2 & A3 & A4 & A5 & A6 & A7 & A8) (B1 & B2 & B3 & B4 & B5 & B6 & B7 & B8).
  repeat split; congruence.
Qed.

Lemma audit_only_settings (st st' : State M S) :
  audit_only st st' -> same_settings (wt st) (wt st').
Proof.
  intros [H _]. rewrite <- H. destruct (wt st'). repeat split.
Qed.

End Settings.

Section Effects.
Context {M S : Type} `{Master M} `{Slave S}.
Variables Input Ping ResizeTerminal : byte.
Variables Output Pong : byte.
Variables ErrSlaveClosed ErrMasterClosed : error.
Variable json_Unmarshal : list byte -> error + argResizeTerminal.
Variable intSize : Z.
Variable int_unrepresentable : float64 -> Z.
Implicit Types st : State M S.

(** What the [switch] adds to the trace: nothing, or one call, each
    kind of call under its condition; and the errors it can return. *)
Lemma dispatch_effects (t : byte) (payload : list byte) st :
  let r := dispatch Input Ping ResizeTerminal Pong json_Unmarshal intSize
             int_unrepresentable t payload st in
  same_settings (wt st) (wt (fst r))
  /\ (exists evs,
        trace (fst r) = trace st ++ evs
        /\ (evs = []
            \/ (evs = [SlaveWrite payload] /\ permitWrite (wt st) = true /\ payload <> [])
            \/ evs = [MasterWrite [Pong]]
            \/ (exists c r_, evs = [SlaveResize c r_]
                             /\ ~ (columns (wt st) <> 0 /\ rows (wt st) <> 0))))
  /\ (forall err, snd r = Some err -> master_frame_error err).
Proof.
  assert (Hsame : forall (o : option error),
            (forall err, o = Some err -> master_frame_error err) ->
            same_settings (wt st) (wt (fst (st, o)))
            /\ (exists evs,
                  trace (fst (st, o)) = trace st ++ evs
                  /\ (evs = []
                      \/ (evs = [SlaveWrite payload] /\ permitWrite (wt st) = true
                          /\ payload <> [])
                      \/ evs = [MasterWrite [Pong]]
                      \/ (exists c r_, evs = [SlaveResize c r_]
                                       /\ ~ (columns (wt st) <> 0 /\ rows (wt st) <> 0))))
            /\ (forall err, snd (st, o) = Some err -> master_frame_error err)).
  { intros o Ho. split; [apply same_settings_refl |].
    split; [exists []; split; [symmetry; apply app_nil_r | left; reflexivity] | exact Ho]. }
  cbv zeta. unfold dispatch.
  destruct (Byte.eqb t Input).
  { destruct (negb (permitWrite (wt st))) eqn:Hp; [apply Hsame; discriminate |].
    destruct (len (t :: payload) <=? 1) eqn:Hl; [apply Hsame; discriminate |].
    apply negb_false_iff in Hp.
    assert (Hne : payload <> []).
    { intros ->. discriminate Hl. }
    unfold slave_Write.
    destruct (Slave_Write (slave (wt st)) payload) as [s [e |]];
      (split; [repeat split |]);
      (split; [eexists; split; [reflexivity |]; right; left; repeat split; assumption |]).
    - intros err [= <-]. constructor.
    - discriminate. }
  destruct (Byte.eqb t Ping).
  { rewrite masterWrite_eq.
    destruct (snd (Master_Write (masterConn (wt st)) [Pong])) as [e |];
      (split; [repeat split |]);
      (split; [eexists; split; [reflexivity |]; right; right; left; reflexivity |]).
    - intros err [= <-]. constructor.
    - discriminate. }
  destruct (Byte.eqb t ResizeTerminal).
  2: { apply Hsame. intros err [= <-]. constructor. }
  destruct (negb (columns (wt st) =? 0) && negb (rows (wt st) =? 0)) eqn:Hfix;
    [apply Hsame; discriminate |].
  destruct (len (t :: payload) <=? 1); [apply Hsame; intros err [= <-]; constructor |].
  destruct (json_Unmarshal payload) as [e | args];
    [apply Hsame; intros err [= <-]; constructor |].
  split; [repeat split |].
  split; [| discriminate].
  eexists. split; [reflexivity |]. right. right. right.
  eexists _, _. split; [reflexivity |].
  intros Hboth. apply both_fixed_iff in Hboth. congruence.
Qed.

Lemma calls_of_logs (entries : list Entry) :
  master_writes (map Log entries) = [] /\ slave_writes (map Log entries) = []
  /\ resizes (map Log entries) = [].
Proof.
  unfold master_writes, slave_writes, resizes.
  rewrite !omap_Log_nil by reflexivity. repeat split.
Qed.

(** The handler of a master frame: the calls it makes and the errors
    it returns. *)
Lemma handleMasterReadEvent_effects (data : list byte) st :
  let r := handleMasterReadEvent Input Ping ResizeTerminal Pong json_Unmarshal
             intSize int_unrepresentable data st in
  same_settings (wt st) (wt (fst r))
  /\ (master_writes (trace (fst r)) = master_writes (trace st)
      \/ master_writes (trace (fst r)) = master_writes (trace st) ++ [[Pong]])
  /\ (slave_writes (trace (fst r)) = slave_writes (trace st)
      \/ (permitWrite (wt st) = true
          /\ exists payload, payload <> []
             /\ slave_writes (trace (fst r)) = slave_writes (trace st) ++ [payload]))
  /\ (resizes (trace (fst r)) = resizes (trace st)
      \/ (~ (columns (wt st) <> 0 /\ rows (wt st) <> 0)
          /\ exists c r_, resizes (trace (fst r)) = resizes (trace st) ++ [(c, r_)]))
  /\ (forall err, snd r = Some err -> master_frame_error err).
Proof.
  cbv zeta. destruct data as [| t payload].
  { cbn [handleMasterReadEvent fst snd].
    split; [apply same_settings_refl |].
    split; [left; reflexivity |]. split; [left; reflexivity |].
    split; [left; reflexivity |]. intros err [= <-]. constructor. }
  cbn [handleMasterReadEvent].
  pose proof (audit_audit_only "recive" payload st) as Ha.
  set (st1 := audit "recive" payload st) in *.
  pose proof (audit_only_settings _ _ Ha) as Hs1.
  destruct (audit_only_calls _ _ Ha) as (Hmw & Hsw & Hrs).
  destruct (dispatch_effects t payload st1) as (Hs & (evs & Ht & Hev) & Herr).
  split; [eapply same_settings_trans; [exact Hs1 | exact Hs] |].
  destruct Hs1 as (S1 & S2 & S3 & S4 & S5 & S6 & S7 & S8).
  unfold master_writes, slave_writes, resizes in *.
  rewrite Ht, !omap_app, Hmw, Hsw, Hrs.
  destruct Hev as [-> | [(-> & Hp & Hne) | [-> | (c & r_ & -> & Hfix)]]];
    cbn [omap]; simpl; rewrite ?app_nil_r.
  - repeat (split; [left; reflexivity |]). exact Herr.
  - split; [left; reflexivity |].
    split; [right; split; [congruence | exists payload; split; [exact Hne | reflexivity]] |].
    split; [left; reflexivity | exact Herr].
  - split; [right; reflexivity |]. split; [left; reflexivity |].
    split; [left; reflexivity | exact Herr].
  - split; [left; reflexivity |]. split; [left; reflexivity |].
    split; [right; split; [rewrite <- S3, <- S4; exact Hfix | exists c, r_; reflexivity] |].
    exact Herr.
Qed.

(** The handler of a read from the slave, in closed form. *)
Lemma handleSlaveReadEvent_eq (data : list byte) st :
  let st1 := audit "send" data st in
  let frame := Output :: base64.EncodeToString data in
  handleSlaveReadEvent Output data st =
  (emit (MasterWrite frame)
     (update (set_masterConn (fst (Master_Write (masterConn (wt st1)) frame))) st1),
   option_map
     (fun e => errors_Wrapf (errors_Wrapf e "failed to write to master")
                 "failed to send message to master")
     (snd (Master_Write (masterConn (wt st1)) frame))).
Proof.
  cbv zeta. unfold handleSlaveReadEvent. rewrite masterWrite_eq.
  destruct (snd (Master_Write _ _)); reflexivity.
Qed.

Lemma handleSlaveReadEvent_effects (data : list byte) st :
  let r := handleSlaveReadEvent Output data st in
  same_settings (wt st) (wt (fst r))
  /\ master_writes (trace (fst r))
     = master_writes (trace st) ++ [Output :: base64.EncodeToString data]
  /\ slave_writes (trace (fst r)) = slave_writes (trace st)
  /\ resizes (trace (fst r)) = resizes (trace st)
  /\ (forall err, snd r = Some err -> slave_pump_error ErrSlaveClosed err).
Proof.
  cbv zeta. rewrite handleSlaveReadEvent_eq.
  pose proof (audit_audit_only "send" data st) as Ha.
  set (st1 := audit "send" data st) in *.
  pose proof (audit_only_settings _ _ Ha) as Hs1.
  destruct (audit_only_calls _ _ Ha) as (Hmw & Hsw & Hrs).
  cbn [fst snd emit update trace wt].
  split.
  { eapply same_settings_trans; [exact Hs1 | repeat split]. }
  unfold master_writes, slave_writes, resizes in *.
  rewrite !omap_app, Hmw, Hsw, Hrs. simpl. rewrite !app_nil_r.
  repeat split.
  intros err Herr.
  destruct (snd (Master_Write _ _)) as [e |]; [| discriminate].
  injection Herr as <-. constructor.
Qed.

(** ** Induction over the turns of a pump *)

(** A relation between states that holds across a read and across a
    handler holds across any number of turns. *)
Lemma master_pump_preserves (P : State M S -> State M S -> Prop) :
  (forall st, P st st) ->
  (forall st1 st2 st3, P st1 st2 -> P st2 st3 -> P st1 st3) ->
  (forall st m, P st (update (set_masterConn m) st)) ->
  (forall data st,
     P st (fst (handleMasterReadEvent Input Ping ResizeTerminal Pong json_Unmarshal
                  intSize int_unrepresentable data st))) ->
  forall fuel st,
    P st (fst (master_pump Input Ping ResizeTerminal Pong ErrMasterClosed json_Unmarshal
                 intSize int_unrepresentable fuel st)).
Proof.
  intros Hrefl Htrans Hread Hhandle.
  induction fuel as [| fuel IH]; intros st; [apply Hrefl |].
  cbn [master_pump].
  destruct (Master_Read (masterConn (wt st)) (bufferSize (wt st))) as [m [data [e |]]].
  - apply Hread.
  - pose proof (Hhandle data (update (set_masterConn m) st)) as Hh.
    destruct (handleMasterReadEvent Input Ping ResizeTerminal Pong json_Unmarshal intSize
                int_unrepresentable data (update (set_masterConn m) st)) as [st2 [e |]];
      cbn [fst] in *.
    + eapply Htrans; [apply Hread | exact Hh].
    + eapply Htrans; [eapply Htrans; [apply Hread | exact Hh] | apply IH].
Qed.

Lemma slave_pump_preserves (P : State M S -> State M S -> Prop) :
  (forall st, P st st) ->
  (forall st1 st2 st3, P st1 st2 -> P st2 st3 -> P st1 st3) ->
  (forall st s, P st (update (set_slave s) st)) ->
  (forall data st, P st (fst (handleSlaveReadEvent Output data st))) ->
  forall fuel st, P st (fst (slave_pump Output ErrSlaveClosed fuel st)).
Proof.
  intros Hrefl Htrans Hread Hhandle.
  induction fuel as [| fuel IH]; intros st; [apply Hrefl |].
  cbn [slave_pump].
  destruct (Slave_Read (slave (wt st)) (bufferSize (wt st))) as [s [data [e |]]].
  - apply Hread.
  - pose proof (Hhandle data (update (set_slave s) st)) as Hh.
    destruct (handleSlaveReadEvent Output data (update (set_slave s) st)) as [st2 [e |]];
      cbn [fst] in *.
    + eapply Htrans; [apply Hread | exact Hh].
    + eapply Htrans; [eapply Htrans; [apply Hread | exact Hh] | apply IH].
Qed.

End Effects.

Section PumpFacts.
Context {M S : Type} `{Master M} `{Slave S}.
Variables Input Ping ResizeTerminal : byte.
Variables Output Pong : byte.
Variables ErrSlaveClosed ErrMasterClosed : error.
Variable json_Unmarshal : list byte -> error + argResizeTerminal.
Variable intSize : Z.
Variable int_unrepresentable : float64 -> Z.
Implicit Types st : State M S.

(** X14: a session without write permission never writes to the
    slave: whatever the master sends, and for however many turns the
    master pump runs, the writes to the slave are those made before. *)
Theorem master_pump_respects_permitWrite (fuel : nat) (st : State M S) :
  permitWrite (wt st) = false ->
  let st' := fst (master_pump Input Ping ResizeTerminal Pong ErrMasterClosed
                    json_Unmarshal intSize int_unrepresentable fuel st) in
  slave_writes (trace st') = slave_writes (trace st)
  /\ permitWrite (wt st') = false.
Proof.
  intros Hp. cbv zeta.
  pose proof (master_pump_preserves Input Ping ResizeTerminal Pong ErrMasterClosed
                json_Unmarshal intSize int_unrepresentable
                (fun a b => permitWrite (wt a) = false ->
                            permitWrite (wt b) = false
                            /\ slave_writes (trace b) = slave_writes (trace a))) as Hind.
  destruct (Hind) with (fuel := fuel) (st := st) as [Hp' Hw]; [| | | | exact Hp |].
  - intros a Ha. split; [exact Ha | reflexivity].
  - intros a b c Hab Hbc Ha. destruct (Hab Ha) as [Hb Hwb].
    destruct (Hbc Hb) as [Hc Hwc]. split; [exact Hc | congruence].
  - intros a m Ha. split; [exact Ha | reflexivity].
  - intros data a Ha.
    destruct (handleMasterReadEvent_effects Input Ping ResizeTerminal Pong json_Unmarshal
                intSize int_unrepresentable data a) as (Hs & _ & Hsw & _).
    destruct Hs as (_ & Hperm & _).
    split; [congruence |].
    destruct Hsw as [Hsame | [Hyes _]]; [exact Hsame | congruence].
  - split; [exact Hw | exact Hp'].
Qed.

(** X15: a session with both dimensions fixed never resizes the slave,
    whatever the master sends and for however many turns the master
    pump runs. *)
Theorem master_pump_respects_fixed_size (fuel : nat) (st : State M S) :
  columns (wt st) <> 0 -> rows (wt st) <> 0 ->
  let st' := fst (master_pump Input Ping ResizeTerminal Pong ErrMasterClosed
                    json_Unmarshal intSize int_unrepresentable fuel st) in
  resizes (trace st') = resizes (trace st).
Proof.
  intros Hc Hr. cbv zeta.
  pose proof (master_pump_preserves Input Ping ResizeTerminal Pong ErrMasterClosed
                json_Unmarshal intSize int_unrepresentable
                (fun a b => columns (wt a) <> 0 /\ rows (wt a) <> 0 ->
                            (columns (wt b) <> 0 /\ rows (wt b) <> 0)
                            /\ resizes (trace b) = resizes (trace a))) as Hind.
  destruct (Hind) with (fuel := fuel) (st := st) as [_ Hres];
    [| | | | split; [exact Hc | exact Hr] | exact Hres].
  - intros a Ha. split; [exact Ha | reflexivity].
  - intros a b c Hab Hbc Ha. destruct (Hab Ha) as [Hb Hwb].
    destruct (Hbc Hb) as [Hc' Hwc]. split; [exact Hc' | congruence].
  - intros a m Ha. split; [exact Ha | reflexivity].
  - intros data a Ha.
    destruct (handleMasterReadEvent_effects Input Ping ResizeTerminal Pong json_Unmarshal
                intSize int_unrepresentable data a) as (Hs & _ & _ & Hrs & _).
    destruct Hs as (_ & _ & Hcol & Hrow & _).
    split; [rewrite Hcol, Hrow; exact Ha |].
    destruct Hrs as [Hsame | [Hno _]]; [exact Hsame | contradiction].
Qed.

(** X16: the master pump sends nothing to the master but Pong frames:
    after any number of turns the writes to the master are those made
    before and then some number of single-byte Pong frames. *)
Theorem master_pump_sends_only_Pong (fuel : nat) (st : State M S) :
  let st' := fst (master_pump Input Ping ResizeTerminal Pong ErrMasterClosed
                    json_Unmarshal intSize int_unrepresentable fuel st) in
  exists k : nat,
    master_writes (trace st') = master_writes (trace st) ++ replicate k [Pong].
Proof.
  cbv zeta.
  apply (master_pump_preserves Input Ping ResizeTerminal Pong ErrMasterClosed
           json_Unmarshal intSize int_unrepresentable
           (fun a b => exists k : nat,
              master_writes (trace b) = master_writes (trace a) ++ replicate k [Pong])).
  - intros a. exists 0%nat. symmetry. apply app_nil_r.
  - intros a b c [k1 H1] [k2 H2]. exists (k1 + k2)%nat.
    rewrite H2, H1, <- app_assoc, replicate_add. reflexivity.
  - intros a m. exists 0%nat. symmetry. apply app_nil_r.
  - intros data a.
    destruct (handleMasterReadEvent_effects Input Ping ResizeTerminal Pong json_Unmarshal
                intSize int_unrepresentable data a) as (_ & [Hm | Hm] & _).
    + exists 0%nat. rewrite Hm. symmetry. apply app_nil_r.
    + exists 1%nat. exact Hm.
Qed.

(** X17: the errors of the master pump.  When it returns, it returns
    [ErrMasterClosed] or the error of a refused frame: the zero-length
    read, the unknown type, the empty or malformed resize request, or a
    failed write (of the input to the slave, of the Pong to the master)
    wrapped with its context. *)
Theorem master_pump_errors (fuel : nat) (st : State M S) (err : error) :
  snd (master_pump Input Ping ResizeTerminal Pong ErrMasterClosed json_Unmarshal
         intSize int_unrepresentable fuel st) = Exited err ->
  master_pump_error ErrMasterClosed err.
Proof.
  revert st. induction fuel as [| fuel IH]; intros st; [discriminate |].
  cbn [master_pump].
  destruct (Master_Read (masterConn (wt st)) (bufferSize (wt st))) as [m [data [e |]]].
  - intros [= <-]. constructor.
  - destruct (handleMasterReadEvent_effects Input Ping ResizeTerminal Pong json_Unmarshal
                intSize int_unrepresentable data (update (set_masterConn m) st))
      as (_ & _ & _ & _ & Herr).
    destruct (handleMasterReadEvent Input Ping ResizeTerminal Pong json_Unmarshal intSize
                int_unrepresentable data (update (set_masterConn m) st)) as [st2 [e |]].
    + intros [= <-]. apply is_frame_refused, Herr. reflexivity.
    + apply IH.
Qed.



(** X19: the errors of the slave pump.  When it returns, it returns
    [ErrSlaveClosed] or the error of a write to the master, wrapped
    twice with its context. *)
Theorem slave_pump_errors (fuel : nat) (st : State M S) (err : error) :
  snd (slave_pump Output ErrSlaveClosed fuel st) = Exited err ->
  slave_pump_error ErrSlaveClosed err.
Proof.
  revert st. induction fuel as [| fuel IH]; intros st; [discriminate |].
  cbn [slave_pump].
  destruct (Slave_Read (slave (wt st)) (bufferSize (wt st))) as [s [data [e |]]].
  - intros [= <-]. constructor.
  - destruct (handleSlaveReadEvent_effects Output ErrSlaveClosed data
                (update (set_slave s) st)) as (_ & _ & _ & _ & Herr).
    destruct (handleSlaveReadEvent Output data (update (set_slave s) st)) as [st2 [e |]].
    + intros [= <-]. apply Herr. reflexivity.
    + apply IH.
Qed.

(** X20: neither pump touches the settings of the session: the window
    title, the write permission, the fixed size, the reconnect
    interval, the preferences, the buffer size and the audit user are,
    after any number of turns, what they were. *)
Theorem pumps_keep_settings (fuel : nat) (st : State M S) :
  same_settings (wt st)
    (wt (fst (master_pump Input Ping ResizeTerminal Pong ErrMasterClosed json_Unmarshal
                intSize int_unrepresentable fuel st)))
  /\ same_settings (wt st) (wt (fst (slave_pump Output ErrSlaveClosed fuel st))).
Proof.
  split.
  - apply (master_pump_preserves Input Ping ResizeTerminal Pong ErrMasterClosed
             json_Unmarshal intSize int_unrepresentable
             (fun a b => same_settings (wt a) (wt b))).
    + intros a. apply same_settings_refl.
    + intros a b c. apply same_settings_trans.
    + intros a m. repeat split.
    + intros data a.
      apply (handleMasterReadEvent_effects Input Ping ResizeTerminal Pong json_Unmarshal
               intSize int_unrepresentable data a).
  - apply (slave_pump_preserves Output ErrSlaveClosed
             (fun a b => same_settings (wt a) (wt b))).
    + intros a. apply same_settings_refl.
    + intros a b c. apply same_settings_trans.
    + intros a s. repeat split.
    + intros data a. apply (handleSlaveReadEvent_effects Output ErrSlaveClosed data a).
Qed.

End PumpFacts.

(** * The handshake, the Output frame and the constructor *)

Lemma decimal_value_json_Marshal_int (z : Z) :
  decimal_value (json_Marshal_int z) = Some z.
Proof.
  unfold decimal_value, json_Marshal_int, string_of_bytes, bytes_of_string.
  rewrite string_of_list_byte_of_string.
  rewrite DecimalString.NilZero.isi.
  - cbn [option_map]. rewrite DecimalZ.of_to. reflexivity.
  - destruct z as [| p | p]; cbn [Z.to_int]; try discriminate.
    intros [= E]. exact (DecimalPos.Unsigned.to_uint_nonnil p E).
  - destruct z as [| p | p]; cbn [Z.to_int]; try discriminate.
    intros [= E]. exact (DecimalPos.Unsigned.to_uint_nonnil p E).
Qed.

Lemma EncodeToString_length_upto (n : nat) :
  forall src : list byte, (length src <= n)%nat ->
  length (base64.EncodeToString src) = (4 * ((length src + 2) / 3))%nat.
Proof.
  induction n as [| n IH]; intros src Hlen.
  - destruct src; [reflexivity | simpl in Hlen; lia].
  - destruct src as [| a [| b [| c rest]]]; try reflexivity.
    cbn [base64.EncodeToString length].
    rewrite IH by (simpl in Hlen; lia).
    replace (Datatypes.S (Datatypes.S (Datatypes.S (length rest))) + 2)%nat
      with (length rest + 2 + 1 * 3)%nat by lia.
    rewrite Nat.div_add by lia. lia.
Qed.

Lemma EncodeToString_length (src : list byte) :
  length (base64.EncodeToString src) = (4 * ((length src + 2) / 3))%nat.
Proof. apply (EncodeToString_length_upto (length src)). lia. Qed.

Lemma EncodeToString_inj (d1 d2 : list byte) :
  base64.EncodeToString d1 = base64.EncodeToString d2 -> d1 = d2.
Proof.
  intros E. apply (f_equal base64.DecodeString) in E.
  rewrite !DecodeString_EncodeToString in E. congruence.
Qed.

Lemma master_writes_of_writes (l : list (list byte)) :
  master_writes (map MasterWrite l) = l.
Proof.
  induction l as [| x l IH]; [reflexivity |].
  change (x :: master_writes (map MasterWrite l) = x :: l). rewrite IH. reflexivity.
Qed.

Lemma slave_writes_of_master_writes (l : list (list byte)) :
  slave_writes (map MasterWrite l) = [].
Proof.
  induction l as [| x l IH]; [reflexivity | exact IH].
Qed.

Section HandshakeFacts.
Context {M S : Type} `{Master M} `{Slave S}.
Variables SetWindowTitle SetReconnect SetPreferences : byte.
Variable Output : byte.
Implicit Types st : State M S.

(** The handshake case by case: the frames written are the first [k]
    of the complete handshake, and it ends well with all of them
    written or with the error of the write of the [k]-th. *)
Lemma sendInitializeMessage_cases st :
  let r := sendInitializeMessage SetWindowTitle SetReconnect SetPreferences st in
  let frames := handshake_frames SetWindowTitle SetReconnect SetPreferences (wt st) in
  exists k : nat,
    (1 <= k <= length frames)%nat
    /\ trace (fst r) = trace st ++ map MasterWrite (take k frames)
    /\ same_settings (wt st) (wt (fst r))
    /\ ((snd r = None /\ k = length frames)
        \/ exists cause context,
             snd r = Some (errors_Wrapf (errors_Wrapf cause "failed to write to master")
                             context)
             /\ (k = 1%nat /\ context = "failed to send window title"%string
                 \/ (1 < k)%nat
                    /\ (context = "failed to set reconnect"%string
                        \/ context = "failed to set preferences"%string))).
Proof.
  cbv zeta. unfold sendInitializeMessage, handshake_frames.
  rewrite masterWrite_eq.
  set (f1 := SetWindowTitle :: windowTitle (wt st)).
  destruct (snd (Master_Write (masterConn (wt st)) f1)) as [e1 |]; cbn [option_map].
  { exists 1%nat. cbn [fst snd emit update trace wt].
    split; [destruct (0 <? reconnect (wt st)), (masterPrefs (wt st)); simpl; lia |].
    split; [reflexivity |]. split; [repeat split |].
    right. eexists _, _. split; [reflexivity |]. left. split; reflexivity. }
  set (st1 := emit (MasterWrite f1) _).
  change (reconnect (wt st1)) with (reconnect (wt st)).
  destruct (0 <? reconnect (wt st)).
  - rewrite masterWrite_eq.
    set (f2 := SetReconnect :: json_Marshal_int (reconnect (wt st))).
    destruct (snd (Master_Write (masterConn (wt st1)) f2)) as [e2 |]; cbn [option_map].
    { exists 2%nat. cbn [fst snd emit update trace wt].
      split; [destruct (masterPrefs (wt st)); simpl; lia |].
      split; [subst st1; cbn [emit update trace]; rewrite <- app_assoc; reflexivity |].
      split; [repeat split |].
      right. eexists _, _. split; [reflexivity |]. right. split; [lia | left; reflexivity]. }
    set (st2 := emit (MasterWrite f2) _).
    change (masterPrefs (wt st2)) with (masterPrefs (wt st)).
    destruct (masterPrefs (wt st)) as [prefs |].
    + rewrite masterWrite_eq.
      destruct (snd (Master_Write (masterConn (wt st2)) (SetPreferences :: prefs)))
        as [e3 |]; cbn [option_map];
        exists 3%nat; cbn [fst snd emit update trace wt];
        (split; [simpl; lia |]);
        (split; [subst st2 st1; cbn [emit update trace]; rewrite <- !app_assoc;
                 reflexivity |]);
        (split; [repeat split |]).
      * right. eexists _, _. split; [reflexivity |]. right. split; [lia | right; reflexivity].
      * left. split; reflexivity.
    + exists 2%nat. cbn [fst snd].
      split; [simpl; lia |].
      split; [subst st2 st1; cbn [emit update trace]; rewrite <- !app_assoc; reflexivity |].
      split; [repeat split |]. left. split; reflexivity.
  - change (masterPrefs (wt st1)) with (masterPrefs (wt st)).
    destruct (masterPrefs (wt st)) as [prefs |].
    + rewrite masterWrite_eq.
      destruct (snd (Master_Write (masterConn (wt st1)) (SetPreferences :: prefs)))
        as [e3 |]; cbn [option_map];
        exists 2%nat; cbn [fst snd emit update trace wt];
        (split; [simpl; lia |]);
        (split; [subst st1; cbn [emit update trace]; rewrite <- !app_assoc;
                 reflexivity |]);
        (split; [repeat split |]).
      * right. eexists _, _. split; [reflexivity |]. right. split; [lia | right; reflexivity].
      * left. split; reflexivity.
    + exists 1%nat. cbn [fst snd].
      split; [simpl; lia |]. split; [reflexivity |].
      split; [repeat split |]. left. split; reflexivity.
Qed.

(** X21: the handshake goes out in order and without gaps.  The
    frames written are the first [k] of: the window title, the
    reconnect interval when it is above zero, the preferences when
    there are some; at least the title is tried; if no error is
    returned all of them were written; nothing but these writes is
    added to the trace and the settings are kept. *)
Theorem handshake_in_order (st : State M S) :
  let r := sendInitializeMessage SetWindowTitle SetReconnect SetPreferences st in
  let frames := handshake_frames SetWindowTitle SetReconnect SetPreferences (wt st) in
  exists k : nat,
    (1 <= k <= length frames)%nat
    /\ trace (fst r) = trace st ++ map MasterWrite (take k frames)
    /\ master_writes (trace (fst r)) = master_writes (trace st) ++ take k frames
    /\ slave_writes (trace (fst r)) = slave_writes (trace st)
    /\ (snd r = None -> k = length frames)
    /\ same_settings (wt st) (wt (fst r)).
Proof.
  cbv zeta.
  destruct (sendInitializeMessage_cases st) as (k & Hk & Ht & Hs & Hend).
  exists k. split; [exact Hk |]. split; [exact Ht |].
  pose proof master_writes_of_writes as Hmw.
  pose proof slave_writes_of_master_writes as Hsw.
  split; [unfold master_writes in *; rewrite Ht, omap_app, Hmw; reflexivity |].
  split; [unfold slave_writes in *; rewrite Ht, omap_app, Hsw; apply app_nil_r |].
  split; [| exact Hs].
  intros Hnone. destruct Hend as [[_ Hall] | (cause & context & Herr & _)];
    [exact Hall | congruence].
Qed.

(** X22: the errors of the handshake.  An error is the error of a
    write to the master, wrapped twice: with "failed to write to
    master" and with the name of the step, which is that of the window
    title exactly when no other frame was tried. *)
Theorem handshake_errors (st : State M S) (err : error) :
  let r := sendInitializeMessage SetWindowTitle SetReconnect SetPreferences st in
  snd r = Some err ->
  exists cause context,
    err = errors_Wrapf (errors_Wrapf cause "failed to write to master") context
    /\ In context ["failed to send window title"; "failed to set reconnect";
                   "failed to set preferences"]%string
    /\ (context = "failed to send window title"%string <->
        master_writes (trace (fst r))
        = master_writes (trace st) ++ [SetWindowTitle :: windowTitle (wt st)]).
Proof.
  cbv zeta. intros Herr.
  destruct (sendInitializeMessage_cases st) as (k & Hk & Ht & _ & Hend).
  destruct Hend as [[Hnone _] | (cause & context & Hsome & Hctx)]; [congruence |].
  rewrite Hsome in Herr. injection Herr as <-.
  exists cause, context. split; [reflexivity |].
  pose proof master_writes_of_writes as Hmw.
  assert (Hw : master_writes (trace (fst (sendInitializeMessage SetWindowTitle SetReconnect
                                            SetPreferences st)))
               = master_writes (trace st)
                 ++ take k (handshake_frames SetWindowTitle SetReconnect SetPreferences
                              (wt st))).
  { unfold master_writes in *. rewrite Ht, omap_app, Hmw. reflexivity. }
  rewrite Hw.
  destruct Hctx as [[-> ->] | [Hk1 Hc]].
  - split; [left; reflexivity |]. split; [intros _; reflexivity | reflexivity].
  - split; [destruct Hc as [-> | ->]; simpl; auto |].
    split.
    + intros ->. destruct Hc as [Hc | Hc]; discriminate Hc.
    + intros Heq. apply app_inv_head in Heq.
      apply (f_equal length) in Heq. rewrite length_take in Heq.
      cbn [length] in Heq. lia.
Qed.

(** X23: the reconnect interval can be read back from the handshake.
    When the interval is above zero and the handshake ends well, the
    second frame written is the SetReconnect byte before the decimal
    digits of the interval. *)
Theorem reconnect_frame_reads_back (st : State M S) :
  0 < reconnect (wt st) ->
  let r := sendInitializeMessage SetWindowTitle SetReconnect SetPreferences st in
  snd r = None ->
  exists payload rest,
    master_writes (trace (fst r))
    = master_writes (trace st)
      ++ (SetWindowTitle :: windowTitle (wt st)) :: (SetReconnect :: payload) :: rest
    /\ decimal_value payload = Some (reconnect (wt st)).
Proof.
  intros Hpos. cbv zeta. intros Hnone.
  destruct (sendInitializeMessage_cases st) as (k & Hk & Ht & _ & Hend).
  destruct Hend as [[_ Hall] | (cause & context & Hsome & _)]; [| congruence].
  subst k. rewrite firstn_all in Ht.
  pose proof master_writes_of_writes as Hmw.
  exists (json_Marshal_int (reconnect (wt st))).
  exists (match masterPrefs (wt st) with
          | Some prefs => [SetPreferences :: prefs]
          | None => []
          end).
  split; [| apply decimal_value_json_Marshal_int].
  unfold master_writes in *. rewrite Ht, omap_app, Hmw.
  unfold handshake_frames. apply Z.ltb_lt in Hpos. rewrite Hpos. reflexivity.
Qed.

(** X24: an Output frame loses nothing and has a known size.  Two
    chunks with the same frame are the same chunk, and the frame of a
    chunk of [n] bytes has [1 + 4 * ceil(n / 3)] bytes. *)
Theorem Output_frame_faithful (d1 d2 : list byte) (st1 st2 : State M S) :
  let sent (d : list byte) (st : State M S) :=
    last (master_writes (trace (fst (handleSlaveReadEvent Output d st)))) in
  (sent d1 st1 = sent d2 st2 -> d1 = d2)
  /\ (exists frame, sent d1 st1 = Some frame
                    /\ length frame = (1 + 4 * ((length d1 + 2) / 3))%nat).
Proof.
  cbv beta zeta.
  assert (Hsent : forall d (st : State M S),
            last (master_writes (trace (fst (handleSlaveReadEvent Output d st))))
            = Some (Output :: base64.EncodeToString d)).
  { intros d st. rewrite handleSlaveReadEvent_eq. cbn [fst emit update trace].
    unfold master_writes. rewrite omap_app. simpl. apply last_snoc. }
  rewrite !Hsent. split.
  - intros [= E]. apply EncodeToString_inj, E.
  - eexists. split; [reflexivity |]. cbn [length]. rewrite EncodeToString_length. lia.
Qed.

(** X25: the constructor.  [New] never fails; it applies its options
    in the order given, each to the session the options before it made;
    with no option the session has no write permission, no fixed size
    and chunks of 1024 bytes, and so drops every Input frame: nothing is
    written to the slave and no error is returned. *)
Theorem New_defaults (Input Ping ResizeTerminal Pong : byte)
    (json_Unmarshal : list byte -> error + argResizeTerminal)
    (intSize : Z) (int_unrepresentable : float64 -> Z) (m : M) (s : S) :
  (forall options, snd (New m s options) = None)
  /\ (forall options (o : Option),
        fst (New m s (options ++ [o])) = o (fst (New m s options)))
  /\ (let w := fst (New m s []) in
      permitWrite w = false /\ columns w = 0 /\ rows w = 0 /\ bufferSize w = 1024
      /\ auditBuffer w = [] /\ waitForAutocomplete w = false)
  /\ (forall (payload : list byte) (tr : list Event),
        let r := handleMasterReadEvent Input Ping ResizeTerminal Pong json_Unmarshal
                   intSize int_unrepresentable (Input :: payload)
                   (mkState (fst (New m s [])) tr) in
        snd r = None /\ slave_writes (trace (fst r)) = slave_writes tr).
Proof.
  split; [reflexivity |].
  split; [intros options o; unfold New; cbn [fst]; rewrite fold_left_app; reflexivity |].
  split; [repeat split |].
  intros payload tr. cbv zeta. cbn [handleMasterReadEvent].
  set (st := mkState (fst (New m s [])) tr).
  pose proof (audit_audit_only "recive" payload st) as Ha.
  destruct (audit_only_session _ _ Ha) as (_ & _ & Hperm & _).
  destruct (audit_only_calls _ _ Ha) as (_ & Hsw & _).
  rewrite dispatch_Input, Hperm. cbn [fst snd]. split; [reflexivity | exact Hsw].
Qed.

End HandshakeFacts.

(** * A CR in a received chunk *)

(** ** What [strings.Replace] removes *)

Lemma prefix_split (old s : string) :
  String.prefix old s = true -> exists rest, s = (old ++ rest)%string.
Proof.
  revert s. induction old as [| c old IH]; intros s H.
  - exists s. reflexivity.
  - destruct s as [| d s]; [discriminate H |].
    cbn [String.prefix] in H. destruct (ascii_dec c d) as [-> |]; [| discriminate H].
    destruct (IH s H) as [rest ->]. exists rest. reflexivity.
Qed.

Lemma prefix_of_longer (old a b : string) :
  String.prefix old (a ++ b) = false -> String.prefix old a = false.
Proof.
  intros H. destruct (String.prefix old a) eqn:E; [| reflexivity].
  destruct (prefix_split old a E) as [rest ->].
  rewrite string_app_assoc, prefix_append in H. discriminate H.
Qed.

Lemma concat_cons (sep p : string) (ps : list string) :
  ps <> [] ->
  String.concat sep (p :: ps) = (p ++ sep ++ String.concat sep ps)%string.
Proof. destruct ps; [contradiction | reflexivity]. Qed.

(** The text [s] is cut at the occurrences of [old] that the scan from
    the left finds: the pieces between them hold no occurrence, [s] is
    the pieces with [old] between them, and the result of the
    replacement by the empty text is the pieces put together. *)
Lemma strings_Replace_pieces_upto (old : string) (k : nat) :
  old <> ""%string ->
  forall s, (String.length s <= k)%nat ->
  exists pieces : list string,
    pieces <> []
    /\ s = String.concat old pieces
    /\ strings_Replace s old "" = String.concat "" pieces
    /\ Forall (fun p => occurs old p = false) pieces.
Proof.
  intros Hne. induction k as [| k IH]; intros s Hlen.
  - destruct s; [| simpl in Hlen; lia].
    exists [""%string]. repeat split; [discriminate | repeat constructor].
  - destruct s as [| c s].
    { exists [""%string]. repeat split; [discriminate | repeat constructor]. }
    destruct (String.prefix old (String c s)) eqn:Hp.
    + destruct (prefix_split _ _ Hp) as [rest Hs].
      assert (Hold : (1 <= String.length old)%nat) by (destruct old; [contradiction | simpl; lia]).
      assert (Hrest : (String.length rest <= k)%nat).
      { apply (f_equal String.length) in Hs. rewrite string_length_app in Hs.
        simpl in Hs, Hlen. lia. }
      destruct (IH rest Hrest) as (ps & Hps & Hcat & Hrep & Hall).
      exists (""%string :: ps). rewrite Hs.
      split; [discriminate |].
      split; [rewrite (concat_cons old "" ps Hps), <- Hcat; reflexivity |].
      split.
      * rewrite (strings_Replace_match old "" rest Hne), Hrep.
        rewrite (concat_cons "" "" ps Hps). reflexivity.
      * constructor; [reflexivity | exact Hall].
    + assert (Hs : (String.length s <= k)%nat) by (simpl in Hlen; lia).
      destruct (IH s Hs) as (ps & Hps & Hcat & Hrep & Hall).
      destruct ps as [| p ps]; [contradiction |].
      exists (String c p :: ps).
      split; [discriminate |].
      assert (Hhead : forall sep, String.concat sep (String c p :: ps)
                                  = String c (String.concat sep (p :: ps))).
      { intros sep. destruct ps; reflexivity. }
      split; [rewrite Hhead, <- Hcat; reflexivity |].
      split; [rewrite (strings_Replace_keep old "" c s Hp), Hrep, Hhead; reflexivity |].
      apply Forall_cons in Hall as [Hp0 Hrest].
      constructor; [| exact Hrest].
      cbn [occurs]. rewrite Hp0, orb_false_r.
      destruct ps as [| q ps].
      * cbn [String.concat] in Hcat. subst s. exact Hp.
      * apply (prefix_of_longer old (String c p) (old ++ String.concat old (q :: ps))).
        rewrite Hcat in Hp. exact Hp.
Qed.

Lemma strings_Replace_pieces (old s : string) :
  old <> ""%string ->
  exists pieces : list string,
    pieces <> []
    /\ s = String.concat old pieces
    /\ strings_Replace s old "" = String.concat "" pieces
    /\ Forall (fun p => occurs old p = false) pieces.
Proof.
  intros Hne. apply (strings_Replace_pieces_upto old (String.length s) Hne s). lia.
Qed.

Lemma prompt_not_empty : prompt <> ""%string.
Proof. discriminate. Qed.

(** ** The loop up to the CR *)

Section ChunkWithCR.
Context {M S : Type}.
Implicit Types st : State M S.

(** A byte that is neither a CR at index 0 nor at the last index: the
    loop goes on; a plain byte has joined the buffer, a TAB has raised
    the flag, and no record is written. *)
Lemma recive_byte_inside n i (b : byte) st :
  (i = 0 -> byte_is b 13 = false) -> i <> n - 1 ->
  exists st1,
    recive_byte n i b st = (st1, Continue)
    /\ auditBuffer (wt st1) = auditBuffer (wt st) ++ (if plain b then [b] else [])
    /\ waitForAutocomplete (wt st1) = waitForAutocomplete (wt st) || byte_is b 9
    /\ audit_fields st1 = audit_fields st
    /\ audit_records (trace st1) = audit_records (trace st).
Proof.
  intros Hfirst Hlast.
  destruct (byte_is b 9) eqn:H9.
  { rewrite (recive_byte_is_TAB n i b st H9). eexists. split; [reflexivity |].
    unfold plain. rewrite H9. cbn [negb andb update wt auditBuffer waitForAutocomplete
                                   set_waitForAutocomplete trace].
    rewrite app_nil_r, orb_true_r. repeat split. }
  destruct (byte_is b 8) eqn:H8.
  { rewrite (recive_byte_is_BS n i b st H8). eexists. split; [reflexivity |].
    unfold plain. rewrite H9, H8. cbn [negb andb].
    rewrite app_nil_r, orb_false_r. repeat split. }
  destruct (byte_is b 13) eqn:H13.
  { assert (Hb : b = x0d) by (apply byte_is_iff, byte_of_value in H13; exact H13).
    subst b.
    rewrite recive_byte_CR_other by (intros [Hc _]; contradiction).
    destruct (Z.eqb_spec i 0) as [Hi |]; [specialize (Hfirst Hi); discriminate Hfirst |].
    eexists. split; [reflexivity |].
    change (plain x0d) with false. rewrite app_nil_r, orb_false_r. repeat split. }
  assert (Hpl : plain b = true) by (unfold plain; rewrite H9, H8, H13; reflexivity).
  rewrite (recive_byte_plain n i b st Hpl). eexists. split; [reflexivity |].
  rewrite Hpl, orb_false_r. cbn [update wt auditBuffer set_auditBuffer trace].
  split; [reflexivity |]. split; [reflexivity |]. split; [reflexivity |].
  apply audit_records_emit_debug.
Qed.

(** The bytes [pre] of a chunk of [n] bytes that come before a later
    byte of it, none of them a CR at index 0: the loop passes them
    without leaving, and arrives at the later byte with the plain bytes
    of [pre] added to the buffer and no record written. *)
Lemma recive_range_prefix n (pre rest : list byte) :
  forall i st,
  0 <= i -> i + len pre < n -> (i = 0 -> first_is_CR pre = false) ->
  let met := recive_range n i pre st in
  recive_range n i (pre ++ rest) st = recive_range n (i + len pre) rest met
  /\ auditBuffer (wt met) = auditBuffer (wt st) ++ List.filter plain pre
  /\ waitForAutocomplete (wt met) = waitForAutocomplete (wt st) || has_TAB pre
  /\ audit_fields met = audit_fields st
  /\ audit_records (trace met) = audit_records (trace st).
Proof.
  induction pre as [| b pre IH]; intros i st Hi Hn Hfirst; cbv zeta.
  - cbn [recive_range app has_TAB existsb List.filter].
    unfold len. cbn [length]. rewrite Z.add_0_r, app_nil_r, orb_false_r. repeat split.
  - rewrite len_cons in Hn. pose proof (len_nonneg pre) as Hpre.
    destruct (recive_byte_inside n i b st) as (st1 & Hstep & Hbuf & Hw & Hf & Hrec).
    { intros Hi0. specialize (Hfirst Hi0). unfold first_is_CR, at_is in Hfirst.
      simpl in Hfirst. exact Hfirst. }
    { lia. }
    cbn [recive_range app]. rewrite Hstep.
    destruct (IH (i + 1) st1) as (Hrun & Hbuf' & Hw' & Hf' & Hrec'); [lia | lia | lia |].
    split; [rewrite Hrun, len_cons; f_equal; lia |].
    split.
    { rewrite Hbuf', Hbuf. cbn [List.filter].
      destruct (plain b); rewrite <- app_assoc; reflexivity. }
    split.
    { rewrite Hw', Hw. cbn [has_TAB existsb]. rewrite orb_assoc. reflexivity. }
    split; [rewrite Hf', Hf; reflexivity | rewrite Hrec', Hrec; reflexivity].
Qed.

(** C5: a received chunk [pre ++ CR :: post] that passes the filter and
    whose loop reaches the CR ([pre] does not start with a CR, at which
    the loop would have left).  [met] is the state in which the loop
    meets the CR: its buffer [buf] is the buffer before the chunk and
    the plain bytes of [pre], and no audit record has been written.
    (1) The CR is the last byte and [buf] is not empty: the CR adds one
    entry to the log, the info record of the session's user with the
    text of [buf] from which the occurrences of the prompt are removed
    ([buf] is the pieces with the prompt between them, none of the
    pieces holds the prompt, the text is the pieces put together; a
    buffer without the prompt is recorded as it is), and the buffer is
    emptied.  (2) Otherwise, the CR is the first byte: the audit ends
    with the debug note of the skip whatever follows the CR; buffer and
    flag are as before the chunk and no audit record is written.
    (3) Otherwise: the CR leaves the state as it met it, and the loop
    goes on with the bytes behind it. *)
Theorem CR_in_received_chunk (pre post : list byte) (st : State M S) :
  let msg := pre ++ x0d :: post in
  let st0 :=
    log_Debug [VTime; VString (auditUser (wt st)); VString "--- ASCII返回:";
               VString (asciiToString msg)] st in
  let met := recive_range (len msg) 0 pre st0 in
  let buf := auditBuffer (wt met) in
  let st' := audit "recive" msg st in
  filterASCII "recive" msg = true ->
  first_is_CR pre = false ->
  (buf = auditBuffer (wt st) ++ List.filter plain pre
   /\ audit_records (trace met) = audit_records (trace st))
  /\ (post = [] /\ buf <> [] ->
      exists (text : string) (pieces : list string),
        let record :=
          mkEntry InfoLevel
            [("time"%string, VTime); ("user"%string, VString (auditUser (wt st)))]
            [VString "msg="; VString text] in
        st' = update (set_auditBuffer []) (emit (Log record) met)
        /\ trace st' = trace met ++ [Log record]
        /\ audit_records (trace st') = audit_records (trace st) ++ [record]
        /\ auditBuffer (wt st') = []
        /\ pieces <> []
        /\ string_of_bytes buf = String.concat prompt pieces
        /\ text = String.concat "" pieces
        /\ Forall (fun p => occurs prompt p = false) pieces
        /\ (occurs prompt (string_of_bytes buf) = false -> text = string_of_bytes buf))
  /\ (~ (post = [] /\ buf <> []) -> pre = [] ->
      st' = log_Debug [VString "---- 开头返回换行，跳过"] st0
      /\ auditBuffer (wt st') = auditBuffer (wt st)
      /\ waitForAutocomplete (wt st') = waitForAutocomplete (wt st)
      /\ audit_records (trace st') = audit_records (trace st))
  /\ (~ (post = [] /\ buf <> []) -> pre <> [] ->
      recive_range (len msg) 0 (pre ++ [x0d]) st0 = met
      /\ st' = recive_range (len msg) (len pre + 1) post met).
Proof.
  intros msg st0 met buf st' Hfilter Hfirst.
  assert (Hn : len msg = len pre + 1 + len post).
  { subst msg. unfold len. rewrite length_app. cbn [length]. lia. }
  pose proof (len_nonneg pre) as Hpre. pose proof (len_nonneg post) as Hpost.
  assert (Hrun : st' = recive_range (len msg) (len pre) (x0d :: post) met
                 /\ recive_range (len msg) 0 (pre ++ [x0d]) st0
                    = recive_range (len msg) (len pre) [x0d] met
                 /\ buf = auditBuffer (wt st) ++ List.filter plain pre
                 /\ audit_fields met = audit_fields st
                 /\ audit_records (trace met) = audit_records (trace st)).
  { destruct (recive_range_prefix (len msg) pre (x0d :: post) 0 st0)
      as (Hrun & Hbuf & _ & Hf & Hrec); [lia | lia | intros _; exact Hfirst |].
    destruct (recive_range_prefix (len msg) pre [x0d] 0 st0)
      as (Hrun1 & _); [lia | lia | intros _; exact Hfirst |].
    rewrite Z.add_0_l in Hrun, Hrun1.
    split; [| split; [exact Hrun1 | split; [exact Hbuf | split; [exact Hf |]]]].
    - subst st'. unfold audit. rewrite Hfilter. cbn [negb].
      change (String.eqb "recive" "send") with false.
      change (String.eqb "recive" "recive") with true. cbv iota.
      assert (Hlen : (0 <? len msg) = true) by (apply Z.ltb_lt; lia).
      rewrite Hlen. exact Hrun.
    - transitivity (audit_records (trace st0));
        [exact Hrec | apply audit_records_emit_debug]. }
  destruct Hrun as (Hst' & Hupto & Hbuf & Hfields & Hrec).
  split; [split; [exact Hbuf | exact Hrec] |].
  split; [| split].
  - intros [Hpost_nil Hne].
    destruct (strings_Replace_pieces prompt (string_of_bytes buf) prompt_not_empty)
      as (pieces & Hps & Hcat & Hrep & Hall).
    exists (strings_Replace (string_of_bytes buf) prompt ""), pieces. cbv zeta.
    assert (Hlast : len pre = len msg - 1).
    { rewrite Hn, Hpost_nil. unfold len. cbn [length]. lia. }
    assert (Hcr : st' = update (set_auditBuffer []) (emit (Log (audit_record met)) met)).
    { rewrite Hst', Hpost_nil. cbn [recive_range].
      rewrite Hlast, (recive_byte_CR_last (len msg) met Hne). reflexivity. }
    assert (Hentry : audit_record met
                     = mkEntry InfoLevel
                         [("time"%string, VTime);
                          ("user"%string, VString (auditUser (wt st)))]
                         [VString "msg=";
                          VString (strings_Replace (string_of_bytes buf) prompt "")]).
    { unfold audit_record. rewrite Hfields. reflexivity. }
    rewrite Hentry in Hcr. rewrite Hcr.
    split; [reflexivity |]. split; [reflexivity |].
    split.
    { cbn [update emit trace]. unfold audit_records in *. rewrite omap_app, Hrec.
      reflexivity. }
    split; [reflexivity |]. split; [exact Hps |]. split; [exact Hcat |].
    split; [exact Hrep |]. split; [exact Hall |].
    intros Habsent. apply strings_Replace_absent, Habsent.
  - intros Hnot Hpre_nil.
    assert (Hmet : met = st0) by (subst met; rewrite Hpre_nil; reflexivity).
    assert (Hskip : st' = log_Debug [VString "---- 开头返回换行，跳过"] st0).
    { rewrite Hst'. cbn [recive_range].
      rewrite recive_byte_CR_other.
      - rewrite Hpre_nil, Hmet. reflexivity.
      - intros [Hi Hb]. apply Hnot. split; [| exact Hb].
        destruct post; [reflexivity |]. rewrite len_cons in Hn.
        pose proof (len_nonneg post). lia. }
    rewrite Hskip. split; [reflexivity |]. split; [reflexivity |].
    split; [reflexivity |].
    rewrite audit_records_emit_debug. apply audit_records_emit_debug.
  - intros Hnot Hpre_ne.
    assert (Hpos : len pre <> 0).
    { unfold len. destruct pre; [contradiction | cbn [length]; lia]. }
    assert (Hstep : recive_byte (len msg) (len pre) x0d met = (met, Continue)).
    { rewrite recive_byte_CR_other.
      - destruct (Z.eqb_spec (len pre) 0); [contradiction | reflexivity].
      - intros [Hi Hb]. apply Hnot. split; [| exact Hb].
        destruct post; [reflexivity |]. rewrite len_cons in Hn.
        pose proof (len_nonneg post). lia. }
    split.
    + rewrite Hupto. cbn [recive_range]. rewrite Hstep. reflexivity.
    + rewrite Hst'. cbn [recive_range]. rewrite Hstep. reflexivity.
Qed.

End ChunkWithCR.

(** * The model at work

    The scenarios of the specification and one instance of each
    theorem, on the scripted session. *)

Section Scenarios.
Import Scripted.

Lemma Ping_is_not_Input : Ping <> Input.
Proof. discriminate. Qed.

Lemma ResizeTerminal_is_not_Input : ResizeTerminal <> Input.
Proof. discriminate. Qed.

Lemma ResizeTerminal_is_not_Ping : ResizeTerminal <> Ping.
Proof. discriminate. Qed.

(** The keystrokes [l], [s], CR in one chunk: one record, [ls], and
    an empty buffer afterwards. *)
Example audit_ls_CR :
  let st' := audit "recive" (bytes_of_string "ls" ++ [x0d]) (session true 0 0 quiet quiet) in
  audit_records (trace st')
  = [mkEntry InfoLevel [("time", VTime); ("user", VString "root")]%string
       [VString "msg="; VString "ls"]]
  /\ auditBuffer (wt st') = [].
Proof. split; reflexivity. Qed.

(** CR first, then [x]: the chunk is dropped. *)
Example audit_CR_x :
  let st' := audit "recive" [x0d; x78] (typed "ls") in
  audit_records (trace st') = [] /\ auditBuffer (wt st') = bytes_of_string "ls".
Proof. split; reflexivity. Qed.

(** The prompt that an autocompletion brought into the buffer is not
    part of the record. *)
Example audit_prompt_removed :
  let st1 := audit "recive" [x09] (session true 0 0 quiet quiet) in
  let st2 := audit "send" (bytes_of_string "sh-4.3# ls") st1 in
  let st3 := audit "recive" [x0d] st2 in
  auditBuffer (wt st2) = bytes_of_string "sh-4.3# ls"
  /\ audit_records (trace st3)
     = [mkEntry InfoLevel [("time", VTime); ("user", VString "root")]%string
          [VString "msg="; VString " ls"]].
Proof. split; reflexivity. Qed.

(** A lone CR that meets a buffer with content is both the first and
    the last byte: the record is written. *)
Example audit_lone_CR :
  let st' := audit "recive" [x0d] (typed "ls") in
  auditBuffer (wt st') = []
  /\ audit_records (trace st')
     = [mkEntry InfoLevel [("time", VTime); ("user", VString "root")]%string
          [VString "msg="; VString "ls"]].
Proof. split; reflexivity. Qed.

(** The request [{"columns":80,"rows":24}] on a session with no fixed
    size: one resize, to 80 by 24. *)
Example resize_80_24 :
  let r := handleMaster (ResizeTerminal :: resize_request "80" "24")
             (session false 0 0 quiet quiet) in
  snd r = None /\ resizes (trace (fst r)) = [(80, 24)].
Proof. split; reflexivity. Qed.

(** [Input ++ "rm -rf /"] on a session without write permission: no
    write, no error. *)
Example input_refused :
  let r := handleMaster (Input :: bytes_of_string "rm -rf /")
             (session false 0 0 quiet quiet) in
  snd r = None /\ slave_writes (trace (fst r)) = [].
Proof. split; reflexivity. Qed.

(** A read of no bytes from the master is refused before any audit. *)
Example zero_length_frame :
  handleMaster [] (typed "ls")
  = (typed "ls", Some (errors_New "unexpected zero length read from master")).
Proof. reflexivity. Qed.

(** A type byte that is none of the three is refused by name. *)
Example unknown_type :
  snd (handleMaster [x39] (session true 0 0 quiet quiet))
  = Some (errors_Errorf "unknown message type `%c`" x39).
Proof. reflexivity. Qed.

(** CR LF alone is noise in both directions. *)
Example bare_CRLF :
  audit "send" [x0d; x0a] (typed "ls") = typed "ls"
  /\ audit "recive" [x0d; x0a] (typed "ls") = typed "ls".
Proof. split; reflexivity. Qed.

(** C1 at work: without permission nothing is written; with it, the
    payload is. *)
Lemma Input_forwarded_iff_permitted_witness :
  (let r := handleMaster (Input :: bytes_of_string "rm -rf /")
              (session false 0 0 quiet quiet) in
   fst r = audit "recive" (bytes_of_string "rm -rf /") (session false 0 0 quiet quiet)
   /\ snd r = None /\ slave_writes (trace (fst r)) = [])
  /\ slave_writes (trace (fst (handleMaster (Input :: bytes_of_string "ls")
                                 (session true 0 0 quiet quiet))))
     = [bytes_of_string "ls"].
Proof.
  split.
  - apply (Input_forwarded_iff_permitted (M := Endpoint) (S := Endpoint)
             Input Ping ResizeTerminal Pong json_Unmarshal intSize int_unrepresentable
             (bytes_of_string "rm -rf /") (session false 0 0 quiet quiet)).
    intros [Hp _]. discriminate Hp.
  - apply (Input_forwarded_iff_permitted (M := Endpoint) (S := Endpoint)
             Input Ping ResizeTerminal Pong json_Unmarshal intSize int_unrepresentable
             (bytes_of_string "ls") (session true 0 0 quiet quiet)).
    split; [reflexivity | discriminate].
Defined.

(** C2 at work: the bytes [hi] go to the master as [1aGk=]. *)
Lemma Output_frame_is_base64_witness :
  master_writes (trace (fst (handleSlave (bytes_of_string "hi")
                               (session true 0 0 quiet quiet))))
  = [Output :: bytes_of_string "aGk="].
Proof.
  exact (proj1 (proj2 (Output_frame_is_base64 (M := Endpoint) (S := Endpoint)
                         Output (bytes_of_string "hi") (session true 0 0 quiet quiet)))).
Defined.

(** C3 at work: with no fixed size, the empty payload and a text that
    is not JSON are both refused. *)
Lemma malformed_resize_rejected_unless_fixed_witness :
  snd (handleMaster [ResizeTerminal] (session false 0 0 quiet quiet))
  = Some (errors_New "received malformed remote command for terminal resize: empty payload")
  /\ snd (handleMaster (ResizeTerminal :: bytes_of_string "{") (session false 80 0 quiet quiet))
     = Some (errors_Wrapf (Foreign "json: cannot decode the resize request")
               "received malformed data for terminal resize").
Proof.
  split.
  - apply (malformed_resize_rejected_unless_fixed (M := Endpoint) (S := Endpoint)
             Input Ping ResizeTerminal Pong ErrMasterClosed json_Unmarshal intSize
             int_unrepresentable [] (session false 0 0 quiet quiet)
             ResizeTerminal_is_not_Input ResizeTerminal_is_not_Ping).
    + left. reflexivity.
    + left. reflexivity.
    + reflexivity.
  - apply (malformed_resize_rejected_unless_fixed (M := Endpoint) (S := Endpoint)
             Input Ping ResizeTerminal Pong ErrMasterClosed json_Unmarshal intSize
             int_unrepresentable (bytes_of_string "{") (session false 80 0 quiet quiet)
             ResizeTerminal_is_not_Input ResizeTerminal_is_not_Ping).
    + right. eexists. reflexivity.
    + right. reflexivity.
    + discriminate.
    + reflexivity.
Defined.

(** C3 as stated fails: with both dimensions fixed, a ResizeTerminal
    frame with an empty payload is accepted, no error is returned. *)
Lemma empty_resize_accepted_when_fixed :
  let r := handleMaster [ResizeTerminal] (session false 80 24 quiet quiet) in
  snd r = None /\ ~ (exists err, snd r = Some err).
Proof.
  split; [reflexivity |]. intros [err Herr]. discriminate Herr.
Qed.

(** C4 at work: the request for 80 by 24 on a session with no fixed
    size, and on one whose columns are fixed at 100. *)
Lemma well_formed_resize_applied_once_witness :
  resizes (trace (fst (handleMaster (ResizeTerminal :: resize_request "80" "24")
                         (session false 0 0 quiet quiet))))
  = [(80, 24)]
  /\ resizes (trace (fst (handleMaster (ResizeTerminal :: resize_request "80" "24")
                            (session false 100 0 quiet quiet))))
     = [(100, 24)].
Proof.
  split.
  - apply (well_formed_resize_applied_once (M := Endpoint) (S := Endpoint)
             Input Ping ResizeTerminal Pong json_Unmarshal intSize int_unrepresentable
             (resize_request "80" "24")
             (mkArgResizeTerminal (float64_of_Z 80) (float64_of_Z 24))
             (session false 0 0 quiet quiet)
             ResizeTerminal_is_not_Input ResizeTerminal_is_not_Ping).
    + discriminate.
    + reflexivity.
    + intros [Hc _]. apply Hc. reflexivity.
  - apply (well_formed_resize_applied_once (M := Endpoint) (S := Endpoint)
             Input Ping ResizeTerminal Pong json_Unmarshal intSize int_unrepresentable
             (resize_request "80" "24")
             (mkArgResizeTerminal (float64_of_Z 80) (float64_of_Z 24))
             (session false 100 0 quiet quiet)
             ResizeTerminal_is_not_Input ResizeTerminal_is_not_Ping).
    + discriminate.
    + reflexivity.
    + intros [_ Hr]. apply Hr. reflexivity.
Defined.

(** C5 at work.  The buffer holds the prompt; [l], [s], CR arrive in
    one chunk: one record, [ls], the text without the prompt, and an
    empty buffer.  The buffer holds [ls]; CR, [x] arrive in one chunk:
    nothing is recorded and the buffer is as it was. *)
Lemma CR_in_received_chunk_witness :
  (filterASCII "recive" (bytes_of_string "ls" ++ [x0d]) = true
   /\ first_is_CR (bytes_of_string "ls") = false
   /\ exists pieces : list string,
        let st' := audit "recive" (bytes_of_string "ls" ++ [x0d]) (typed "sh-4.3#") in
        audit_records (trace st')
        = [mkEntry InfoLevel [("time", VTime); ("user", VString "root")]%string
             [VString "msg="; VString "ls"]]
        /\ auditBuffer (wt st') = []
        /\ "sh-4.3#ls"%string = String.concat prompt pieces
        /\ "ls"%string = String.concat "" pieces
        /\ Forall (fun p => occurs prompt p = false) pieces)
  /\ (filterASCII "recive" ([] ++ x0d :: bytes_of_string "x") = true
      /\ first_is_CR [] = false
      /\ let st' := audit "recive" ([] ++ x0d :: bytes_of_string "x") (typed "ls") in
         auditBuffer (wt st') = bytes_of_string "ls"
         /\ audit_records (trace st') = []).
Proof.
  split.
  - assert (Hf : filterASCII "recive" (bytes_of_string "ls" ++ [x0d]) = true)
      by reflexivity.
    assert (Hc : first_is_CR (bytes_of_string "ls") = false) by reflexivity.
    split; [exact Hf |]. split; [exact Hc |].
    pose proof (CR_in_received_chunk (M := Endpoint) (S := Endpoint)
                  (bytes_of_string "ls") [] (typed "sh-4.3#") Hf Hc) as H.
    cbv zeta in H. destruct H as (_ & Hrecord & _).
    destruct Hrecord as (text & pieces & _ & _ & Hrec & Hbuf & _ & Hcat & Htext & Hall & _).
    { split; [reflexivity | discriminate]. }
    exists pieces. cbv zeta.
    assert (Hls : text = "ls"%string).
    { vm_compute in Hrec. injection Hrec as Hrec. symmetry. exact Hrec. }
    rewrite Hls in Hrec, Htext.
    split; [exact Hrec |]. split; [exact Hbuf |].
    split; [exact Hcat |]. split; [exact Htext | exact Hall].
  - assert (Hf : filterASCII "recive" ([] ++ x0d :: bytes_of_string "x") = true)
      by reflexivity.
    assert (Hc : first_is_CR [] = false) by reflexivity.
    split; [exact Hf |]. split; [exact Hc |].
    pose proof (CR_in_received_chunk (M := Endpoint) (S := Endpoint)
                  [] (bytes_of_string "x") (typed "ls") Hf Hc) as H.
    cbv zeta in H. destruct H as (_ & _ & Hskip & _).
    destruct Hskip as (_ & Hbuf & _ & Hrec).
    { intros [Hx _]. discriminate Hx. }
    { reflexivity. }
    cbv zeta. split; [exact Hbuf | exact Hrec].
Defined.

(** C6 at work: the echo of the prompt after a newline is not audited. *)
Lemma audit_noise_is_noop_witness :
  noise "send" ([x0d; x0a] ++ bytes_of_string "sh-4.3# ")
  /\ audit "send" ([x0d; x0a] ++ bytes_of_string "sh-4.3# ") (typed "ls") = typed "ls".
Proof.
  assert (Hn : noise "send" ([x0d; x0a] ++ bytes_of_string "sh-4.3# "))
    by (apply noise_prompt_echo; reflexivity).
  split; [exact Hn |].
  apply (audit_noise_is_noop (M := Endpoint) (S := Endpoint) "send"
           ([x0d; x0a] ++ bytes_of_string "sh-4.3# ") (typed "ls") Hn).
Defined.

(** C7 at work: [l], [s], Backspace leaves [ls] in the buffer. *)
Lemma backspace_keeps_buffer_witness :
  recive_byte 3 2 x08 (typed "ls") = (typed "ls", Continue).
Proof.
  apply (backspace_keeps_buffer (M := Endpoint) (S := Endpoint) 3 2 (typed "ls")).
Defined.

(** C8 at work: a Ping is answered by a Pong; when the write of the
    Pong fails, the master pump ends with the wrapped error. *)
Lemma Ping_answered_by_one_Pong_witness :
  master_writes (trace (fst (handleMaster [Ping] (session true 0 0 quiet quiet)))) = [[Pong]]
  /\ snd (masterPump 1
            (session true 0 0
               (mkEndpoint [([Ping], None)] [Some (Foreign "broken pipe")]) quiet))
     = Exited (errors_Wrapf (errors_Wrapf (Foreign "broken pipe") "failed to write to master")
                 "failed to return Pong message to master").
Proof.
  split.
  - apply (Ping_answered_by_one_Pong (M := Endpoint) (S := Endpoint)
             Input Ping ResizeTerminal Pong ErrMasterClosed json_Unmarshal intSize
             int_unrepresentable [] (session true 0 0 quiet quiet) Ping_is_not_Input).
  - pose proof (Ping_answered_by_one_Pong (M := Endpoint) (S := Endpoint)
                  Input Ping ResizeTerminal Pong ErrMasterClosed json_Unmarshal intSize
                  int_unrepresentable []
                  (session true 0 0 (mkEndpoint [] [Some (Foreign "broken pipe")]) quiet)
                  Ping_is_not_Input) as H.
    cbv zeta in H. destruct H as (_ & _ & _ & _ & _ & _ & _ & Hpump).
    apply (Hpump (Foreign "broken pipe") 0%nat
             (session true 0 0
                (mkEndpoint [([Ping], None)] [Some (Foreign "broken pipe")]) quiet)
             (mkEndpoint [] [Some (Foreign "broken pipe")]));
      reflexivity.
Defined.

(** C9 at work: the slave is read once with success, then its read
    fails with an input/output error; the master's first read fails
    with [EOF]. *)
Lemma read_error_closes_pump_witness :
  snd (slavePump 2
         (session true 0 0 quiet
            (mkEndpoint [(bytes_of_string "hi", None);
                         ([], Some (Foreign "input/output error"))] [])))
  = Exited ErrSlaveClosed
  /\ snd (masterPump 1 (session true 0 0 quiet quiet)) = Exited ErrMasterClosed.
Proof.
  split.
  - refine (f_equal snd
      (proj1 (read_error_closes_pump (M := Endpoint) (S := Endpoint)
                Input Ping ResizeTerminal Output Pong ErrSlaveClosed ErrMasterClosed
                json_Unmarshal intSize int_unrepresentable 1 0
                (session true 0 0 quiet
                   (mkEndpoint [(bytes_of_string "hi", None);
                                ([], Some (Foreign "input/output error"))] []))
                (fst (handleSlave (bytes_of_string "hi")
                        (session true 0 0 quiet
                           (mkEndpoint [([], Some (Foreign "input/output error"))] [])))))
         (mkEndpoint [] []) [] (Foreign "input/output error") _ _));
      reflexivity.
  - refine (f_equal snd
      (proj2 (read_error_closes_pump (M := Endpoint) (S := Endpoint)
                Input Ping ResizeTerminal Output Pong ErrSlaveClosed ErrMasterClosed
                json_Unmarshal intSize int_unrepresentable 0 0
                (session true 0 0 quiet quiet) (session true 0 0 quiet quiet))
         quiet [] EOF _ _));
      reflexivity.
Defined.

(** C10 at work: a Ping frame that carries a TAB and an [x] leaves the
    [x] in the buffer and the flag set, and is answered all the same. *)
Lemma payload_audited_before_dispatch_witness :
  let r := handleMaster (Ping :: [x09; x78]) (session true 0 0 quiet quiet) in
  auditBuffer (wt (fst r)) = [x78]
  /\ waitForAutocomplete (wt (fst r)) = true.
Proof.
  pose proof (payload_audited_before_dispatch (M := Endpoint) (S := Endpoint)
                Input Ping ResizeTerminal Pong json_Unmarshal intSize int_unrepresentable
                Ping [x09; x78] (session true 0 0 quiet quiet)) as H.
  cbv zeta in H. destruct H as (Hb & Hw & _).
  split; [exact Hb | exact Hw].
Defined.

End Scenarios.

(** * The further properties at work *)

Section MoreScenarios.
Import Scripted Greeting.

(** X1 at work: [ls], CR, TAB, [-l], CR in one chunk: the inner CR and
    the TAB are passed over, the flag is set, one record is written for
    [ls-l]. *)
Lemma received_chunk_closed_form_witness :
  let msg := bytes_of_string "ls" ++ [x0d; x09] ++ bytes_of_string "-l" ++ [x0d] in
  let st := session true 0 0 quiet quiet in
  waitForAutocomplete (wt (audit "recive" msg st)) = true
  /\ auditBuffer (wt (audit "recive" msg st)) = []
  /\ audit_records (trace (audit "recive" msg st))
     = [record_of st (bytes_of_string "ls-l")].
Proof.
  cbv zeta.
  pose proof (received_chunk_closed_form (M := Endpoint) (S := Endpoint)
                (bytes_of_string "ls" ++ [x0d; x09] ++ bytes_of_string "-l" ++ [x0d])
                (session true 0 0 quiet quiet) eq_refl eq_refl) as H.
  cbv zeta in H. destruct H as (Hw & Hyes & _).
  split; [exact Hw |]. apply Hyes. split; [reflexivity | discriminate].
Defined.

(** X3 at work: Backspace and TAB among the keystrokes leave a plain
    buffer. *)
Lemma received_buffer_stays_plain_witness :
  Forall (fun b => plain b = true)
    (auditBuffer (wt (audit "recive" (bytes_of_string "a" ++ [x08; x09] ++ bytes_of_string "b")
                        (typed "ls")))).
Proof.
  apply (received_buffer_stays_plain (M := Endpoint) (S := Endpoint)
           (bytes_of_string "a" ++ [x08; x09] ++ bytes_of_string "b") (typed "ls")).
  repeat constructor.
Defined.

(** X7 at work: after a TAB the completion [s -l] joins the buffer;
    the echo of the prompt does not, and leaves the flag set. *)
Lemma autocomplete_captured_witness :
  let st := audit "recive" [x09] (typed "l") in
  auditBuffer (wt (audit "send" (bytes_of_string "s -l") st)) = bytes_of_string "ls -l"
  /\ audit "send" ([x0d; x0a] ++ bytes_of_string "sh-4.3# ") st = st.
Proof.
  cbv zeta.
  pose proof (autocomplete_captured (M := Endpoint) (S := Endpoint)
                (bytes_of_string "s -l") (audit "recive" [x09] (typed "l")) eq_refl) as H1.
  pose proof (autocomplete_captured (M := Endpoint) (S := Endpoint)
                ([x0d; x0a] ++ bytes_of_string "sh-4.3# ")
                (audit "recive" [x09] (typed "l")) eq_refl) as H2.
  cbv zeta in H1, H2.
  split; [apply H1; reflexivity | apply H2; reflexivity].
Defined.

(** X8 at work: the echo of the prompt is noise whichever way it goes. *)
Lemma filterASCII_direction_witness :
  filterASCII "send" ([x0d; x0a] ++ bytes_of_string "sh-4.3# ")
  = filterASCII "recive" ([x0d; x0a] ++ bytes_of_string "sh-4.3# ").
Proof.
  apply (filterASCII_direction "send" "recive" ([x0d; x0a] ++ bytes_of_string "sh-4.3# ")).
  discriminate.
Defined.

(** X10 at work. *)
Lemma asciiToString_printable_witness :
  asciiToString (bytes_of_string "ls -l *.go") = "ls -l *.go"%string.
Proof.
  exact (asciiToString_printable (bytes_of_string "ls -l *.go") eq_refl).
Defined.

(** X12 at work: ESC, and the five characters [*ESC*]. *)
Lemma asciiToString_ambiguous_witness :
  asciiToString [x1b] = asciiToString (bytes_of_string "*ESC*")
  /\ [x1b] <> bytes_of_string "*ESC*".
Proof.
  exact (asciiToString_ambiguous x1b eq_refl).
Defined.

(** X14 at work: the master sends input twice to a session that may
    not write; the slave sees nothing of it. *)
Lemma master_pump_respects_permitWrite_witness :
  slave_writes
    (trace (fst (masterPump 3
                   (session false 0 0
                      (mkEndpoint [(Input :: bytes_of_string "rm -rf /", None);
                                   (Input :: [x0d], None)] [])
                      quiet))))
  = [].
Proof.
  apply (master_pump_respects_permitWrite (M := Endpoint) (S := Endpoint)
           Input Ping ResizeTerminal Pong ErrMasterClosed json_Unmarshal intSize
           int_unrepresentable 3
           (session false 0 0
              (mkEndpoint [(Input :: bytes_of_string "rm -rf /", None);
                           (Input :: [x0d], None)] [])
              quiet)
           eq_refl).
Defined.

(** X15 at work: a resize request to a session of 80 by 24. *)
Lemma master_pump_respects_fixed_size_witness :
  resizes
    (trace (fst (masterPump 2
                   (session true 80 24
                      (mkEndpoint [(ResizeTerminal :: resize_request "132" "43", None)] [])
                      quiet))))
  = [].
Proof.
  apply (master_pump_respects_fixed_size (M := Endpoint) (S := Endpoint)
           Input Ping ResizeTerminal Pong ErrMasterClosed json_Unmarshal intSize
           int_unrepresentable 2
           (session true 80 24
              (mkEndpoint [(ResizeTerminal :: resize_request "132" "43", None)] [])
              quiet));
    discriminate.
Defined.

(** X17 at work: a frame of an unknown type ends the master pump. *)
Lemma master_pump_errors_witness :
  master_pump_error ErrMasterClosed (errors_Errorf "unknown message type `%c`" x39).
Proof.
  apply (master_pump_errors (M := Endpoint) (S := Endpoint)
           Input Ping ResizeTerminal Pong ErrMasterClosed json_Unmarshal intSize
           int_unrepresentable 1
           (session true 0 0 (mkEndpoint [([x39], None)] []) quiet)).
  reflexivity.
Defined.

(** X19 at work: the master refuses the first Output frame. *)
Lemma slave_pump_errors_witness :
  slave_pump_error ErrSlaveClosed
    (errors_Wrapf (errors_Wrapf (Foreign "broken pipe") "failed to write to master")
       "failed to send message to master").
Proof.
  apply (slave_pump_errors (M := Endpoint) (S := Endpoint) Output ErrSlaveClosed 1
           (session true 0 0 (mkEndpoint [] [Some (Foreign "broken pipe")])
              (mkEndpoint [(bytes_of_string "hi", None)] []))).
  reflexivity.
Defined.

(** X22 at work: the write of the reconnect frame fails. *)
Lemma handshake_errors_witness :
  exists cause context,
    errors_Wrapf (errors_Wrapf (Foreign "broken pipe") "failed to write to master")
      "failed to set reconnect"
    = errors_Wrapf (errors_Wrapf cause "failed to write to master") context
    /\ In context ["failed to send window title"; "failed to set reconnect";
                   "failed to set preferences"]%string
    /\ (context = "failed to send window title"%string <->
        master_writes
          (trace (fst (greet (titled "gotty" 10 None
                                (mkEndpoint [] [None; Some (Foreign "broken pipe")])))))
        = master_writes
            (trace (titled "gotty" 10 None
                      (mkEndpoint [] [None; Some (Foreign "broken pipe")])))
          ++ [SetWindowTitle :: bytes_of_string "gotty"]).
Proof.
  apply (handshake_errors (M := Endpoint) (S := Endpoint)
           SetWindowTitle SetReconnect SetPreferences
           (titled "gotty" 10 None (mkEndpoint [] [None; Some (Foreign "broken pipe")]))).
  reflexivity.
Defined.

(** X23 at work: an interval of 10 seconds goes out as [510]. *)
Lemma reconnect_frame_reads_back_witness :
  exists payload rest,
    master_writes (trace (fst (greet (titled "gotty" 10 (Some "{}") quiet))))
    = master_writes (trace (titled "gotty" 10 (Some "{}") quiet))
      ++ (SetWindowTitle :: bytes_of_string "gotty") :: (SetReconnect :: payload) :: rest
    /\ decimal_value payload = Some 10.
Proof.
  apply (reconnect_frame_reads_back (M := Endpoint) (S := Endpoint)
           SetWindowTitle SetReconnect SetPreferences
           (titled "gotty" 10 (Some "{}") quiet)).
  - reflexivity.
  - reflexivity.
Defined.

(** The complete handshake of that session. *)
Example handshake_complete :
  master_writes (trace (fst (greet (titled "gotty" 10 (Some "{}") quiet))))
  = [bytes_of_string "3gotty"; bytes_of_string "510"; bytes_of_string "4{}"].
Proof. reflexivity. Qed.

End MoreScenarios.
